(** * The positions scraper of [app/api/scrape/route.ts]

    A shallow embedding of the extraction pipeline run by [GET]: the scroll
    loop, the field-extraction cascades, the outcome calculation, the
    deduplication by normalised market URL and the assembly of the JSON
    response, followed by the properties proved about them.  Around the
    pipeline stand the choice of the links and of their containers, the
    handler with its calls to the browser, and the table of [app/page.tsx]
    that shows the records.

    JavaScript strings are modelled by [string]: a sequence of code units,
    restricted to the range 0..255 (Latin-1), on which [toLowerCase],
    [\d], [\s] and the case-insensitive literals of the regular
    expressions are character-wise.  The cent sign is the code unit 162. *)

From Stdlib Require Import ZArith List String Ascii Bool Lia DecimalString.
From Stdlib Require Import Floats.SpecFloat.
From stdpp Require Import base list gmap strings.

Local Open Scope string_scope.
#[local] Set Warnings "-register-all".
#[local] Arguments String.append : simpl nomatch.

(** ** Strings *)

Module JsString.

Definition code (c : ascii) : N := N_of_ascii c.

(** [String.prototype.toLowerCase] on one code unit of the Latin-1 range:
    A-Z and the upper-case letters U+00C0..U+00DE (without the
    multiplication sign U+00D7) move up by 32. *)
Definition toLowerChar (c : ascii) : ascii :=
  let n := code c in
  if ((65 <=? n) && (n <=? 90)
      || (192 <=? n) && (n <=? 222) && negb (n =? 215))%N
  then ascii_of_N (n + 32) else c.

Fixpoint toLowerCase (s : string) : string :=
  match s with
  | EmptyString => EmptyString
  | String c s' => String (toLowerChar c) (toLowerCase s')
  end.

(** [s.split(c)[0]]: the part of [s] before the first [c], the whole of
    [s] when [c] does not occur. *)
Fixpoint before (c : ascii) (s : string) : string :=
  match s with
  | EmptyString => EmptyString
  | String a s' => if Ascii.eqb a c then EmptyString else String a (before c s')
  end.

Fixpoint contains (c : ascii) (s : string) : bool :=
  match s with
  | EmptyString => false
  | String a s' => Ascii.eqb a c || contains c s'
  end.

(** [s.endsWith(String c)] *)
Fixpoint endsWithChar (c : ascii) (s : string) : bool :=
  match s with
  | EmptyString => false
  | String a EmptyString => Ascii.eqb a c
  | String _ s' => endsWithChar c s'
  end.

(** [s.replace(/\/$/, '')]: the pattern matches at the last code unit
    only, so at most one trailing slash goes. *)
Fixpoint dropTrailingSlash (s : string) : string :=
  match s with
  | EmptyString => EmptyString
  | String a s' =>
      match s' with
      | EmptyString => if Ascii.eqb a "/" then EmptyString else s
      | _ => String a (dropTrailingSlash s')
      end
  end.

(** [s.startsWith(p)] *)
Fixpoint startsWith (p s : string) : bool :=
  match p, s with
  | EmptyString, _ => true
  | String a p', String b s' => Ascii.eqb a b && startsWith p' s'
  | String _ _, EmptyString => false
  end.

(** [s || d] on strings: the empty string is the only falsy one. *)
Definition orElse (s d : string) : string :=
  match s with EmptyString => d | _ => s end.

Definition nonEmpty (s : string) : bool :=
  match s with EmptyString => false | _ => true end.

End JsString.
Import JsString.

(** ** Position records *)

(** [interface Position] *)
Record Position := mkPosition {
  marketName : string;
  marketUrl : string;
  outcome : string;
  avgPrice : string;
  value : string
}.

(** ** Deduplication (the loop over [results] at the end of the page script) *)

Module Dedup.

(** [pos.marketUrl.split('?')[0].split('#')[0].toLowerCase().replace(/\/$/, '')] *)
Definition normalizeUrl (url : string) : string :=
  dropTrailingSlash (toLowerCase (before "#" (before "?" url))).

Section Loop.
(** The loop is the same for every key; [GET] uses [normalizeUrl] of the
    record's [marketUrl]. *)
Variable key : Position -> string.

(** The two objects the loop mutates: [seenUrls] and [uniqueResults]. *)
Record state := mkState {
  seenUrls : gset string;
  uniqueResults : list Position
}.

Definition init : state := mkState ∅ [].

(** One iteration of [for (const pos of results)]. *)
Definition step (st : state) (pos : Position) : state :=
  let normalizedUrl := key pos in
  if decide (normalizedUrl ∈ seenUrls st) then st
  else mkState ({[normalizedUrl]} ∪ seenUrls st) (uniqueResults st ++ [pos]).

Definition run (results : list Position) : state :=
  fold_left step results init.

Definition dedupBy (results : list Position) : list Position :=
  uniqueResults (run results).

(** What the loop appends to [uniqueResults] when it starts with the set
    [seen]: a recursive reading of it, used in the proofs. *)
Fixpoint kept (seen : gset string) (results : list Position) : list Position :=
  match results with
  | [] => []
  | pos :: rest =>
      if decide (key pos ∈ seen) then kept seen rest
      else pos :: kept ({[key pos]} ∪ seen) rest
  end.
End Loop.

Definition dedupKey (pos : Position) : string := normalizeUrl (marketUrl pos).

(** The parts of a URL after its base: a query is empty or starts with a
    question mark, a fragment is empty or starts with a hash. *)
Definition isQuery (q : string) : bool :=
  match q with EmptyString => true | String c _ => Ascii.eqb c "?" end.

Definition isFragment (f : string) : bool :=
  match f with EmptyString => true | String c _ => Ascii.eqb c "#" end.

Definition isBase (u : string) : bool :=
  negb (contains "?" u) && negb (contains "#" u).

Definition dedup : list Position -> list Position := dedupBy dedupKey.

End Dedup.

(** ** The scroll loop (first script evaluated in the page) *)

Module Scroll.

Local Open Scope Z_scope.

Definition maxScrolls : Z := 50.

(** The four [let] variables of the script. *)
Record state := mkState {
  lastHeight : Z;
  lastLinkCount : Z;
  scrollCount : Z;
  stableCount : Z
}.

Definition init : state := mkState 0 0 0 0.

(** What the page answers after a scroll: [document.body.scrollHeight]
    and [countMarketLinks()]. *)
Definition sample : Type := (Z * Z)%type.

(** [scrollCount < maxScrolls && stableCount < 3] *)
Definition continue (st : state) : bool :=
  (scrollCount st <? maxScrolls) && (stableCount st <? 3).

(** The body of the [while], after the two waits. *)
Definition body (cur : sample) (st : state) : state :=
  let '(currentHeight, currentLinkCount) := cur in
  let stable :=
    if (currentHeight =? lastHeight st) && (currentLinkCount =? lastLinkCount st)
    then stableCount st + 1 else 0 in
  mkState currentHeight currentLinkCount (scrollCount st + 1) stable.

(** The loop, against a page that answers [page i] to the sample taken in
    iteration [i].  [None] means the fuel ran out before the loop
    condition became false. *)
Fixpoint loop (fuel : nat) (page : nat -> sample) (i : nat) (st : state)
  : option state :=
  if continue st then
    match fuel with
    | O => None
    | S fuel' => loop fuel' page (S i) (body (page i) st)
    end
  else Some st.

Definition scroll (page : nat -> sample) : option state :=
  loop (Z.to_nat maxScrolls) page 0%nat init.

(** The state after [n] iterations, whether or not the loop would have
    stopped before. *)
Fixpoint after (page : nat -> sample) (n : nat) : state :=
  match n with
  | O => init
  | S n' => body (page n') (after page n')
  end.

(** The sample the [n]-th one is compared with: the one before, and the
    initial [0, 0] for the first. *)
Definition previous (page : nat -> sample) (n : nat) : sample :=
  match n with
  | O => (0, 0)
  | S n' => page n'
  end.

Definition unchanged (page : nat -> sample) (n : nat) : bool :=
  (fst (page n) =? fst (previous page n)) && (snd (page n) =? snd (previous page n)).

End Scroll.

(** ** The JSON response *)

Module Response.

Inductive json :=
| JString (s : string)
| JNumber (n : Z)
| JArray (l : list json)
| JObject (fields : list (string * json)).

Record response := mkResponse { status : Z; payload : json }.

(** The object literal [position] built for each record, keys in
    insertion order. *)
Definition positionJson (p : Position) : json :=
  JObject [ ("marketName", JString (marketName p));
            ("marketUrl", JString (marketUrl p));
            ("outcome", JString (outcome p));
            ("avgPrice", JString (avgPrice p));
            ("value", JString (value p)) ].

Definition keys (j : json) : list string :=
  match j with
  | JObject fields => map fst fields
  | _ => []
  end.

Definition field (k : string) (j : json) : option json :=
  match j with
  | JObject fields => snd <$> List.find (fun kv => String.eqb (fst kv) k) fields
  | _ => None
  end.

Definition emptyMessage : string :=
  "The page may not have loaded correctly or the profile has no positions. Make sure the URL includes ?tab=positions".

(** The two [NextResponse.json] calls after the browser is closed. *)
Definition respond (positions : list Position) : response :=
  if (length positions =? 0)%nat then
    mkResponse 200
      (JObject [ ("error", JString "No positions found");
                 ("message", JString emptyMessage);
                 ("positions", JArray []);
                 ("count", JNumber 0) ])
  else
    mkResponse 200
      (JObject [ ("positions", JArray (map positionJson positions));
                 ("count", JNumber (Z.of_nat (length positions))) ]).

(** The [catch] of the handler, for an error with message [msg]
    (outside development mode [details] is [undefined] and dropped). *)
Definition failed (msg : string) : response :=
  mkResponse 500
    (JObject [ ("error", JString "Scraping failed");
               ("message", JString (orElse msg "Unknown error occurred")) ]).

End Response.

(** ** Numbers

    A JavaScript number is an IEEE 754 binary64 value: [spec_float] at
    precision 53 and maximal exponent 1024, with the correctly rounded
    division of the library. *)

Module JsNumber.

Local Open Scope Z_scope.

Definition prec : Z := 53.
Definition emax : Z := 1024.

Definition number : Type := spec_float.

Definition zero : number := S754_zero false.

(** [x / y] *)
Definition div (x y : number) : number := SFdiv prec emax x y.

(** The number nearest to the integer [n] (ties to even). *)
Definition ofZ (n : Z) : number := binary_normalize prec emax n 0 false.

Fixpoint pow10 (k : nat) : positive :=
  match k with
  | O => 1
  | S k' => 10 * pow10 k'
  end.

(** The number nearest to [n / 10^k], for [0 <= n]: the value of a decimal
    literal with [k] digits after the point.  The division of the library
    rounds the quotient of two integers of any size correctly. *)
Definition ofDecimal (n : Z) (k : nat) : number :=
  match n with
  | Zpos p => SFdiv prec emax (S754_finite false p 0) (S754_finite false (pow10 k) 0)
  | _ => zero
  end.

(** [isNaN(x)] *)
Definition isNaN (x : number) : bool :=
  match x with S754_nan => true | _ => false end.

(** [x > 0] *)
Definition gtZero (x : number) : bool := SFltb zero x.

Definition isDigit (c : ascii) : bool :=
  let n := code c in ((48 <=? n) && (n <=? 57))%N.

(** The longest prefix of [s] made of characters satisfying [p], and what
    follows it: a greedy [p*]. *)
Fixpoint span (p : ascii -> bool) (s : string) : string * string :=
  match s with
  | EmptyString => (EmptyString, EmptyString)
  | String c s' =>
      if p c then let '(a, b) := span p s' in (String c a, b)
      else (EmptyString, s)
  end.

(** Every character of [s] satisfies [p]. *)
Fixpoint allb (p : ascii -> bool) (s : string) : bool :=
  match s with
  | EmptyString => true
  | String c s' => p c && allb p s'
  end.

(** A greedy run of [p] cannot go on into [s]. *)
Definition stops (p : ascii -> bool) (s : string) : bool :=
  match s with
  | EmptyString => true
  | String c _ => negb (p c)
  end.

(** The sign bit of a number ([false] for [NaN]). *)
Definition signOf (x : spec_float) : bool :=
  match x with
  | S754_zero s | S754_infinity s | S754_finite s _ _ => s
  | S754_nan => false
  end.

(** The value of a string of decimal digits, most significant first. *)
Fixpoint digitsValue (acc : Z) (s : string) : Z :=
  match s with
  | EmptyString => acc
  | String c s' => digitsValue (10 * acc + (Z.of_N (code c) - 48)) s'
  end.

(** [parseFloat(s)] for the strings [GET] passes to it, which hold digits
    and at most one point (see [numberAt] and [amountAt] below): the
    longest prefix [digits], [digits.], [digits.digits] or [.digits] is
    converted, and [NaN] is returned when there is no digit.  Leading
    white space, a sign, an exponent and the literal [Infinity], which
    those strings cannot contain, are not recognised.  The literal is
    rounded from its exact value, as V8 does (ECMAScript also allows an
    implementation to round the digits after the 20th away first). *)
Definition parseFloat (s : string) : number :=
  let '(int, rest) := span isDigit s in
  let frac :=
    match rest with
    | String "." rest' => fst (span isDigit rest')
    | _ => EmptyString
    end in
  match int ++ frac with
  | EmptyString => S754_nan
  | ds => ofDecimal (digitsValue 0 ds) (String.length frac)
  end.

(** Decimal digits of a natural number, ["0"] for zero. *)
Definition decimal (n : Z) : string :=
  DecimalString.NilZero.string_of_uint (N.to_uint (Z.to_N n)).

(** [10^21 <= m * 2^e] *)
Definition atLeast1e21 (m : positive) (e : Z) : bool :=
  if 0 <=? e then 10 ^ 21 <=? Zpos m * 2 ^ e
  else 10 ^ 21 * 2 ^ (- e) <=? Zpos m.

(** The integer [n] for which [n / 100] is nearest to [m * 2^e], the
    larger one when two are as near. *)
Definition nearestHundredth (m : positive) (e : Z) : Z :=
  if 0 <=? e then 100 * Zpos m * 2 ^ e
  else (200 * Zpos m + 2 ^ (- e)) / (2 * 2 ^ (- e)).

(** Steps 8 to 10 of [Number.prototype.toFixed] for two fraction digits:
    pad [n] with zeros to three digits and put the point before the last
    two. *)
Definition fixed2 (n : Z) : string :=
  let m := decimal n in
  let m := if (String.length m <=? 2)%nat
           then String.concat "" (repeat "0" (3 - String.length m)) ++ m
           else m in
  let k := String.length m in
  substring 0 (k - 2) m ++ "." ++ substring (k - 2) 2 m.

(** [Number::toString] for a number [m * 2^e] with [0 <= e], an integer:
    the shortest decimal [s * 10^p] that rounds back to the number (the
    one nearest to it, the even one on a tie), written out when it has at
    most 21 digits and in exponent notation otherwise.  [toFixed] calls
    it at [10^21] and above, where [17 <= e]. *)
Section ToString.
Variables (m : positive) (e : Z).

Let X : Z := Zpos m * 2 ^ e.
Let low4 : Z :=
  4 * X - (if (Zpos m =? 2 ^ (prec - 1)) then 2 ^ e else 2 * 2 ^ e).
Let high4 : Z := 4 * X + 2 * 2 ^ e.

(** [s * 10^p] rounds to the number (ties to even). *)
Definition roundsBack (s : Z) (p : nat) : bool :=
  let y4 := 4 * s * Zpos (pow10 p) in
  (1 <=? s) &&
  (if Z.even (Zpos m) then (low4 <=? y4) && (y4 <=? high4)
   else (low4 <? y4) && (y4 <? high4)).

Definition candidate (p : nat) : option Z :=
  let t := Zpos (pow10 p) in
  let q := X / t in
  let r := X mod t in
  let downFirst :=
    if 2 * r <? t then true
    else if t <? 2 * r then false
    else Z.even q in
  let '(a, b) := if downFirst then (q, q + 1) else (q + 1, q) in
  if roundsBack a p then Some a
  else if roundsBack b p then Some b
  else None.

Fixpoint shortest (p : nat) : Z * nat :=
  match candidate p with
  | Some s => (s, p)
  | None =>
      match p with
      | O => (X, O)
      | S p' => shortest p'
      end
  end.

Definition toStringIntegral : string :=
  let '(s, p) := shortest (String.length (decimal X)) in
  let ds := decimal s in
  let k := String.length ds in
  let n := (k + p)%nat in
  if (n <=? 21)%nat then ds ++ String.concat "" (repeat "0" p)
  else
    let ex := decimal (Z.of_nat n - 1) in
    match ds with
    | String d EmptyString => String d ("e+" ++ ex)
    | String d ds' => String d ("." ++ ds' ++ "e+" ++ ex)
    | EmptyString => EmptyString
    end.
End ToString.

(** A numeric string with exactly two decimal places: [/^\d+\.\d\d$/]. *)
Definition isFixed2 (s : string) : bool :=
  let '(int, rest) := span isDigit s in
  nonEmpty int &&
  match rest with
  | String "." (String a (String b EmptyString)) => isDigit a && isDigit b
  | _ => false
  end.

(** The numbers [toFixed] writes in fixed notation: the finite ones
    below [10^21]. *)
Definition belowE21 (x : number) : bool :=
  match x with
  | S754_zero _ => true
  | S754_finite _ m e => negb (atLeast1e21 m e)
  | _ => false
  end.

(** [x.toFixed(2)] *)
Definition toFixed2 (x : number) : string :=
  match x with
  | S754_nan => "NaN"
  | S754_infinity s => if s then "-Infinity" else "Infinity"
  | S754_zero _ => "0.00"
  | S754_finite s m e =>
      (if s then "-" else "") ++
      (if atLeast1e21 m e then toStringIntegral m e
       else fixed2 (nearestHundredth m e))
  end.

End JsNumber.

(** ** The regular expressions of the page script

    Each pattern is embedded as a function that tries it at the start of a
    string, and [search] moves that attempt along the string as
    [String.prototype.match] and [RegExp.prototype.test] do.  In all of
    them a greedy run is followed by something the run cannot contain, so
    the first attempt of the backtracking matcher at a position is the
    only one that can succeed there.  (In the comments a space separates
    a star from a closing parenthesis of the pattern.) *)

Module Pattern.
Import JsNumber.

(** The cent sign, U+00A2. *)
Definition cent : ascii := "162"%char.

(** [\s] in the Latin-1 range: tab, line feed, vertical tab, form feed,
    carriage return, space, no-break space. *)
Definition isSpace (c : ascii) : bool :=
  let n := code c in ((9 <=? n) && (n <=? 13) || (n =? 32) || (n =? 160))%N.

(** [[\d,]] *)
Definition isDigitOrComma (c : ascii) : bool := isDigit c || Ascii.eqb c ",".

(** [[:\s]] *)
Definition isColonOrSpace (c : ascii) : bool := Ascii.eqb c ":" || isSpace c.

(** Canonicalisation of the [i] flag, on ASCII letters: the literals of
    the patterns are ASCII letters, and a code unit from 128 on never
    canonicalises to one below. *)
Definition canonicalize (c : ascii) : ascii :=
  let n := code c in
  if ((97 <=? n) && (n <=? 122))%N then ascii_of_N (n - 32) else c.

(** First position of [s] at which [at_] succeeds, left to right, the
    end of the string included. *)
Fixpoint search {A : Type} (at_ : string -> option A) (s : string) : option A :=
  match at_ s with
  | Some r => Some r
  | None =>
      match s with
      | EmptyString => None
      | String _ s' => search at_ s'
      end
  end.

(** A literal under the [i] flag: what follows it. *)
Fixpoint literalAt (lit s : string) : option string :=
  match lit, s with
  | EmptyString, _ => Some s
  | String a lit', String b s' =>
      if Ascii.eqb (canonicalize a) (canonicalize b) then literalAt lit' s' else None
  | String _ _, EmptyString => None
  end.

(** [p+] then the rest: a non-empty greedy run. *)
Definition run1 (p : ascii -> bool) (s : string) : option (string * string) :=
  match span p s with
  | (EmptyString, _) => None
  | (r, rest) => Some (r, rest)
  end.

(** [\.?\d*]: what it takes and what follows. *)
Definition fractionAt (s : string) : string * string :=
  match s with
  | String "." s' => let '(d, rest) := span isDigit s' in (String "." d, rest)
  | _ => (EmptyString, s)
  end.

(** [(first+\.?\d* )] for a character class [first]: the capture and
    what follows. *)
Definition decimalAt (first : ascii -> bool) (s : string) : option (string * string) :=
  match run1 first s with
  | None => None
  | Some (int, rest) =>
      let '(frac, rest') := fractionAt rest in Some (int ++ frac, rest')
  end.

(** [(\d+\.?\d* )] *)
Definition numberAt : string -> option (string * string) := decimalAt isDigit.

(** [([\d,]+\.?\d* )] *)
Definition amountAt : string -> option (string * string) := decimalAt isDigitOrComma.

(** [/(\d+\.?\d* )\s*¢/]: [match[0]] and [match[1]]. *)
Definition priceAt (s : string) : option (string * string) :=
  match numberAt s with
  | None => None
  | Some (num, rest) =>
      let '(ws, rest') := span isSpace rest in
      match rest' with
      | String c _ =>
          if Ascii.eqb c cent then Some (num ++ ws ++ String cent EmptyString, num)
          else None
      | EmptyString => None
      end
  end.

Definition matchPrice (s : string) : option (string * string) := search priceAt s.

(** [/\d+\.?\d*\s*¢/.test(s)] *)
Definition testPrice (s : string) : bool := bool_decide (is_Some (matchPrice s)).

(** [/lit sep+ (\d+\.?\d* )\s*¢/i]: [match[1]]. *)
Definition labelledPriceAt (lit : string) (sep : ascii -> bool) (s : string)
  : option string :=
  match literalAt lit s with
  | None => None
  | Some rest =>
      match run1 sep rest with
      | None => None
      | Some (_, rest') => snd <$> priceAt rest'
      end
  end.

(** [/at\s+(\d+\.?\d* )\s*¢/i], [/avg[:\s]+(\d+\.?\d* )\s*¢/i] and
    [/average[:\s]+(\d+\.?\d* )\s*¢/i] *)
Definition matchAt (s : string) : option string :=
  search (labelledPriceAt "at" isSpace) s.
Definition matchAvg (s : string) : option string :=
  search (labelledPriceAt "avg" isColonOrSpace) s.
Definition matchAverage (s : string) : option string :=
  search (labelledPriceAt "average" isColonOrSpace) s.

(** [/\$[\d,]+\.?\d*/]: [match[0]]. *)
Definition dollarAt (s : string) : option string :=
  match s with
  | String "$" s' =>
      match amountAt s' with
      | None => None
      | Some (amount, _) => Some (String "$" amount)
      end
  | _ => None
  end.

Definition matchDollar (s : string) : option string := search dollarAt s.

(** [/\$[\d,]+/.test(s)] *)
Definition testDollar (s : string) : bool :=
  bool_decide (is_Some (search (fun t =>
    match t with
    | String "$" t' => run1 isDigitOrComma t'
    | _ => None
    end) s)).

(** [/lit[:\s]+\$?([\d,]+\.?\d* )/i]: [match[1]]. *)
Definition labelledAmountAt (lit : string) (s : string) : option string :=
  match literalAt lit s with
  | None => None
  | Some rest =>
      match run1 isColonOrSpace rest with
      | None => None
      | Some (_, rest') =>
          match rest' with
          | String "$" rest'' => fst <$> amountAt rest''
          | _ => fst <$> amountAt rest'
          end
      end
  end.

Definition matchLabelledAmount (lit : string) (s : string) : option string :=
  search (labelledAmountAt lit) s.

(** [s.replace(/lit[:\s]+/i, '')]: the first match goes. *)
Fixpoint removeLabel (lit : string) (s : string) : string :=
  match match literalAt lit s with
        | Some rest => snd <$> run1 isColonOrSpace rest
        | None => None
        end with
  | Some rest' => rest'
  | None =>
      match s with
      | EmptyString => EmptyString
      | String c s' => String c (removeLabel lit s')
      end
  end.

(** [s.trim()] *)
Fixpoint trimEnd (s : string) : string :=
  match s with
  | EmptyString => EmptyString
  | String c s' =>
      match trimEnd s' with
      | EmptyString => if isSpace c then EmptyString else String c EmptyString
      | t => String c t
      end
  end.

Definition trim (s : string) : string := trimEnd (snd (span isSpace s)).

(** [s.includes(needle)] *)
Definition includes (needle s : string) : bool :=
  bool_decide (is_Some (search (fun t => if startsWith needle t then Some tt else None) s)).

(** The whole of [s] is a match of [/(\d+\.?\d* )\s*¢/], as in "45¢". *)
Definition isPriceText (s : string) : bool :=
  match priceAt s with
  | Some (whole, _) => String.eqb whole s
  | None => false
  end.

(** The whole of [s] is a match of [/\$[\d,]+\.?\d*/], as in "$5,423". *)
Definition isDollarText (s : string) : bool :=
  match dollarAt s with
  | Some whole => String.eqb whole s
  | None => false
  end.

(** The characters of the strings given to [parseFloat]. *)
Definition isDecimalChar (c : ascii) : bool := isDigit c || Ascii.eqb c ".".

(** The characters of a dollar amount. *)
Definition isAmountChar (c : ascii) : bool :=
  isDigitOrComma c || Ascii.eqb c "." || Ascii.eqb c "$".

(** [s.replace(/,/g, '')] *)
Fixpoint removeCommas (s : string) : string :=
  match s with
  | EmptyString => EmptyString
  | String c s' => if Ascii.eqb c "," then removeCommas s' else String c (removeCommas s')
  end.

End Pattern.

(** ** The container of a record: a DOM subtree *)

Module Dom.

(** An element carries its [tagName] (upper case, as HTML documents report
    it) and its child nodes. *)
Inductive node :=
| Text (data : string)
| Element (tagName : string) (childNodes : list node).

(** [node.textContent] *)
Fixpoint textContent (n : node) : string :=
  match n with
  | Text data => data
  | Element _ childNodes => String.concat "" (map textContent childNodes)
  end.

Definition hasTag (tags : list string) (n : node) : bool :=
  match n with
  | Text _ => false
  | Element tagName _ => existsb (String.eqb tagName) tags
  end.

(** The element descendants of a node in document order, each with its
    [parentElement]. *)
Fixpoint descendants (n : node) : list (node * node) :=
  match n with
  | Text _ => []
  | Element _ childNodes =>
      flat_map (fun c =>
        match c with
        | Text _ => []
        | Element _ _ => (c, n) :: descendants c
        end) childNodes
  end.

(** [n.querySelectorAll(sel)] for a selector that is a list of tag names. *)
Definition querySelectorAll (tags : list string) (n : node) : list (node * node) :=
  filter (fun ep => hasTag tags (fst ep)) (descendants n).

Definition isTableRow (n : node) : bool := hasTag ["TR"] n.

End Dom.

(** ** Field extraction and the outcome (body of [marketLinks.forEach]) *)

Module Extract.
Import JsNumber Pattern Dom.

(** What the script reads from the anchor. *)
Record Anchor := mkAnchor {
  href : string;                     (* link.href *)
  hrefAttribute : option string;     (* link.getAttribute('href') *)
  innerText : string;                (* link.innerText *)
  anchorText : string                (* link.textContent *)
}.

(** An anchor with the container the four resolution strategies chose for
    it ([None] when even the parent is missing). *)
Record Candidate := mkCandidate {
  link : Anchor;
  container : option node
}.

Definition origin : string := "https://polymarket.com".

(** The test of line 255 for an absolute URL. *)
Definition isAbsolute (url : string) : bool := startsWith "http" url.

(** Lines 253 to 261: the URL of the record. *)
Definition resolveUrl (a : Anchor) : string :=
  let marketUrl := orElse (href a) (orElse (default "" (hrefAttribute a)) "") in
  if nonEmpty marketUrl && negb (isAbsolute marketUrl) then
    if startsWith "/" marketUrl then origin ++ marketUrl
    else origin ++ "/" ++ marketUrl
  else marketUrl.

(** Line 252 *)
Definition linkName (a : Anchor) : string :=
  orElse (trim (innerText a)) (orElse (trim (anchorText a)) "").

(** First pattern of the list, in order, that matches. *)
Fixpoint firstMatch (patterns : list (string -> option string)) (text : string)
  : option string :=
  match patterns with
  | [] => None
  | p :: rest =>
      match p text with
      | Some r => Some r
      | None => firstMatch rest text
      end
  end.

(** Lines 274 to 286: the capture kept in [avgPrice]. *)
Definition earlyAvgPrice (containerText : string) : string :=
  default "" (firstMatch [matchAt; matchAvg; matchAverage] containerText).

(** *** Priced quantity *)

Definition mentionsAvg (cellLower : string) : bool :=
  includes "avg" cellLower || includes "average" cellLower || includes "at" cellLower.

(** Strategy 0, the loop over [cells]: [Some] is the assignment followed
    by [break]. *)
Fixpoint avgFromCells (cells : list node) : option string :=
  match cells with
  | [] => None
  | cell :: rest =>
      let cellText := textContent cell in
      let cellLower := toLowerCase cellText in
      if mentionsAvg cellLower then
        match matchPrice cellText with
        | Some (whole, _) => Some whole
        | None => avgFromCells rest
        end
      else avgFromCells rest
  end.

Definition isAvg (context : string) : bool :=
  bool_decide (is_Some (matchAt context))
  || bool_decide (is_Some (matchAvg context))
  || bool_decide (is_Some (matchAverage context)).

(** Strategies 1 and 2, the loop over [priceElements]. *)
Fixpoint avgFromElements (priceElements : list (node * node)) : option string :=
  match priceElements with
  | [] => None
  | (el, parent) :: rest =>
      let text := textContent el in
      match matchPrice text with
      | Some (whole, _) =>
          let context := toLowerCase (text ++ " " ++ textContent parent) in
          if isAvg context then Some whole else avgFromElements rest
      | None => avgFromElements rest
      end
  end.

Definition priceElements (c : node) : list (node * node) :=
  filter (fun ep => testPrice (textContent (fst ep)))
    (querySelectorAll ["SPAN"; "DIV"; "P"; "TD"; "TH"] c).

(** Strategy 3 *)
Definition avgFromText (containerText : string) : option string :=
  (fun n => n ++ String cent EmptyString) <$>
    firstMatch [matchAvg; matchAverage; matchAt] containerText.

Definition cellsOf (c : node) : list node :=
  if isTableRow c then fst <$> querySelectorAll ["TD"; "TH"] c else [].

(** Value of [avgPriceValue] after each of the four steps, as the script
    runs them (lines 289 to 354). *)
Definition avgAfter0 (c : node) : string :=
  if isTableRow c && (0 <? length (cellsOf c))%nat
  then default "" (avgFromCells (cellsOf c)) else "".

Definition avgAfter2 (c : node) : string :=
  match avgFromElements (priceElements c) with
  | Some v => v
  | None => avgAfter0 c
  end.

Definition avgAfter3 (c : node) : string :=
  let avgPriceValue := avgAfter2 c in
  if negb (nonEmpty avgPriceValue) then
    match avgFromText (textContent c) with
    | Some v => v
    | None => avgPriceValue
    end
  else avgPriceValue.

Definition extractAvgPrice (c : node) : string :=
  let avgPriceValue := avgAfter3 c in
  let avgPrice := earlyAvgPrice (textContent c) in
  if negb (nonEmpty avgPriceValue) && nonEmpty avgPrice
  then avgPrice ++ String cent EmptyString
  else avgPriceValue.

(** *** Monetary value *)

Definition mentionsValue (lower : string) : bool :=
  includes "value" lower || includes "pnl" lower
  || includes "profit" lower || includes "loss" lower.

(** Strategy 0, the loop over [cells], started with the current [value]:
    a cell in a value or PnL context ends the loop, the first other
    dollar amount is kept as a fallback. *)
Fixpoint valueFromCells (cells : list node) (value : string) : string :=
  match cells with
  | [] => value
  | cell :: rest =>
      let cellText := textContent cell in
      match matchDollar cellText with
      | Some m =>
          let cellLower := toLowerCase cellText in
          if mentionsValue cellLower then m
          else if negb (nonEmpty value) then valueFromCells rest m
          else valueFromCells rest value
      | None => valueFromCells rest value
      end
  end.

Definition valueElements (c : node) : list (node * node) :=
  filter (fun ep => testDollar (textContent (fst ep)))
    (querySelectorAll ["SPAN"; "DIV"; "P"; "TD"; "TH"] c).

(** Strategy 1, the loop over [valueElements]. *)
Fixpoint valueFromElements (els : list (node * node)) (value : string) : string :=
  match els with
  | [] => value
  | (el, parent) :: rest =>
      let text := textContent el in
      match matchDollar text with
      | Some m =>
          let context := toLowerCase (orElse (textContent el) (textContent parent)) in
          if mentionsValue context then m
          else if negb (nonEmpty value) then valueFromElements rest m
          else valueFromElements rest value
      | None => valueFromElements rest value
      end
  end.

(** The [else] branch of strategy 2, for a match without capture. *)
Definition stripLabels (whole : string) : string :=
  trim (removeLabel "loss" (removeLabel "profit"
    (removeLabel "PnL" (removeLabel "value" whole)))).

Definition labelled (lit : string) (text : string) : option string :=
  (fun g => String "$" g) <$> matchLabelledAmount lit text.

(** Strategy 2: [valuePatterns] in their order. *)
Definition valueFromText (containerText : string) : option string :=
  firstMatch
    [ (fun t => stripLabels <$> matchDollar t);
      labelled "value"; labelled "PnL"; labelled "profit"; labelled "loss" ]
    containerText.

Definition valueAfter0 (c : node) : string :=
  if isTableRow c && (0 <? length (cellsOf c))%nat
  then valueFromCells (cellsOf c) "" else "".

Definition valueAfter1 (c : node) : string :=
  valueFromElements (valueElements c) (valueAfter0 c).

Definition extractValue (c : node) : string :=
  let value := valueAfter1 c in
  if negb (nonEmpty value) then
    match valueFromText (textContent c) with
    | Some v => v
    | None => value
    end
  else value.

(** *** Outcome (lines 426 to 450)

    Nothing in the [try] block can throw on strings, so the [catch] is
    not reached and has no counterpart here. *)
Definition priceInCents (avgPriceValue : string) : number :=
  match search numberAt avgPriceValue with
  | Some (g, _) => parseFloat g
  | None => zero
  end.

Definition priceInDollars (avgPriceValue : string) : number :=
  div (priceInCents avgPriceValue) (ofZ 100).

Definition valueStr (value : string) : string :=
  match search amountAt value with
  | Some (g, _) => removeCommas g
  | None => "0"
  end.

Definition valueNum (value : string) : number := parseFloat (valueStr value).

(** [valueNum / priceInDollars] *)
Definition outcomeNum (avgPriceValue value : string) : number :=
  div (valueNum value) (priceInDollars avgPriceValue).

Definition calcOutcome (avgPriceValue value : string) : string :=
  if nonEmpty avgPriceValue && nonEmpty value then
    if gtZero (priceInDollars avgPriceValue)
       && negb (isNaN (valueNum value))
       && negb (isNaN (priceInDollars avgPriceValue))
    then toFixed2 (outcomeNum avgPriceValue value)
    else ""
  else "".

(** *** One record, and all of them *)

Definition extractPosition (cand : Candidate) : option Position :=
  match container cand with
  | None => None
  | Some c =>
      let marketName := linkName (link cand) in
      let marketUrl := resolveUrl (link cand) in
      if negb (nonEmpty marketUrl) then None
      else
        let avgPriceValue := extractAvgPrice c in
        let value := extractValue c in
        let outcome := calcOutcome avgPriceValue value in
        Some (mkPosition (orElse marketName "Unknown Market") marketUrl
                (orElse outcome "") (orElse avgPriceValue "") (orElse value ""))
  end.

(** [results] after the [forEach]. *)
Definition extractAll (candidates : list Candidate) : list Position :=
  omap extractPosition candidates.

(** The value the page script returns: [uniqueResults]. *)
Definition pageScript (candidates : list Candidate) : list Position :=
  Dedup.dedup (extractAll candidates).

(** The handler from the page script on, when nothing throws. *)
Definition GET (candidates : list Candidate) : Response.response :=
  Response.respond (pageScript candidates).

End Extract.

(** ** Absolute URLs

    The notion of the invariant of the records: a URL is absolute when it
    begins with a scheme, which is a letter followed by letters, digits,
    "+", "-" and ".", and a colon (RFC 3986, sections 3.1 and 4.3). *)

Module Url.
Import JsNumber.




End Url.

(** ** Concrete inputs used in the examples below *)

Module Inputs.
Import Pattern Dom Extract.

(** ["<n>¢"] *)
Definition cents (n : string) : string := n ++ String cent EmptyString.

(** A run of [n] nines: from 309 digits on a decimal literal is beyond
    the largest finite number. *)
Definition nines (n : nat) : string := String.concat "" (repeat "9" n).

(** [0.00...05] with [n] zeros after the point: with 322 of them a
    positive number whose hundredth rounds to zero. *)
Definition tiny (n : nat) : string :=
  "0." ++ String.concat "" (repeat "0" n) ++ "5".

Definition anchorX : Anchor :=
  mkAnchor "https://polymarket.com/event/x?tid=1" (Some "/event/x?tid=1")
    "Will X happen?" "Will X happen?".

(** [<tr><td><a>Will X happen?</a></td><td>45¢</td><td>avg: 50¢</td></tr>] *)
Definition rowNowAvg : node :=
  Element "TR"
    [ Element "TD" [Element "A" [Text "Will X happen?"]];
      Element "TD" [Text (cents "45")];
      Element "TD" [Text ("avg: " ++ cents "50")] ].

(** [<tr><td>Will X?</td><td>45¢ avg</td><td>$900</td><td>...</td></tr>] *)
Definition rowScenario : node :=
  Element "TR"
    [ Element "TD" [Text "Will X?"];
      Element "TD" [Text (cents "45" ++ " avg")];
      Element "TD" [Text "$900"];
      Element "TD" [Text "..."] ].


(** [<div><span>avg 1¢</span><span>$99...9</span></div>], 309 nines *)
Definition boxOverflow : node :=
  Element "DIV"
    [ Element "SPAN" [Text ("avg " ++ cents "1")];
      Element "SPAN" [Text ("$" ++ nines 309)] ].

Definition candidateScenario : Candidate := mkCandidate anchorX (Some rowScenario).
Definition candidateNowAvg : Candidate := mkCandidate anchorX (Some rowNowAvg).

(** The records the page script returns for them. *)
Definition recordScenario : Position :=
  mkPosition "Will X happen?" "https://polymarket.com/event/x?tid=1"
    "2000.00" (cents "45") "$900".


Definition recordNowAvg : Position :=
  mkPosition "Will X happen?" "https://polymarket.com/event/x?tid=1"
    "" (cents "45") "".




End Inputs.

(** ** The page of the application ([app/page.tsx])

    The first version of the page fetches up to three profiles and merges
    what the route answered for them; the objects merged are the records
    of the route. *)

Module Client.
Import Dedup.

(** The callback of [acc.find] in the merge of the profiles: the position
    [p] already listed has the key of [pos]. *)
Definition sameMarket (pos p : Position) : bool :=
  String.eqb (normalizeUrl (marketUrl p)) (normalizeUrl (marketUrl pos)).

(** One step of [allPositions.reduce]: [pos] is pushed unless [acc.find]
    finds a position of the same market. *)
Definition mergeStep (acc : list Position) (pos : Position) : list Position :=
  match List.find (sameMarket pos) acc with
  | Some _ => acc
  | None => acc ++ [pos]
  end.

(** [uniquePositions] of [fetchPositions] *)
Definition uniquePositions (allPositions : list Position) : list Position :=
  fold_left mergeStep allPositions [].

End Client.

(** ** Links and their containers (lines 177 to 249 of the page script)

    The script reads of a link its class names and [href], and of the
    elements above it, from [parentElement] upwards, the tag name, the
    [class] and [role] attributes, the market links inside and the number
    of children.  [Dom.node] holds no attributes, so an element above a
    link comes with the two attributes and the market links the script
    asks for.  The links are HTML anchors, as the cast of the script says
    ([className] is a string). *)

Module Locator.
Import Pattern Dom Extract.

Record Ancestor := mkAncestor {
  element : node;                 (* the element, with what is below it *)
  classAttribute : string;        (* [class], empty when missing *)
  role : option string;           (* [role] *)
  linksIn : list nat              (* querySelectorAll('a[href*="/event/"]') *)
}.

Definition tagName (a : Ancestor) : string :=
  match element a with
  | Element tag _ => tag
  | Text _ => EmptyString
  end.

(** [children.length]: the child nodes that are elements. *)
Definition childCount (a : Ancestor) : nat :=
  match element a with
  | Element _ childNodes =>
      length (List.filter
                (fun c => match c with Element _ _ => true | Text _ => false end)
                childNodes)
  | Text _ => 0
  end.

(** A link of the page: [ident] tells the anchors apart ([===] on
    elements), [ancestors] starts with [parentElement]. *)
Record Link := mkLink {
  ident : nat;
  className : string;
  anchor : Anchor;
  ancestors : list Ancestor
}.

(** The first filter, lines 182 to 189. *)
Definition isStyled (l : Link) : bool :=
  includes "flex-1" (className l)
  && includes "cursor-pointer" (className l)
  && includes "/event/" (href (anchor l)).

(** The second filter, lines 193 to 195. *)
Definition isEvent (l : Link) : bool :=
  nonEmpty (href (anchor l)) && includes "/event/" (href (anchor l)).

(** [marketLinks] *)
Definition selectLinks (allMarketLinks : list Link) : list Link :=
  let marketLinks := filter isStyled allMarketLinks in
  if (length marketLinks <? 5)%nat then filter isEvent allMarketLinks
  else marketLinks.

(** [link.closest(sel)]: an anchor matches none of the selectors of the
    script, so the search starts at its parent. *)
Definition closest (sel : Ancestor -> bool) (chain : list Ancestor)
  : option Ancestor :=
  List.find sel chain.

Definition isTr (a : Ancestor) : bool := String.eqb (tagName a) "TR".

(** [div[class*="part"]] *)
Definition isDivWithClass (part : string) (a : Ancestor) : bool :=
  String.eqb (tagName a) "DIV" && includes part (classAttribute a).

(** [div[role="row"]] *)
Definition isDivRow (a : Ancestor) : bool :=
  String.eqb (tagName a) "DIV"
  && match role a with Some r => String.eqb r "row" | None => false end.

(** [links.length === 1 && links[0] === link] *)
Definition onlyLink (link : nat) (a : Ancestor) : bool :=
  match linksIn a with
  | [x] => (x =? link)%nat
  | _ => false
  end.

(** [a || b] on elements or [null] *)
Definition orNull {A : Type} (a b : option A) : option A :=
  match a with Some _ => a | None => b end.

Definition strategy1 (link : nat) (chain : list Ancestor) : option Ancestor :=
  match closest isTr chain with
  | Some tr => if onlyLink link tr then Some tr else None
  | None => None
  end.

Definition strategy2 (link : nat) (chain : list Ancestor) : option Ancestor :=
  match orNull (closest (isDivWithClass "position") chain)
          (orNull (closest (isDivWithClass "row") chain)
             (closest isDivRow chain)) with
  | Some div => if onlyLink link div then Some div else None
  | None => None
  end.

(** The [while] loop of strategy 3, [levels] being [5 - depth]. *)
Fixpoint climb (link : nat) (chain : list Ancestor) (levels : nat)
  : option Ancestor :=
  match levels, chain with
  | S levels', current :: rest =>
      if onlyLink link current && (2 <? childCount current)%nat
      then Some current
      else climb link rest levels'
  | _, _ => None
  end.

Definition strategy3 (link : nat) (chain : list Ancestor) : option Ancestor :=
  climb link chain 5.

(** [link.parentElement?.parentElement || link.parentElement] *)
Definition strategy4 (chain : list Ancestor) : option Ancestor :=
  match chain with
  | _ :: grandparent :: _ => Some grandparent
  | [parent] => Some parent
  | [] => None
  end.

(** [container] at line 249 *)
Definition resolveContainer (link : nat) (chain : list Ancestor)
  : option Ancestor :=
  orNull (strategy1 link chain)
    (orNull (strategy2 link chain)
       (orNull (strategy3 link chain) (strategy4 chain))).

Definition candidate (l : Link) : Candidate :=
  mkCandidate (anchor l) (element <$> resolveContainer (ident l) (ancestors l)).

(** The whole of the page script, from the links of the document to
    [uniqueResults]. *)
Definition evaluate (allMarketLinks : list Link) : list Position :=
  pageScript (candidate <$> selectLinks allMarketLinks).

End Locator.

(** ** The handler and its effects (lines 15 to 116 and 496 to 534)

    A computation yields the calls it made, in order, and its value or
    the message of what it threw.  What every call to the browser gives
    is read from a [World]. *)

Module Handler.
Import Pattern Response.

Inductive result (A : Type) :=
| Ok (a : A)
| Throw (message : string).
Arguments Ok {A} a.
Arguments Throw {A} message.

Definition isOk {A : Type} (r : result A) : bool :=
  match r with Ok _ => true | Throw _ => false end.

(** [waitUntil] of [page.goto]; [Load] is the default. *)
Inductive waitUntil := DomContentLoaded | NetworkIdle | Load.

Inductive event :=
| Launch
| NewPage
| SetViewport
| SetUserAgent
| Goto (url : string) (w : waitUntil)
| Sleep (ms : Z)
| Title
| CountLinks
| WaitForSelector
| ScrollScript
| ExtractScript
| Close.

Definition M (A : Type) : Type := list event * result A.

#[local] Instance M_ret : MRet M := fun A a => ([], Ok a).

#[local] Instance M_bind : MBind M := fun A B f m =>
  match m with
  | (t, Ok a) => let '(t', r) := f a in ((t ++ t')%list, r)
  | (t, Throw message) => (t, Throw message)
  end.

Definition call {A : Type} (e : event) (r : result A) : M A := ([e], r).

Definition throw {A : Type} (message : string) : M A := ([], Throw message).

(** [await new Promise(resolve => setTimeout(resolve, ms))] *)
Definition sleep (ms : Z) : M unit := ([Sleep ms], Ok tt).

(** [try { m } catch (error) { h error.message }] *)
Definition catch {A : Type} (m : M A) (h : string -> M A) : M A :=
  match m with
  | (t, Throw message) => let '(t', r) := h message in ((t ++ t')%list, r)
  | (_, Ok _) => m
  end.

Record World := mkWorld {
  isUrl : string -> bool;                  (* [new URL(s)] does not throw *)
  launch : result unit;
  newPage : result unit;
  setViewport : result unit;
  setUserAgent : result unit;
  goto : waitUntil -> result unit;
  title : result string;
  url : string;                            (* [page.url()] *)
  linkCount : nat -> result nat;           (* by number of the attempt *)
  waitForSelector : result unit;
  scroll : result unit;
  linkCountBefore : result nat;
  links : result (list Locator.Link);      (* the document the script sees *)
  close : result unit;                     (* line 496 *)
  closeAgain : result unit                 (* line 519 *)
}.

Definition badRequest (message : string) : response :=
  mkResponse 400 (JObject [("error", JString message)]).

(** Lines 61 to 78 *)
Definition navigate (profileUrl : string) (w : World) : M unit :=
  catch (call (Goto profileUrl DomContentLoaded) (goto w DomContentLoaded))
    (fun _ =>
       catch (call (Goto profileUrl NetworkIdle) (goto w NetworkIdle))
         (fun _ =>
            call (Goto profileUrl Load) (goto w Load) ;; sleep 5000)).

(** Lines 93 to 105: [linksFound] after the loop, [remaining] being
    [5 - attempt]. *)
Fixpoint waitForLinks (w : World) (attempt remaining : nat) : M bool :=
  match remaining with
  | O => mret false
  | S remaining' =>
      count ← call CountLinks (linkCount w attempt);
      if (0 <? count)%nat then mret true
      else sleep 2000 ;; waitForLinks w (S attempt) remaining'
  end.

(** The [try] block of the handler. *)
Definition scrape (profileUrl : string) (w : World) : M response :=
  call Launch (launch w) ;;
  call NewPage (newPage w) ;;
  call SetViewport (setViewport w) ;;
  call SetUserAgent (setUserAgent w) ;;
  navigate profileUrl w ;;
  sleep 3000 ;;
  call Title (title w) ;;
  if negb (includes "polymarket.com" (url w))
  then throw "Invalid page: not a Polymarket URL"
  else
    linksFound ← waitForLinks w 0 5;
    (if negb linksFound
     then catch (call WaitForSelector (waitForSelector w)) (fun _ => mret tt)
     else mret tt) ;;
    call ScrollScript (scroll w) ;;
    sleep 2000 ;;
    call CountLinks (linkCountBefore w) ;;
    allMarketLinks ← call ExtractScript (links w);
    call Close (close w) ;;
    mret (respond (Locator.evaluate allMarketLinks)).

(** The [catch] block: the browser is closed when it was launched, and
    what that throws is dropped. *)
Definition recover (w : World) (message : string) : M response :=
  (if isOk (launch w)
   then catch (call Close (closeAgain w)) (fun _ => mret tt)
   else mret tt) ;;
  mret (failed message).

(** [GET(request)], for the value of [searchParams.get('profileUrl')]. *)
Definition GET (profileUrl : option string) (w : World) : M response :=
  match profileUrl with
  | None => mret (badRequest "profileUrl parameter is required")
  | Some u =>
      if negb (nonEmpty u)
      then mret (badRequest "profileUrl parameter is required")
      else if negb (isUrl w u) then mret (badRequest "Invalid URL format")
      else catch (scrape u w) (recover w)
  end.

Definition trace {A : Type} (m : M A) : list event := fst m.

Definition isClose (e : event) : bool :=
  match e with Close => true | _ => false end.

Definition isGoto (e : event) : bool :=
  match e with Goto _ _ => true | _ => false end.

Definition isSleep (e : event) : bool :=
  match e with Sleep _ => true | _ => false end.

(** Milliseconds the handler sleeps, the page scripts left out. *)
Definition slept (t : list event) : Z :=
  fold_right (fun e acc => match e with Sleep ms => (ms + acc)%Z | _ => acc end) 0%Z t.

(** Number of calls of [browser.close()]. *)
Definition closes (t : list event) : nat := length (filter isClose t).

(** [k] polls of the link count that found nothing, each followed by its
    pause. *)
Fixpoint polls (k : nat) : list event :=
  match k with
  | O => []
  | S k' => CountLinks :: Sleep 2000 :: polls k'
  end.

(** The browser starts and a page is set up. *)
Definition starts (w : World) : bool :=
  isOk (launch w) && isOk (newPage w)
  && isOk (setViewport w) && isOk (setUserAgent w).

(** One of the three attempts of [page.goto] succeeds. *)
Definition loads (w : World) : bool :=
  isOk (goto w DomContentLoaded) || isOk (goto w NetworkIdle)
  || isOk (goto w Load).

(** The request passes the two checks of lines 19 to 34. *)
Definition accepted (profileUrl : option string) (w : World) : bool :=
  match profileUrl with
  | Some u => nonEmpty u && isUrl w u
  | None => false
  end.

End Handler.

(** ** The global [parseFloat]

    [JsNumber.parseFloat] above reads the strings of the route, which hold
    digits and points only.  The page gives [parseFloat] what the user
    typed, so here is the whole of it, on strings of the Latin-1 range:
    leading white space is skipped, then the longest prefix that is a
    [StrDecimalLiteral] is converted. *)

Module JsFloat.
Import JsNumber Pattern.

Local Open Scope Z_scope.

Definition infinity : number := S754_infinity false.
Definition negInfinity : number := S754_infinity true.

(** [e] or [E] *)
Definition isExponentIndicator (c : ascii) : bool :=
  Ascii.eqb c "e" || Ascii.eqb c "E".

(** The value of the [ExponentPart] at the start of [s], 0 when there is
    none (an indicator and a sign without digits are no exponent). *)
Definition exponentAt (s : string) : Z :=
  match s with
  | String c s' =>
      if isExponentIndicator c then
        let '(negative, digits) :=
          match s' with
          | String "-" t => (true, fst (span isDigit t))
          | String "+" t => (false, fst (span isDigit t))
          | _ => (false, fst (span isDigit s'))
          end in
        match digits with
        | EmptyString => 0
        | _ => if negative then - digitsValue 0 digits else digitsValue 0 digits
        end
      else 0
  | EmptyString => 0
  end.

(** The number nearest to [n * 10^e10], for [0 <= n]. *)
Definition ofScientific (n e10 : Z) : number :=
  if e10 <=? 0 then ofDecimal n (Z.to_nat (- e10))
  else
    match n with
    | Zpos p =>
        SFdiv prec emax (S754_finite false (p * Z.to_pos (10 ^ e10)) 0)
          (S754_finite false 1 0)
    | _ => zero
    end.

(** The longest prefix of [s] that is a [StrUnsignedDecimalLiteral]:
    [Infinity], or digits with an optional fraction and exponent. *)
Definition unsignedLiteral (s : string) : number :=
  if startsWith "Infinity" s then infinity
  else
    let '(int, rest) := span isDigit s in
    let '(frac, rest') :=
      match rest with
      | String "." r => span isDigit r
      | _ => (EmptyString, rest)
      end in
    match (int ++ frac)%string with
    | EmptyString => S754_nan
    | ds =>
        ofScientific (digitsValue 0 ds)
          (exponentAt rest' - Z.of_nat (String.length frac))
    end.

(** [parseFloat(s)] *)
Definition parseFloat (s : string) : number :=
  match snd (span isSpace s) with
  | String "-" u => SFopp (unsignedLiteral u)
  | String "+" u => unsignedLiteral u
  | t => unsignedLiteral t
  end.

(** [x || 0] on numbers: [NaN] and the two zeros are falsy. *)
Definition orZero (x : number) : number :=
  match x with
  | S754_nan | S754_zero _ => zero
  | _ => x
  end.

(** [x <= y] *)
Definition leq (x y : number) : bool := SFleb x y.

End JsFloat.

(** ** The table of the page ([filteredAndSortedPositions] and the
    helpers around it)

    Both versions of the page hold these functions with the same body. *)

Module Page.
Import JsNumber Pattern.

(** [s.replace(/[class]/g, '')] *)
Fixpoint removeAll (class : ascii -> bool) (s : string) : string :=
  match s with
  | EmptyString => EmptyString
  | String c s' =>
      if class c then removeAll class s' else String c (removeAll class s')
  end.

(** [[¢,\s]], [[$,\s]] and [[^0-9.-]] *)
Definition isCentNoise (c : ascii) : bool :=
  Ascii.eqb c cent || Ascii.eqb c "," || isSpace c.
Definition isDollarNoise (c : ascii) : bool :=
  Ascii.eqb c "$" || Ascii.eqb c "," || isSpace c.
Definition isSortNoise (c : ascii) : bool :=
  negb (isDigit c || Ascii.eqb c "." || Ascii.eqb c "-").

Definition parseNumericValue (str : string) : number :=
  if negb (nonEmpty str) then zero
  else if includes (String cent EmptyString) str then
    let cleaned := removeAll isCentNoise str in
    JsFloat.orZero (div (JsFloat.parseFloat cleaned) (ofZ 100))
  else
    let cleaned := removeAll isDollarNoise str in
    JsFloat.orZero (JsFloat.parseFloat cleaned).

(** The key of the numeric sorts:
    [parseFloat(text.replace(/[^0-9.-]+/g, '')) || 0] *)
Definition sortKey (text : string) : number :=
  JsFloat.orZero (JsFloat.parseFloat (removeAll isSortNoise text)).

(** [text ? parseFloat(text) : unbounded] *)
Definition bound (text : string) (unbounded : number) : number :=
  if nonEmpty text then JsFloat.parseFloat text else unbounded.

(** [x >= min && x <= max] *)
Definition inRange (minText maxText : string) (x : number) : bool :=
  let min := bound minText JsFloat.negInfinity in
  let max := bound maxText JsFloat.infinity in
  JsFloat.leq min x && JsFloat.leq x max.

(** A range filter on the column [field]. *)
Definition rangeFilter (field : Position -> string) (minText maxText : string)
    (filtered : list Position) : list Position :=
  if nonEmpty minText || nonEmpty maxText then
    filter (fun pos => inRange minText maxText (parseNumericValue (field pos)))
      filtered
  else filtered.

(** A column filter on the column [field]. *)
Definition columnFilter (field : Position -> string) (text : string)
    (filtered : list Position) : list Position :=
  if nonEmpty text then
    filter (fun pos => includes (toLowerCase text) (toLowerCase (field pos)))
      filtered
  else filtered.




(** The update of [timeUntilRefresh] every second, [interval] being
    [refreshIntervalMinutes * 60] (a whole number of seconds for every
    option of the page): the new value, and whether the countdown started
    again (the first version of the page calls [fetchPositions] then). *)
Definition tick (interval prev : Z) : bool * Z :=
  if (prev <=? 1)%Z then (true, interval) else (false, (prev - 1)%Z).

(** [timeUntilRefresh] after [n] seconds. *)
Fixpoint countdown (interval : Z) (n : nat) : Z :=
  match n with
  | O => interval
  | S n' => snd (tick interval (countdown interval n'))
  end.

(** [n.toString()] on integers *)
Definition toString (n : Z) : string :=
  if (n <? 0)%Z then "-" ++ decimal (- n) else decimal n.

(** [s.padStart(2, '0')] *)
Definition padStart2 (s : string) : string :=
  if (String.length s <? 2)%nat
  then String.concat "" (repeat "0" (2 - String.length s)) ++ s
  else s.

Definition formatCountdown (seconds : Z) : string :=
  let mins := (seconds / 60)%Z in
  let secs := Z.rem seconds 60 in
  toString mins ++ ":" ++ padStart2 (toString secs).

(** [profileUrls.filter(url => url && url.trim())] and [slice(0, 3)] *)
Definition validUrls (profileUrls : list string) : list string :=
  filter (fun url => nonEmpty url && nonEmpty (trim url)) profileUrls.

Definition urlsToProcess (profileUrls : list string) : list string :=
  take 3 (validUrls profileUrls).

(** *** [fetchPositions] of the second version of the page

    What [fetch] gives: an answer, or a rejection by the abort of the
    timeout or by another error. *)
Inductive fetched :=
| Answered (r : Response.response)
| Aborted
| Rejected (message : string).

(** The two pieces of state [fetchPositions] sets. *)
Record view := mkView {
  positions : list Position;
  error : option string
}.

(** A field of a payload read as a string, empty when it is missing (the
    route sends strings in the fields the page reads). *)
Definition text (j : option Response.json) : string :=
  match j with
  | Some (Response.JString s) => s
  | _ => EmptyString
  end.

(** A record of [data.positions] as the table reads it. *)
Definition decodePosition (j : Response.json) : Position :=
  mkPosition (text (Response.field "marketName" j))
    (text (Response.field "marketUrl" j))
    (text (Response.field "outcome" j))
    (text (Response.field "avgPrice" j))
    (text (Response.field "value" j)).

(** [response.ok] *)
Definition ok (r : Response.response) : bool :=
  ((200 <=? Response.status r) && (Response.status r <=? 299))%Z.

Definition timeoutMessage : string :=
  "Request timeout. The scraping is taking longer than 5 minutes. This might happen with large profiles. Please try again or check if the profile URL is correct.".

Definition noPositionsMessage : string :=
  "No positions found. Make sure the URL includes ?tab=positions and the profile has active positions.".

(** The [catch] for an error that is not an abort. *)
Definition failure (message : string) : view :=
  mkView []
    (Some (orElse message
             "An error occurred while scraping. Please check the console for details.")).

Definition fetchPositions (profileUrl : string) (outcome : fetched)
    (before : view) : view :=
  if negb (nonEmpty profileUrl)
  then mkView (positions before) (Some "Please enter a profile URL")
  else
    match outcome with
    | Aborted => mkView [] (Some timeoutMessage)
    | Rejected message => failure message
    | Answered r =>
        let data := Response.payload r in
        if negb (ok r) then
          failure (orElse (text (Response.field "message" data))
                     (orElse (text (Response.field "error" data))
                        "Failed to scrape positions"))
        else
          match Response.field "positions" data with
          | Some (Response.JArray []) =>
              mkView []
                (Some (orElse (text (Response.field "message" data))
                         noPositionsMessage))
          | Some (Response.JArray l) => mkView (map decodePosition l) None
          | _ => mkView [] None
          end
    end.

End Page.

(** ** Worlds used in the examples below *)

Module Worlds.
Import Extract Locator Handler.

Definition profile : string := "https://polymarket.com/profile/x?tab=positions".

(** A market link in a table row that holds no other. *)
Definition linkX : Link :=
  mkLink 0 "link" Inputs.anchorX
    [mkAncestor Inputs.rowScenario "" None [0]].

(** Every call succeeds; [goto] and [linkCount] as given, the page at
    [pageUrl]. *)
Definition world (goto : waitUntil -> result unit) (pageUrl : string)
    (linkCount : nat -> result nat) : World :=
  mkWorld (String.eqb profile) (Ok tt) (Ok tt) (Ok tt) (Ok tt) goto
    (Ok "Polymarket") pageUrl linkCount (Throw "Waiting for selector failed")
    (Ok tt) (Ok 1%nat) (Ok [linkX]) (Ok tt) (Ok tt).

Definition calm : World := world (fun _ => Ok tt) profile (fun _ => Ok 1%nat).

(** The links show up at the third poll. *)
Definition slow : World :=
  world (fun _ => Ok tt) profile
    (fun attempt => Ok (if (attempt <? 2)%nat then 0%nat else 1%nat)).

(** No link ever shows up. *)
Definition bare : World := world (fun _ => Ok tt) profile (fun _ => Ok 0%nat).

(** The browser ends up on another site. *)
Definition offSite : World :=
  world (fun _ => Ok tt) "https://example.com/" (fun _ => Ok 1%nat).

(** No attempt of [page.goto] succeeds. *)
Definition unreachable : World :=
  world (fun wu =>
           match wu with
           | DomContentLoaded => Throw "Navigation timeout of 120000 ms exceeded"
           | NetworkIdle => Throw "Navigation timeout of 120000 ms exceeded"
           | Load => Throw "net::ERR_NAME_NOT_RESOLVED"
           end)
    profile (fun _ => Ok 1%nat).

End Worlds.

(** * Properties *)

(** ** Strings *)

Section StringFacts.
Import JsString.

Lemma toLowerChar_slash (c : ascii) :
  Ascii.eqb (toLowerChar c) "/" = Ascii.eqb c "/".
Proof.
  destruct c as [[] [] [] [] [] [] [] []]; vm_compute; reflexivity.
Qed.

Lemma toLowerCase_app (s t : string) :
  toLowerCase (s ++ t) = toLowerCase s ++ toLowerCase t.
Proof.
  induction s as [|c s IH]; simpl; [reflexivity|]. now rewrite IH.
Qed.

Lemma before_app (c : ascii) (s t : string) :
  before c (s ++ t) = if contains c s then before c s else s ++ before c t.
Proof.
  induction s as [|a s IH]; simpl; [reflexivity|].
  destruct (Ascii.eqb a c); simpl; [reflexivity|].
  rewrite IH. now destruct (contains c s).
Qed.

Lemma before_absent (c : ascii) (s : string) :
  contains c s = false -> before c s = s.
Proof.
  induction s as [|a s IH]; simpl; [reflexivity|].
  destruct (Ascii.eqb a c); simpl; [discriminate|]. intros H. now rewrite IH.
Qed.

Lemma append_empty (s : string) : s ++ "" = s.
Proof. induction s as [|a s IH]; simpl; [reflexivity|]. now rewrite IH. Qed.

Lemma before_stop (c : ascii) (s t : string) :
  before c (s ++ String c t) = before c s.
Proof.
  rewrite before_app. simpl. rewrite Ascii.eqb_refl.
  destruct (contains c s) eqn:E; [reflexivity|].
  now rewrite append_empty, before_absent.
Qed.

Lemma dropTrailingSlash_snoc (s : string) :
  dropTrailingSlash (s ++ "/") = s.
Proof.
  induction s as [|a s IH]; simpl; [reflexivity|].
  rewrite IH. destruct s; reflexivity.
Qed.

Lemma dropTrailingSlash_id (s : string) :
  endsWithChar "/" s = false -> dropTrailingSlash s = s.
Proof.
  induction s as [|a s IH]; simpl; [reflexivity|].
  destruct s as [|b s]; [intros ->; reflexivity|].
  intros H. now rewrite IH.
Qed.

Lemma endsWithChar_toLowerCase (s : string) :
  endsWithChar "/" (toLowerCase s) = endsWithChar "/" s.
Proof.
  induction s as [|a s IH]; simpl; [reflexivity|].
  destruct s as [|b s]; simpl in *; [apply toLowerChar_slash | exact IH].
Qed.

Lemma dropTrailingSlash_toLowerCase (s : string) :
  dropTrailingSlash (toLowerCase s) = toLowerCase (dropTrailingSlash s).
Proof.
  induction s as [|a s IH]; [reflexivity|].
  destruct s as [|b s].
  - simpl. rewrite toLowerChar_slash. now destruct (Ascii.eqb a "/").
  - change (toLowerCase (String a (String b s)))
      with (String (toLowerChar a) (toLowerCase (String b s))).
    change (dropTrailingSlash (String a (String b s)))
      with (String a (dropTrailingSlash (String b s))).
    change (toLowerCase (String a (dropTrailingSlash (String b s))))
      with (String (toLowerChar a) (toLowerCase (dropTrailingSlash (String b s)))).
    rewrite <- IH. reflexivity.
Qed.

End StringFacts.

(** ** Greedy runs *)

Section SpanFacts.
Import JsNumber.
Variable p : ascii -> bool.

Lemma span_spec (s a b : string) :
  span p s = (a, b) -> s = a ++ b /\ allb p a = true /\ stops p b = true.
Proof.
  revert a b. induction s as [|c s IH]; intros a b; simpl.
  - intros [= <- <-]. auto.
  - destruct (p c) eqn:Hc.
    + destruct (span p s) as [a' b']. intros [= <- <-].
      destruct (IH a' b' eq_refl) as (-> & Ha & Hb).
      simpl. rewrite Hc, Ha. auto.
    + intros [= <- <-]. simpl. rewrite Hc. auto.
Qed.

Lemma span_exact (a b : string) :
  allb p a = true -> stops p b = true -> span p (a ++ b) = (a, b).
Proof.
  induction a as [|c a IH]; simpl.
  - intros _ Hb. destruct b as [|c b]; [reflexivity|].
    simpl in *. now destruct (p c).
  - intros [Hc Ha]%andb_true_iff Hb. rewrite Hc, IH; auto.
Qed.

Lemma allb_app (a b : string) :
  allb p (a ++ b) = allb p a && allb p b.
Proof.
  induction a as [|c a IH]; simpl; [reflexivity|].
  now rewrite IH, andb_assoc.
Qed.

Lemma allb_substring (i j : nat) (s : string) :
  allb p s = true -> allb p (substring i j s) = true.
Proof.
  revert i j. induction s as [|c s IH]; intros i j H.
  - now destruct i, j.
  - simpl in H. apply andb_true_iff in H as [Hc Hs].
    destruct i as [|i]; simpl.
    + destruct j as [|j]; [reflexivity|]. simpl. now rewrite Hc, IH.
    + now apply IH.
Qed.

End SpanFacts.

Lemma length_substring (i j : nat) (s : string) :
  (i + j <= String.length s)%nat -> String.length (substring i j s) = j.
Proof.
  revert i j. induction s as [|c s IH]; intros i j H; simpl in H.
  - assert (i = 0%nat) as -> by lia. assert (j = 0%nat) as -> by lia. reflexivity.
  - destruct i as [|i]; simpl.
    + destruct j as [|j]; [reflexivity|]. simpl. rewrite IH; [reflexivity|lia].
    + apply IH. lia.
Qed.

Lemma length_append (a b : string) :
  String.length (a ++ b) = (String.length a + String.length b)%nat.
Proof. induction a as [|c a IH]; simpl; [reflexivity|]. now rewrite IH. Qed.

(** ** Numbers *)

Section NumberFacts.
Import JsNumber.

Lemma string_of_uint_digits (d : Decimal.uint) :
  allb isDigit (NilEmpty.string_of_uint d) = true.
Proof. induction d; simpl; auto. Qed.

Lemma decimal_digits (n : Z) : allb isDigit (decimal n) = true.
Proof.
  unfold decimal, NilZero.string_of_uint.
  destruct (N.to_uint (Z.to_N n)) eqn:E; try reflexivity;
    rewrite <- E; apply string_of_uint_digits.
Qed.

Lemma decimal_nonEmpty (n : Z) : (1 <= String.length (decimal n))%nat.
Proof.
  unfold decimal, NilZero.string_of_uint.
  destruct (N.to_uint (Z.to_N n)); simpl; lia.
Qed.

Lemma zeros_succ (j : nat) :
  String.concat "" (repeat "0" (S j))
  = String "0" (String.concat "" (repeat "0" j)).
Proof. destruct j; reflexivity. Qed.

Lemma zeros_digits (j : nat) :
  allb isDigit (String.concat "" (repeat "0" j)) = true
  /\ String.length (String.concat "" (repeat "0" j)) = j.
Proof.
  induction j as [|j [IH1 IH2]]; [split; reflexivity|].
  rewrite zeros_succ. simpl. now rewrite IH2.
Qed.

Lemma isFixed2_parts (a : string) (x y : ascii) :
  allb isDigit a = true -> (1 <= String.length a)%nat ->
  isDigit x = true -> isDigit y = true ->
  isFixed2 (a ++ "." ++ String x (String y "")) = true.
Proof.
  intros Ha Hl Hx Hy. unfold isFixed2.
  rewrite (span_exact isDigit a) by (auto; reflexivity).
  simpl. rewrite Hx, Hy. destruct a; [simpl in Hl; lia|reflexivity].
Qed.

Lemma fixed2_isFixed2 (n : Z) : isFixed2 (fixed2 n) = true.
Proof.
  unfold fixed2.
  set (m := if (String.length (decimal n) <=? 2)%nat
            then String.concat "" (repeat "0" (3 - String.length (decimal n)))
                 ++ decimal n
            else decimal n).
  assert (Hd : allb isDigit m = true).
  { subst m. destruct (String.length (decimal n) <=? 2)%nat.
    - rewrite allb_app, decimal_digits, (proj1 (zeros_digits _)). reflexivity.
    - apply decimal_digits. }
  assert (Hl : (3 <= String.length m)%nat).
  { subst m. destruct (String.length (decimal n) <=? 2)%nat eqn:E.
    - apply Nat.leb_le in E. rewrite length_append, (proj2 (zeros_digits _)). lia.
    - apply Nat.leb_gt in E. lia. }
  set (k := String.length m) in *.
  pose proof (allb_substring isDigit (k - 2) 2 m Hd) as Hb.
  pose proof (length_substring (k - 2) 2 m ltac:(lia)) as Lb.
  destruct (substring (k - 2) 2 m) as [|x [|y [|z b]]]; try discriminate Lb.
  simpl in Hb. apply andb_true_iff in Hb as [Hx Hy].
  apply andb_true_iff in Hy as [Hy _].
  apply isFixed2_parts; auto.
  - now apply allb_substring.
  - rewrite length_substring; lia.
Qed.

(** [nearestHundredth m e / 100] is within half a hundredth of [m * 2^e],
    and is the upper one of two candidates as near. *)
Lemma nearestHundredth_spec (m : positive) (e : Z) :
  let n := nearestHundredth m e in
  if (0 <=? e)%Z then n = (100 * Z.pos m * 2 ^ e)%Z
  else ((2 * n - 1) * 2 ^ (- e) <= 200 * Z.pos m < (2 * n + 1) * 2 ^ (- e))%Z.
Proof.
  unfold nearestHundredth. destruct (0 <=? e)%Z eqn:E; [reflexivity|].
  apply Z.leb_gt in E.
  assert (Hd : (0 < 2 ^ (- e))%Z) by (apply Z.pow_pos_nonneg; lia).
  set (d := (2 ^ (- e))%Z) in *.
  pose proof (Z.div_mod (200 * Z.pos m + d) (2 * d) ltac:(lia)) as Hdiv.
  pose proof (Z.mod_pos_bound (200 * Z.pos m + d) (2 * d) ltac:(lia)) as Hmod.
  cbv zeta. nia.
Qed.

Lemma binary_round_aux_sign (m e : Z) (l : location) :
  signOf (binary_round_aux prec emax false m e l) = false.
Proof.
  unfold binary_round_aux.
  destruct (shr_fexp prec emax m e l) as [mrs e'].
  destruct (shr_fexp prec emax _ e' loc_Exact) as [mrs' e''].
  destruct (shr_m mrs'); try reflexivity.
  now destruct (e'' <=? emax - prec)%Z.
Qed.

Lemma div_sign (x y : number) :
  signOf x = false -> signOf y = false -> signOf (div x y) = false.
Proof.
  unfold div.
  destruct x as [sx|sx| |sx mx ex], y as [sy|sy| |sy my ey];
    simpl; intros Hx Hy; subst; try reflexivity.
  destruct (SFdiv_core_binary prec emax (Z.pos mx) ex (Z.pos my) ey) as [[mz ez] lz].
  apply binary_round_aux_sign.
Qed.

Lemma ofDecimal_sign (n : Z) (k : nat) : signOf (ofDecimal n k) = false.
Proof.
  destruct n as [|q|q]; try reflexivity.
  apply (div_sign (S754_finite false q 0) (S754_finite false (pow10 k) 0));
    reflexivity.
Qed.

Lemma parseFloat_sign (s : string) : signOf (parseFloat s) = false.
Proof.
  unfold parseFloat. destruct (span isDigit s) as [int rest].
  destruct (int ++ _); [reflexivity|apply ofDecimal_sign].
Qed.

Lemma toFixed2_isFixed2 (x : number) :
  signOf x = false -> belowE21 x = true -> isFixed2 (toFixed2 x) = true.
Proof.
  destruct x as [s|s| |s m e]; simpl; try discriminate; [reflexivity|].
  intros -> H. apply negb_true_iff in H. rewrite H. simpl.
  apply fixed2_isFixed2.
Qed.

End NumberFacts.

(** ** Deduplication *)

Section DedupFacts.
Import Dedup.
Local Open Scope list_scope.
Variable key : Position -> string.

Lemma run_kept (results : list Position) (st : state) :
  uniqueResults (fold_left (step key) results st)
  = uniqueResults st ++ kept key (seenUrls st) results.
Proof.
  revert st. induction results as [|pos rest IH]; intros st; simpl.
  - now rewrite List.app_nil_r.
  - rewrite IH. unfold step. destruct (decide (key pos ∈ seenUrls st)); simpl.
    + reflexivity.
    + now rewrite <- List.app_assoc.
Qed.

Lemma dedupBy_kept (results : list Position) :
  dedupBy key results = kept key ∅ results.
Proof. unfold dedupBy, run. now rewrite run_kept. Qed.

Lemma kept_sublist (seen : gset string) (results : list Position) :
  kept key seen results `sublist_of` results.
Proof.
  revert seen. induction results as [|pos rest IH]; intros seen; simpl.
  - constructor.
  - destruct (decide (key pos ∈ seen)).
    + apply sublist_cons, IH.
    + apply sublist_skip, IH.
Qed.

Lemma kept_fresh (seen : gset string) (results : list Position) (p : Position) :
  p ∈ kept key seen results -> key p ∉ seen.
Proof.
  revert seen. induction results as [|pos rest IH]; intros seen; simpl.
  - intros H. inversion H.
  - destruct (decide (key pos ∈ seen)) as [Hin|Hout].
    + apply IH.
    + intros [->|H]%elem_of_cons; [exact Hout|].
      apply IH in H. rewrite not_elem_of_union in H. tauto.
Qed.

Lemma kept_NoDup (seen : gset string) (results : list Position) :
  NoDup (key <$> kept key seen results).
Proof.
  revert seen. induction results as [|pos rest IH]; intros seen; simpl.
  - constructor.
  - destruct (decide (key pos ∈ seen)); [apply IH|].
    rewrite fmap_cons. constructor; [|apply IH].
    intros (q & Hq & Hin)%list_elem_of_fmap.
    apply kept_fresh in Hin.
    rewrite not_elem_of_union, not_elem_of_singleton in Hin. intuition congruence.
Qed.

Lemma kept_first (seen : gset string) (results : list Position) (p : Position) :
  p ∈ kept key seen results <->
  exists l1 l2,
    results = l1 ++ p :: l2 /\ (key p ∉ seen) /\ (key p ∉ (key <$> l1)).
Proof.
  revert seen. induction results as [|pos rest IH]; intros seen; simpl.
  - split; [intros H; inversion H|].
    intros (l1 & l2 & H & _). now destruct l1.
  - destruct (decide (key pos ∈ seen)) as [Hin|Hout].
    + rewrite IH. split.
      * intros (l1 & l2 & -> & Hs & Hl). exists (pos :: l1), l2.
        split; [reflexivity|]. split; [exact Hs|].
        rewrite fmap_cons, not_elem_of_cons. split; [congruence|exact Hl].
      * intros (l1 & l2 & H & Hs & Hl). destruct l1 as [|x l1]; simpl in H.
        -- inversion H; subst. contradiction.
        -- inversion H; subst. exists l1, l2.
           rewrite fmap_cons, not_elem_of_cons in Hl. tauto.
    + rewrite elem_of_cons, IH. split.
      * intros [->|(l1 & l2 & -> & Hs & Hl)].
        -- exists [], rest. split; [reflexivity|]. split; [exact Hout|].
           rewrite fmap_nil. apply not_elem_of_nil.
        -- exists (pos :: l1), l2. split; [reflexivity|].
           rewrite not_elem_of_union, not_elem_of_singleton in Hs.
           split; [tauto|].
           rewrite fmap_cons, not_elem_of_cons. tauto.
      * intros (l1 & l2 & H & Hs & Hl). destruct l1 as [|x l1]; simpl in H.
        -- inversion H; subst. now left.
        -- inversion H; subst. right. exists l1, l2.
           rewrite fmap_cons, not_elem_of_cons in Hl.
           rewrite not_elem_of_union, not_elem_of_singleton. tauto.
Qed.

End DedupFacts.

Lemma dedup_records_sub (results : list Position) :
  Dedup.dedup results `sublist_of` results
  /\ (forall p : Position, Dedup.dedup [p] = [p]).
Proof.
  unfold Dedup.dedup. split.
  - rewrite dedupBy_kept. apply kept_sublist.
  - intros p. rewrite dedupBy_kept. simpl.
    now rewrite decide_False by apply not_elem_of_empty.
Qed.

Section DedupUrl.
Import Dedup.
Local Open Scope list_scope.

Lemma normalizeUrl_query (u q : string) :
  normalizeUrl (u ++ String "?" q) = normalizeUrl u.
Proof. unfold normalizeUrl. now rewrite before_stop. Qed.

Lemma normalizeUrl_parts (u q f : string) :
  isBase u = true -> isQuery q = true -> isFragment f = true ->
  normalizeUrl (u ++ q ++ f)%string = dropTrailingSlash (toLowerCase u).
Proof.
  unfold isBase, normalizeUrl. intros [Hq Hf]%andb_true_iff Q F.
  apply negb_true_iff in Hq, Hf.
  destruct q as [|c q]; simpl in Q.
  - simpl. destruct f as [|c f]; simpl in F.
    + now rewrite append_empty, (before_absent "?" u Hq), (before_absent "#" u Hf).
    + apply Ascii.eqb_eq in F as ->.
      rewrite before_app, Hq. simpl.
      now rewrite before_stop, (before_absent "#" u Hf).
  - apply Ascii.eqb_eq in Q as ->.
    simpl. now rewrite before_stop, (before_absent "?" u Hq), (before_absent "#" u Hf).
Qed.

Lemma dedup_pair_same_key (p1 p2 : Position) :
  dedupKey p1 = dedupKey p2 -> dedup [p1; p2] = [p1].
Proof.
  intros E. unfold dedup. rewrite dedupBy_kept. simpl.
  rewrite decide_False by apply not_elem_of_empty.
  rewrite decide_True; [reflexivity|].
  rewrite E. apply elem_of_union. left. now apply elem_of_singleton.
Qed.

End DedupUrl.

(** C3.  Whatever records come in, no two records that come out have
    market URLs with the same normalised key; the output is the input with
    records left out, in the same order; a record comes out exactly when it
    is the first of the input with its key; and two records whose URLs are
    the same base and fragment with different (or no) query strings come
    out as one record, the first. *)
Theorem dedup_keeps_first_per_key :
  (forall results : list Position,
      NoDup (Dedup.dedupKey <$> Dedup.dedup results)
      /\ Dedup.dedup results `sublist_of` results
      /\ (forall p : Position,
            p ∈ Dedup.dedup results <->
            exists l1 l2 : list Position,
              results = (l1 ++ p :: l2)%list
              /\ (Dedup.dedupKey p ∉ (Dedup.dedupKey <$> l1))))
  /\ (forall (p1 p2 : Position) (u q1 q2 f : string),
        Dedup.isBase u = true -> Dedup.isFragment f = true ->
        Dedup.isQuery q1 = true -> Dedup.isQuery q2 = true ->
        marketUrl p1 = u ++ q1 ++ f -> marketUrl p2 = u ++ q2 ++ f ->
        Dedup.dedup [p1; p2] = [p1]).
Proof.
  split.
  - intros results. unfold Dedup.dedup. rewrite dedupBy_kept.
    split; [apply kept_NoDup|]. split; [apply kept_sublist|].
    intros p. rewrite kept_first. split.
    + intros (l1 & l2 & H & _ & Hl). now exists l1, l2.
    + intros (l1 & l2 & H & Hl). exists l1, l2.
      split; [exact H|]. split; [apply not_elem_of_empty|exact Hl].
  - intros p1 p2 u q1 q2 f Hu Hf Hq1 Hq2 E1 E2.
    apply dedup_pair_same_key. unfold Dedup.dedupKey.
    rewrite E1, E2. now rewrite !normalizeUrl_parts.
Qed.

Lemma dedup_keeps_first_per_key_witness :
  Dedup.dedup
    [ mkPosition "A" "https://polymarket.com/event/x?tid=1#top" "" "" "";
      mkPosition "B" "https://polymarket.com/event/x?tid=2#top" "" "" "" ]
  = [ mkPosition "A" "https://polymarket.com/event/x?tid=1#top" "" "" "" ].
Proof.
  apply (proj2 dedup_keeps_first_per_key _ _
           "https://polymarket.com/event/x" "?tid=1" "?tid=2" "#top");
    reflexivity.
Defined.

(** C4.  The key is a function of the URL alone: the URL without its
    query string, without its fragment and without one trailing slash, in
    lower case.  For a URL [u] that does not end in a slash, [u] with a
    query string appended, [u] itself and [u] with a slash appended have the
    same key. *)
Theorem normalizeUrl_query_and_slash :
  (forall u : string,
      Dedup.normalizeUrl u
      = toLowerCase (dropTrailingSlash (before "#" (before "?" u))))
  /\ (forall u : string,
        endsWithChar "/" u = false ->
        Dedup.normalizeUrl (u ++ "?q=1") = Dedup.normalizeUrl u
        /\ Dedup.normalizeUrl u = Dedup.normalizeUrl (u ++ "/")).
Proof.
  split; [intros u; apply dropTrailingSlash_toLowerCase|].
  intros u Hu. split; [apply normalizeUrl_query|].
  unfold Dedup.normalizeUrl. rewrite (before_app "?" u "/").
  destruct (contains "?" u) eqn:Hq; [reflexivity|].
  rewrite (before_absent "?" u Hq). simpl (before "?" "/").
  rewrite (before_app "#" u "/").
  destruct (contains "#" u) eqn:Hf; [reflexivity|].
  rewrite (before_absent "#" u Hf). simpl (before "#" "/").
  rewrite toLowerCase_app. simpl (toLowerCase "/").
  change (String (toLowerChar "/") "") with "/".
  rewrite dropTrailingSlash_snoc, dropTrailingSlash_id; [reflexivity|].
  now rewrite endsWithChar_toLowerCase.
Qed.

Lemma normalizeUrl_query_and_slash_witness :
  Dedup.normalizeUrl ("https://Polymarket.com/Event/X" ++ "?q=1")
  = Dedup.normalizeUrl "https://Polymarket.com/Event/X"
  /\ Dedup.normalizeUrl "https://Polymarket.com/Event/X"
     = Dedup.normalizeUrl ("https://Polymarket.com/Event/X" ++ "/").
Proof.
  apply (proj2 normalizeUrl_query_and_slash "https://Polymarket.com/Event/X").
  reflexivity.
Defined.

(** C10.  Every record that comes out of the deduplication is one of the
    records that went in, unchanged in every field, so its [marketUrl] is
    the one it came with (query string, fragment, trailing slash and letter
    case included); the output is the input with records left out; and a
    single record always comes out as it is. *)
Theorem dedup_records_unchanged (results : list Position) :
  Forall (fun p => p ∈ results) (Dedup.dedup results)
  /\ Dedup.dedup results `sublist_of` results
  /\ (forall p : Position, Dedup.dedup [p] = [p]).
Proof.
  destruct (dedup_records_sub results) as [S One].
  split; [|split; [exact S|exact One]].
  apply Forall_forall. intros p Hp. exact (elem_of_sublist _ _ _ Hp S).
Qed.

(** ** The scroll loop *)

Section ScrollFacts.
Import Scroll.
Local Open Scope Z_scope.
Variable page : nat -> sample.

Lemma after_scrollCount (n : nat) : scrollCount (after page n) = Z.of_nat n.
Proof.
  induction n as [|n IH]; [reflexivity|].
  simpl. destruct (page n) as [h c]. simpl. lia.
Qed.

Lemma after_last (n : nat) :
  (lastHeight (after page n), lastLinkCount (after page n)) = previous page n.
Proof.
  destruct n as [|n]; [reflexivity|].
  simpl. now destruct (page n).
Qed.

Lemma after_stableCount (n : nat) :
  stableCount (after page (S n))
  = if unchanged page n then stableCount (after page n) + 1 else 0.
Proof.
  unfold unchanged. rewrite <- after_last. simpl.
  now destruct (page n) as [h c].
Qed.

Lemma after_stable_bounds (n : nat) :
  0 <= stableCount (after page n) <= Z.of_nat n.
Proof.
  induction n as [|n IH]; [simpl; lia|].
  rewrite after_stableCount. destruct (unchanged page n); lia.
Qed.

(** The counter is the number of samples, counted back from the last,
    that repeated the one before them. *)
Lemma after_stable_run (n c : nat) :
  stableCount (after page n) = Z.of_nat c ->
  (c <= n)%nat /\ forall j : nat, (n - c <= j < n)%nat -> unchanged page j = true.
Proof.
  revert c. induction n as [|n IH]; intros c.
  - simpl. intros H. split; [lia|]. intros j Hj. lia.
  - rewrite after_stableCount. destruct (unchanged page n) eqn:U.
    + intros H. destruct c as [|c]; [pose proof (after_stable_bounds n); lia|].
      destruct (IH c) as [Hc Hrun]; [lia|].
      split; [lia|]. intros j Hj.
      destruct (Nat.eq_dec j n) as [->|Hne]; [exact U|].
      apply Hrun. lia.
    + intros H. assert (c = 0%nat) as -> by lia.
      split; [lia|]. intros j Hj. lia.
Qed.

Lemma continue_bounds (st : state) :
  continue st = true <-> scrollCount st < maxScrolls /\ stableCount st < 3.
Proof. unfold continue. rewrite andb_true_iff, !Z.ltb_lt. tauto. Qed.

(** With enough fuel the loop started in the state reached after [i]
    iterations ends in the first later state whose loop condition is
    false. *)
Lemma loop_reaches (fuel i : nat) :
  (Z.to_nat maxScrolls - i <= fuel)%nat ->
  exists n : nat,
    (i <= n)%nat
    /\ loop fuel page i (after page i) = Some (after page n)
    /\ continue (after page n) = false
    /\ forall k : nat, (i <= k < n)%nat -> continue (after page k) = true.
Proof.
  revert i. induction fuel as [|fuel IH]; intros i Hfuel.
  - exists i. assert (C : continue (after page i) = false).
    { apply not_true_iff_false. rewrite continue_bounds, after_scrollCount.
      unfold maxScrolls in *. lia. }
    simpl. rewrite C. split; [lia|]. split; [reflexivity|]. split; [reflexivity|].
    intros k Hk. lia.
  - simpl. destruct (continue (after page i)) eqn:C.
    + destruct (IH (S i)) as (n & Hn & Hloop & Hstop & Hrun); [lia|].
      exists n. split; [lia|]. split; [exact Hloop|]. split; [exact Hstop|].
      intros k Hk. destruct (Nat.eq_dec k i) as [->|Hne]; [exact C|].
      apply Hrun. lia.
    + exists i. split; [lia|]. split; [reflexivity|]. split; [exact C|].
      intros k Hk. lia.
Qed.

End ScrollFacts.

(** C9.  Against any sequence of samples the scroll loop ends, within the
    50 iterations of [maxScrolls] and with the same final state for any
    larger bound on the steps.  The stability counter goes up by one on a
    sample whose height and link count both equal those of the sample
    before (the initial 0 and 0 for the first sample) and back to zero on
    any other.  The loop stops in the first state in which the counter is 3
    or 50 iterations are done: in every state before, the counter is below
    3 and the iteration count below 50; and a final counter of 3 means the
    last three samples each repeated the one before. *)
Theorem scroll_loop_stops (page : nat -> Scroll.sample) :
  exists (n : nat) (st : Scroll.state),
    Scroll.scroll page = Some st
    /\ (forall fuel : nat, (50 <= fuel)%nat ->
          Scroll.loop fuel page 0 Scroll.init = Some st)
    /\ st = Scroll.after page n
    /\ Scroll.scrollCount st = Z.of_nat n
    /\ (n <= 50)%nat
    /\ (Scroll.stableCount st = 3%Z \/ Scroll.scrollCount st = Scroll.maxScrolls)
    /\ (forall k : nat, (k < n)%nat ->
          (Scroll.stableCount (Scroll.after page k) < 3)%Z
          /\ (Scroll.scrollCount (Scroll.after page k) < Scroll.maxScrolls)%Z)
    /\ (forall k : nat,
          Scroll.stableCount (Scroll.after page (S k))
          = if Scroll.unchanged page k
            then (Scroll.stableCount (Scroll.after page k) + 1)%Z else 0%Z)
    /\ (Scroll.stableCount st = 3%Z ->
          (3 <= n)%nat
          /\ forall j : nat, (n - 3 <= j < n)%nat -> Scroll.unchanged page j = true).
Proof.
  destruct (loop_reaches page 50 0) as (n & _ & Hloop & Hstop & Hrun);
    [simpl; lia|].
  assert (Hbefore : forall k : nat, (k < n)%nat ->
            (Scroll.stableCount (Scroll.after page k) < 3)%Z
            /\ (Scroll.scrollCount (Scroll.after page k) < Scroll.maxScrolls)%Z).
  { intros k Hk. specialize (Hrun k). rewrite continue_bounds in Hrun.
    apply and_comm, Hrun. lia. }
  assert (Hn : (n <= 50)%nat).
  { destruct n as [|n]; [lia|].
    destruct (Hbefore n) as [_ H]; [lia|].
    rewrite after_scrollCount in H. unfold Scroll.maxScrolls in H. lia. }
  assert (Hend : Scroll.stableCount (Scroll.after page n) = 3%Z
                 \/ Scroll.scrollCount (Scroll.after page n) = Scroll.maxScrolls).
  { apply not_true_iff_false in Hstop. rewrite continue_bounds in Hstop.
    rewrite after_scrollCount in *. unfold Scroll.maxScrolls in *.
    destruct n as [|n]; [simpl in Hstop; lia|].
    destruct (Hbefore n) as [Hs _]; [lia|].
    rewrite after_stableCount in *.
    destruct (Scroll.unchanged page n); lia. }
  exists n, (Scroll.after page n).
  split; [exact Hloop|]. split.
  { intros fuel Hfuel.
    destruct (loop_reaches page fuel 0) as (m & _ & Hl & Hs & Hr); [simpl; lia|].
    change (Scroll.after page 0) with Scroll.init in Hl.
    rewrite Hl. f_equal.
    destruct (Nat.lt_trichotomy m n) as [Hlt|[->|Hgt]]; [|reflexivity|].
    - rewrite Hrun in Hs by lia. discriminate.
    - rewrite Hr in Hstop by lia. discriminate. }
  split; [reflexivity|]. split; [apply after_scrollCount|].
  split; [exact Hn|]. split; [exact Hend|]. split; [exact Hbefore|].
  split; [apply after_stableCount|].
  intros H3. apply (after_stable_run page n 3). exact H3.
Qed.

Lemma scroll_loop_stops_witness :
  exists (n : nat) (st : Scroll.state),
    Scroll.scroll (fun _ => (1200%Z, 7%Z)) = Some st
    /\ Scroll.scrollCount st = Z.of_nat n /\ (n <= 50)%nat.
Proof.
  destruct (scroll_loop_stops (fun _ => (1200%Z, 7%Z)))
    as (n & st & H1 & _ & _ & H4 & H5 & _).
  exists n, st. split; [exact H1|]. split; [exact H4|exact H5].
Defined.

(** ** The outcome *)

Section OutcomeFacts.
Import JsNumber Pattern Extract.

Lemma search_nonEmpty {A : Type} (at_ : string -> option A) (s : string) (r : A) :
  at_ "" = None -> search at_ s = Some r -> nonEmpty s = true.
Proof. intros H0 H. destruct s; [simpl in H; rewrite H0 in H; discriminate|reflexivity]. Qed.

Lemma gtZero_not_NaN (x : number) : gtZero x = true -> isNaN x = false.
Proof. now destruct x. Qed.

Lemma outcomeNum_sign (avgPriceValue value : string) :
  signOf (outcomeNum avgPriceValue value) = false.
Proof.
  unfold outcomeNum, priceInDollars, valueNum, priceInCents.
  apply div_sign; [apply parseFloat_sign|].
  apply div_sign; [|reflexivity].
  destruct (search numberAt avgPriceValue) as [[g r]|];
    [apply parseFloat_sign|reflexivity].
Qed.

(** The guards of the calculation: when they let a result through it
    is [toFixed(2)] of the quotient, and otherwise the outcome is empty. *)
Lemma calcOutcome_cases (avgPriceValue value : string) :
  calcOutcome avgPriceValue value =
    if nonEmpty avgPriceValue && nonEmpty value
       && gtZero (priceInDollars avgPriceValue) && negb (isNaN (valueNum value))
    then toFixed2 (outcomeNum avgPriceValue value) else "".
Proof.
  unfold calcOutcome.
  destruct (nonEmpty avgPriceValue && nonEmpty value); [|reflexivity].
  simpl. destruct (gtZero (priceInDollars avgPriceValue)) eqn:G; [|reflexivity].
  rewrite (gtZero_not_NaN _ G). simpl. now rewrite andb_true_r.
Qed.

(** The inputs for which the outcome stays empty. *)
Lemma calcOutcome_empty (avgPriceValue value : string) :
  avgPriceValue = "" \/ value = ""
  \/ search numberAt avgPriceValue = None
  \/ gtZero (priceInDollars avgPriceValue) = false
  \/ isNaN (valueNum value) = true ->
  calcOutcome avgPriceValue value = "".
Proof.
  rewrite calcOutcome_cases.
  intros [->|[->|[H|[H|H]]]]; try reflexivity.
  - now rewrite andb_false_r.
  - unfold priceInDollars, priceInCents. rewrite H.
    now destruct (nonEmpty avgPriceValue && nonEmpty value).
  - rewrite H. now rewrite andb_false_r.
  - rewrite H. now rewrite andb_false_r.
Qed.

Lemma toFixed2_nonEmpty (x : number) : nonEmpty (toFixed2 x) = true.
Proof.
  destruct x as [s|s| |s m e]; try reflexivity; [now destruct s|].
  simpl. destruct s; [reflexivity|]. simpl.
  destruct (atLeast1e21 m e).
  - unfold toStringIntegral.
    destruct (shortest m e _) as [d q].
    pose proof (decimal_nonEmpty d) as Hd.
    destruct (_ <=? 21)%nat.
    + destruct (decimal d); [simpl in Hd; lia|reflexivity].
    + destruct (decimal d) as [|c [|c' t]]; [simpl in Hd; lia|reflexivity..].
  - pose proof (fixed2_isFixed2 (nearestHundredth m e)) as H.
    now destruct (fixed2 _).
Qed.

(** The outcome for texts whose numbers parse and whose unit price is
    positive. *)
Lemma calcOutcome_quotient (avgPriceValue value g r h r' : string) :
  search numberAt avgPriceValue = Some (g, r) ->
  search amountAt value = Some (h, r') ->
  gtZero (div (parseFloat g) (ofZ 100)) = true ->
  isNaN (parseFloat (removeCommas h)) = false ->
  outcomeNum avgPriceValue value
  = div (parseFloat (removeCommas h)) (div (parseFloat g) (ofZ 100))
  /\ calcOutcome avgPriceValue value = toFixed2 (outcomeNum avgPriceValue value).
Proof.
  intros Hp Hv Hpos Hnan.
  assert (Eq : outcomeNum avgPriceValue value
               = div (parseFloat (removeCommas h)) (div (parseFloat g) (ofZ 100))).
  { unfold outcomeNum, valueNum, valueStr, priceInDollars, priceInCents.
    now rewrite Hp, Hv. }
  split; [exact Eq|].
  rewrite calcOutcome_cases.
  rewrite (search_nonEmpty _ _ _ eq_refl Hp), (search_nonEmpty _ _ _ eq_refl Hv).
  unfold valueNum, valueStr, priceInDollars, priceInCents.
  rewrite Hp, Hv. now rewrite Hpos, Hnan.
Qed.

End OutcomeFacts.

(** ** The patterns *)

Section PatternFacts.
Import JsNumber Pattern.

Lemma append_assoc (a b c : string) : (a ++ b) ++ c = a ++ (b ++ c).
Proof. induction a as [|x a IH]; simpl; [reflexivity|]. now rewrite IH. Qed.

Lemma search_some {A : Type} (at_ : string -> option A) (s : string) (r : A) :
  search at_ s = Some r -> exists t : string, at_ t = Some r.
Proof.
  induction s as [|c s IH]; simpl.
  - destruct (at_ "") eqn:E; [intros [= <-]; eauto|discriminate].
  - destruct (at_ (String c s)) eqn:E; [intros [= <-]; eauto|exact IH].
Qed.

Lemma allb_impl (p q : ascii -> bool) (s : string) :
  (forall c : ascii, p c = true -> q c = true) ->
  allb p s = true -> allb q s = true.
Proof.
  intros H. induction s as [|c s IH]; simpl; [reflexivity|].
  intros [Hc Hs]%andb_true_iff. now rewrite (H c Hc), IH.
Qed.

Lemma space_class (c : ascii) :
  isSpace c = true ->
  isDigit c = false /\ Ascii.eqb c "." = false /\ Ascii.eqb c cent = false.
Proof.
  destruct c as [[] [] [] [] [] [] [] []]; vm_compute;
    (discriminate || (intros _; repeat split; reflexivity)).
Qed.

Lemma run1_spec (p : ascii -> bool) (s r rest : string) :
  run1 p s = Some (r, rest) ->
  s = r ++ rest /\ allb p r = true /\ stops p rest = true /\ nonEmpty r = true.
Proof.
  unfold run1. destruct (span p s) as [a b] eqn:E.
  destruct (span_spec p s a b E) as (-> & Ha & Hb).
  destruct a; [discriminate|]. intros [= <- <-]. auto.
Qed.

Lemma run1_exact (p : ascii -> bool) (r rest : string) :
  allb p r = true -> stops p rest = true -> nonEmpty r = true ->
  run1 p (r ++ rest) = Some (r, rest).
Proof.
  intros Hr Hs Hn. unfold run1. rewrite span_exact by assumption.
  now destruct r.
Qed.

(** The shape of a capture of [decimalAt]: a run of the class, then
    nothing or a point and digits. *)
Lemma decimalAt_shape (first : ascii -> bool) (s g rest : string) :
  decimalAt first s = Some (g, rest) ->
  exists int frac : string,
    g = int ++ frac /\ allb first int = true /\ nonEmpty int = true
    /\ ((frac = "" /\ stops first rest = true
         /\ stops (fun c => Ascii.eqb c ".") rest = true)
        \/ (exists d : string,
              frac = String "." d /\ allb isDigit d = true
              /\ stops isDigit rest = true)).
Proof.
  unfold decimalAt. destruct (run1 first s) as [[int r1]|] eqn:R; [|discriminate].
  destruct (run1_spec _ _ _ _ R) as (_ & Hint & Hstop & Hne).
  unfold fractionAt.
  destruct r1 as [|c r1].
  - intros [= <- <-]. exists int, "". auto 10.
  - destruct (Ascii.eqb c ".") eqn:Ec.
    + apply Ascii.eqb_eq in Ec as ->.
      destruct (span isDigit r1) as [d r2] eqn:Ed.
      destruct (span_spec _ _ _ _ Ed) as (_ & Hd & Hr2).
      intros [= <- <-]. exists int, (String "." d).
      split; [reflexivity|]. split; [exact Hint|]. split; [exact Hne|].
      right. eauto.
    + assert (fractionAt_other :
        (match String c r1 with
         | String "." s' => let '(d, rest) := span isDigit s' in (String "." d, rest)
         | _ => (EmptyString, String c r1)
         end) = (EmptyString, String c r1)).
      { destruct c as [[] [] [] [] [] [] [] []]; try reflexivity. discriminate Ec. }
      rewrite fractionAt_other. intros [= <- <-]. exists int, "".
      split; [reflexivity|]. split; [exact Hint|]. split; [exact Hne|].
      left. split; [reflexivity|]. split; [exact Hstop|]. simpl. now rewrite Ec.
Qed.

(** A capture is matched again, whole, when followed by a text the
    pattern cannot go on into. *)
Lemma decimalAt_again (first : ascii -> bool) (s g rest t : string) :
  first "."%char = false ->
  decimalAt first s = Some (g, rest) ->
  stops first t = true -> stops isDigit t = true ->
  stops (fun c => Ascii.eqb c ".") t = true ->
  decimalAt first (g ++ t) = Some (g, t).
Proof.
  intros Hdot H Ht1 Ht2 Ht3.
  destruct (decimalAt_shape _ _ _ _ H)
    as (int & frac & -> & Hint & Hne & [(-> & _)|(d & -> & Hd & _)]).
  - rewrite append_empty. unfold decimalAt.
    rewrite run1_exact by assumption.
    destruct t as [|c t]; [simpl; now rewrite append_empty|].
    simpl in Ht3. apply negb_true_iff in Ht3.
    assert (E : fractionAt (String c t) = ("", String c t)).
    { destruct c as [[] [] [] [] [] [] [] []]; try reflexivity. discriminate Ht3. }
    now rewrite E, append_empty.
  - rewrite append_assoc. unfold decimalAt.
    rewrite run1_exact; [|assumption|simpl; now rewrite Hdot|assumption].
    simpl. now rewrite span_exact by assumption.
Qed.

Lemma stops_nil (p : ascii -> bool) : stops p "" = true.
Proof. reflexivity. Qed.

Lemma priceAt_shape (s whole num : string) :
  priceAt s = Some (whole, num) ->
  exists rest ws : string,
    numberAt s = Some (num, rest) /\ allb isSpace ws = true
    /\ whole = num ++ ws ++ String cent "".
Proof.
  unfold priceAt. destruct (numberAt s) as [[n rest]|] eqn:N; [|discriminate].
  destruct (span isSpace rest) as [ws r'] eqn:W.
  destruct (span_spec _ _ _ _ W) as (_ & Hws & _).
  destruct r' as [|c r']; [discriminate|].
  destruct (Ascii.eqb c cent); [|discriminate].
  intros [= <- <-]. eauto.
Qed.

Lemma priceAt_build (s num rest ws : string) :
  numberAt s = Some (num, rest) -> allb isSpace ws = true ->
  priceAt (num ++ ws ++ String cent "") = Some (num ++ ws ++ String cent "", num).
Proof.
  intros N Hws. unfold priceAt.
  assert (St : stops isDigit (ws ++ String cent "") = true
               /\ stops (fun c => Ascii.eqb c ".") (ws ++ String cent "") = true).
  { destruct ws as [|c ws]; [split; reflexivity|].
    simpl in Hws. apply andb_true_iff in Hws as [Hc _].
    destruct (space_class c Hc) as (H1 & H2 & _). simpl. now rewrite H1, H2. }
  unfold numberAt in *.
  rewrite (decimalAt_again isDigit s num rest _ eq_refl N) by tauto.
  rewrite (span_exact isSpace ws (String cent "") Hws eq_refl).
  now rewrite Ascii.eqb_refl.
Qed.

Lemma priceAt_isPriceText (s whole num : string) :
  priceAt s = Some (whole, num) ->
  isPriceText whole = true /\ isPriceText (num ++ String cent "") = true.
Proof.
  intros H. destruct (priceAt_shape _ _ _ H) as (rest & ws & N & Hws & ->).
  unfold isPriceText. split.
  - rewrite (priceAt_build _ _ _ _ N Hws). apply String.eqb_refl.
  - pose proof (priceAt_build _ _ _ "" N eq_refl) as E. simpl in E.
    rewrite E. apply String.eqb_refl.
Qed.

Lemma amountAt_isDollarText (s g rest : string) :
  amountAt s = Some (g, rest) -> isDollarText (String "$" g) = true.
Proof.
  intros H. unfold isDollarText, dollarAt.
  pose proof (decimalAt_again isDigitOrComma s g rest "" eq_refl H
                eq_refl eq_refl eq_refl) as E.
  rewrite append_empty in E. unfold amountAt. rewrite E. apply String.eqb_refl.
Qed.

Lemma dollarAt_isDollarText (s whole : string) :
  dollarAt s = Some whole -> isDollarText whole = true.
Proof.
  unfold dollarAt. destruct s as [|c s]; [discriminate|].
  destruct (Ascii.eqb c "$") eqn:Ec.
  - apply Ascii.eqb_eq in Ec as ->.
    destruct (amountAt s) as [[g r]|] eqn:A; [|discriminate].
    intros [= <-]. exact (amountAt_isDollarText _ _ _ A).
  - destruct c as [[] [] [] [] [] [] [] []]; discriminate.
Qed.

End PatternFacts.

Section CleanupFacts.
Import JsNumber Pattern Extract.

Lemma dollarAt_chars (s whole : string) :
  dollarAt s = Some whole -> allb isAmountChar whole = true.
Proof.
  unfold dollarAt. destruct s as [|c s]; [discriminate|].
  destruct (Ascii.eqb c "$") eqn:Ec;
    [|destruct c as [[] [] [] [] [] [] [] []]; discriminate].
  apply Ascii.eqb_eq in Ec as ->.
  destruct (amountAt s) as [[g r]|] eqn:A; [|discriminate].
  intros [= <-].
  destruct (decimalAt_shape _ _ _ _ A) as (int & frac & -> & Hint & _ & Hfrac).
  simpl. rewrite allb_app.
  rewrite (allb_impl isDigitOrComma isAmountChar int); [|intros c H|exact Hint].
  2:{ unfold isAmountChar. now rewrite H. }
  destruct Hfrac as [(-> & _)|(d & -> & Hd & _)]; [reflexivity|].
  simpl. apply (allb_impl isDigit isAmountChar); [|exact Hd].
  intros c H. unfold isAmountChar, isDigitOrComma. now rewrite H.
Qed.

Lemma removeLabel_absent (a : ascii) (lit s : string) :
  allb (fun c => negb (Ascii.eqb (canonicalize a) (canonicalize c))) s = true ->
  removeLabel (String a lit) s = s.
Proof.
  induction s as [|c s IH]; [reflexivity|].
  simpl. intros [Hc Hs]%andb_true_iff. apply negb_true_iff in Hc.
  rewrite Hc. now rewrite IH.
Qed.

Lemma amountChar_no_label (c : ascii) :
  isAmountChar c = true ->
  negb (Ascii.eqb (canonicalize "v") (canonicalize c)) = true
  /\ negb (Ascii.eqb (canonicalize "P") (canonicalize c)) = true
  /\ negb (Ascii.eqb (canonicalize "p") (canonicalize c)) = true
  /\ negb (Ascii.eqb (canonicalize "l") (canonicalize c)) = true
  /\ negb (isSpace c) = true.
Proof.
  destruct c as [[] [] [] [] [] [] [] []]; vm_compute;
    (discriminate || (intros _; repeat split; reflexivity)).
Qed.

Lemma trimEnd_nospace (s : string) :
  allb (fun c => negb (isSpace c)) s = true -> trimEnd s = s.
Proof.
  induction s as [|c s IH]; [reflexivity|].
  simpl. intros [Hc Hs]%andb_true_iff. apply negb_true_iff in Hc.
  rewrite (IH Hs), Hc. now destruct s.
Qed.

Lemma trim_nospace (s : string) :
  allb (fun c => negb (isSpace c)) s = true -> trim s = s.
Proof.
  intros H. unfold trim.
  assert (E : span isSpace s = ("", s)).
  { destruct s as [|c s]; [reflexivity|]. simpl in *.
    apply andb_true_iff in H as [Hc _]. apply negb_true_iff in Hc. now rewrite Hc. }
  rewrite E. now apply trimEnd_nospace.
Qed.

Lemma stripLabels_amount (w : string) :
  allb isAmountChar w = true -> stripLabels w = w.
Proof.
  intros H. unfold stripLabels.
  rewrite (removeLabel_absent "v" "alue" w)
    by (revert H; apply allb_impl; intros c Hc; apply (amountChar_no_label c Hc)).
  rewrite (removeLabel_absent "P" "nL" w)
    by (revert H; apply allb_impl; intros c Hc; apply (amountChar_no_label c Hc)).
  rewrite (removeLabel_absent "p" "rofit" w)
    by (revert H; apply allb_impl; intros c Hc; apply (amountChar_no_label c Hc)).
  rewrite (removeLabel_absent "l" "oss" w)
    by (revert H; apply allb_impl; intros c Hc; apply (amountChar_no_label c Hc)).
  apply trim_nospace. revert H. apply allb_impl.
  intros c Hc. apply (amountChar_no_label c Hc).
Qed.

Lemma decimalAt_chars (first : ascii -> bool) (k : ascii -> bool) (s g rest : string) :
  (forall c : ascii, first c = true -> k c = true) ->
  (forall c : ascii, isDecimalChar c = true -> k c = true) ->
  decimalAt first s = Some (g, rest) -> allb k g = true.
Proof.
  intros Hf Hk H.
  destruct (decimalAt_shape _ _ _ _ H) as (int & frac & -> & Hint & _ & Hfrac).
  rewrite allb_app, (allb_impl first k int Hf Hint).
  destruct Hfrac as [(-> & _)|(d & -> & Hd & _)]; [reflexivity|].
  simpl. rewrite (Hk "."%char eq_refl). simpl.
  apply (allb_impl isDigit k); [|exact Hd].
  intros c Hc. apply Hk. unfold isDecimalChar. now rewrite Hc.
Qed.

Lemma removeCommas_chars (s : string) :
  allb (fun c => isDecimalChar c || Ascii.eqb c ",") s = true ->
  allb isDecimalChar (removeCommas s) = true.
Proof.
  induction s as [|c s IH]; [reflexivity|].
  simpl. intros [Hc Hs]%andb_true_iff.
  destruct (Ascii.eqb c ",") eqn:E; [now apply IH|].
  simpl. rewrite orb_false_r in Hc. now rewrite Hc, IH.
Qed.

(** The two strings the outcome calculation gives to [parseFloat] hold
    digits and points only. *)
Lemma parseFloat_arguments (avgPriceValue value g r : string) :
  (search numberAt avgPriceValue = Some (g, r) -> allb isDecimalChar g = true)
  /\ allb isDecimalChar (valueStr value) = true.
Proof.
  split.
  - intros H. destruct (search_some _ _ _ H) as (t & Ht).
    apply (decimalAt_chars isDigit isDecimalChar t g r); auto.
    intros c Hc. unfold isDecimalChar. now rewrite Hc.
  - unfold valueStr. destruct (search amountAt value) as [[h r']|] eqn:H; [|reflexivity].
    destruct (search_some _ _ _ H) as (t & Ht).
    apply removeCommas_chars.
    apply (decimalAt_chars isDigitOrComma _ t h r').
    + intros c Hc. unfold isDigitOrComma in Hc. unfold isDecimalChar.
      apply orb_true_iff in Hc as [Hc|Hc]; rewrite Hc; now rewrite ?orb_true_r.
    + intros c Hc. now rewrite Hc.
    + exact Ht.
Qed.

End CleanupFacts.

(** ** The field cascades *)

Section ExtractFacts.
Import JsNumber Pattern Dom Extract.
Local Open Scope list_scope.

Lemma firstMatch_some (patterns : list (string -> option string)) (t r : string) :
  firstMatch patterns t = Some r ->
  exists pat : string -> option string, In pat patterns /\ pat t = Some r.
Proof.
  induction patterns as [|pat rest IH]; simpl; [discriminate|].
  destruct (pat t) eqn:E.
  - intros [= <-]. eauto.
  - intros H. destruct (IH H) as (q & Hq & Hr). eauto.
Qed.

Lemma matchPrice_text (t whole num : string) :
  matchPrice t = Some (whole, num) ->
  isPriceText whole = true /\ isPriceText (num ++ String cent "")%string = true.
Proof.
  intros H. destruct (search_some _ _ _ H) as (t' & Ht').
  exact (priceAt_isPriceText _ _ _ Ht').
Qed.

Lemma labelledPrice_text (lit : string) (sep : ascii -> bool) (t num : string) :
  search (labelledPriceAt lit sep) t = Some num ->
  isPriceText (num ++ String cent "")%string = true.
Proof.
  intros H. destruct (search_some _ _ _ H) as (t' & Ht').
  unfold labelledPriceAt in Ht'.
  destruct (literalAt lit t') as [r|]; [|discriminate].
  destruct (run1 sep r) as [[seps r']|]; [|discriminate].
  destruct (priceAt r') as [[w n]|] eqn:P; [|discriminate].
  simpl in Ht'. injection Ht' as <-.
  exact (proj2 (priceAt_isPriceText _ _ _ P)).
Qed.

Lemma avgPatterns_text (patterns : list (string -> option string)) (t num : string) :
  (forall pat, In pat patterns -> pat = matchAt \/ pat = matchAvg \/ pat = matchAverage) ->
  firstMatch patterns t = Some num ->
  isPriceText (num ++ String cent "")%string = true.
Proof.
  intros Hp H. destruct (firstMatch_some _ _ _ H) as (pat & Hin & Hr).
  destruct (Hp pat Hin) as [-> | [-> | ->]]; exact (labelledPrice_text _ _ _ _ Hr).
Qed.

Lemma avgFromCells_text (cells : list node) (v : string) :
  avgFromCells cells = Some v -> isPriceText v = true.
Proof.
  induction cells as [|cell rest IH]; simpl; [discriminate|].
  destruct (mentionsAvg _); [|exact IH].
  destruct (matchPrice _) as [[w n]|] eqn:M; [|exact IH].
  intros [= <-]. exact (proj1 (matchPrice_text _ _ _ M)).
Qed.

Lemma avgFromElements_text (els : list (node * node)) (v : string) :
  avgFromElements els = Some v -> isPriceText v = true.
Proof.
  induction els as [|[el parent] rest IH]; simpl; [discriminate|].
  destruct (matchPrice _) as [[w n]|] eqn:M; [|exact IH].
  destruct (isAvg _); [|exact IH].
  intros [= <-]. exact (proj1 (matchPrice_text _ _ _ M)).
Qed.

Lemma avgFromText_text (t v : string) :
  avgFromText t = Some v -> isPriceText v = true.
Proof.
  unfold avgFromText.
  destruct (firstMatch _ t) as [num|] eqn:F; [|discriminate].
  simpl. intros [= <-]. apply (avgPatterns_text _ t num) in F; [exact F|].
  intros pat [<- | [<- | [<- | []]]]; auto.
Qed.

(** The priced quantity is empty or one price, as in "45¢". *)
Lemma extractAvgPrice_text (c : node) :
  extractAvgPrice c = "" \/ isPriceText (extractAvgPrice c) = true.
Proof.
  assert (H0 : avgAfter0 c = "" \/ isPriceText (avgAfter0 c) = true).
  { unfold avgAfter0. destruct (_ && _); [|now left].
    destruct (avgFromCells _) as [v|] eqn:E; [|now left].
    right. exact (avgFromCells_text _ _ E). }
  assert (H2 : avgAfter2 c = "" \/ isPriceText (avgAfter2 c) = true).
  { unfold avgAfter2. destruct (avgFromElements _) as [v|] eqn:E; [|exact H0].
    right. exact (avgFromElements_text _ _ E). }
  assert (H3 : avgAfter3 c = "" \/ isPriceText (avgAfter3 c) = true).
  { unfold avgAfter3. destruct (negb _); [|exact H2].
    destruct (avgFromText _) as [v|] eqn:E; [|exact H2].
    right. exact (avgFromText_text _ _ E). }
  unfold extractAvgPrice. destruct (negb _ && _) eqn:G; [|exact H3].
  right. unfold earlyAvgPrice in *.
  destruct (firstMatch _ (textContent c)) as [num|] eqn:F.
  - apply (avgPatterns_text _ _ num) in F; [exact F|].
    intros pat [<- | [<- | [<- | []]]]; auto.
  - simpl in G. now rewrite andb_false_r in G.
Qed.

Lemma matchDollar_text (t m : string) :
  matchDollar t = Some m ->
  isDollarText m = true /\ allb isAmountChar m = true.
Proof.
  intros H. destruct (search_some _ _ _ H) as (t' & Ht').
  split; [exact (dollarAt_isDollarText _ _ Ht')|exact (dollarAt_chars _ _ Ht')].
Qed.

Lemma valueFromCells_text (cells : list node) (v0 : string) :
  v0 = "" \/ isDollarText v0 = true ->
  valueFromCells cells v0 = "" \/ isDollarText (valueFromCells cells v0) = true.
Proof.
  revert v0. induction cells as [|cell rest IH]; intros v0 H0; simpl; [exact H0|].
  destruct (matchDollar _) as [m|] eqn:M; [|now apply IH].
  pose proof (proj1 (matchDollar_text _ _ M)) as Hm.
  destruct (mentionsValue _); [now right|].
  destruct (negb (nonEmpty v0)); apply IH; auto.
Qed.

Lemma valueFromElements_text (els : list (node * node)) (v0 : string) :
  v0 = "" \/ isDollarText v0 = true ->
  valueFromElements els v0 = ""
  \/ isDollarText (valueFromElements els v0) = true.
Proof.
  revert v0. induction els as [|[el parent] rest IH]; intros v0 H0; simpl;
    [exact H0|].
  destruct (matchDollar _) as [m|] eqn:M; [|now apply IH].
  pose proof (proj1 (matchDollar_text _ _ M)) as Hm.
  destruct (mentionsValue _); [now right|].
  destruct (negb (nonEmpty v0)); apply IH; auto.
Qed.

Lemma labelled_text (lit t v : string) :
  labelled lit t = Some v -> isDollarText v = true.
Proof.
  unfold labelled, matchLabelledAmount.
  destruct (search _ t) as [g|] eqn:S; [|discriminate].
  simpl. intros [= <-].
  destruct (search_some _ _ _ S) as (t' & Ht'). unfold labelledAmountAt in Ht'.
  destruct (literalAt lit t') as [r|]; [|discriminate].
  destruct (run1 isColonOrSpace r) as [[seps r']|]; [|discriminate].
  assert (A : exists u rest, amountAt u = Some (g, rest)).
  { destruct r' as [|x r''].
    - discriminate Ht'.
    - destruct (Ascii.eqb x "$") eqn:Ex.
      + apply Ascii.eqb_eq in Ex as ->.
        destruct (amountAt r'') as [[g' rest]|] eqn:A; [|discriminate].
        simpl in Ht'. injection Ht' as <-. eauto.
      + assert (E : fst <$> amountAt (String x r'') = Some g).
        { destruct x as [[] [] [] [] [] [] [] []]; try exact Ht'. discriminate Ex. }
        destruct (amountAt (String x r'')) as [[g' rest]|] eqn:A; [|discriminate].
        simpl in E. injection E as <-. eauto. }
  destruct A as (u & rest & A). exact (amountAt_isDollarText _ _ _ A).
Qed.

Lemma valueFromText_text (t v : string) :
  valueFromText t = Some v -> isDollarText v = true.
Proof.
  unfold valueFromText. intros H.
  destruct (firstMatch_some _ _ _ H) as (pat & Hin & Hr).
  simpl in Hin. destruct Hin as [<- | [<- | [<- | [<- | [<- | []]]]]];
    try exact (labelled_text _ _ _ Hr).
  destruct (matchDollar t) as [m|] eqn:M; [|discriminate].
  simpl in Hr. injection Hr as <-.
  destruct (matchDollar_text _ _ M) as [Hm Hc].
  now rewrite (stripLabels_amount m Hc).
Qed.

(** The monetary value is empty or one dollar amount, as in "$5,423". *)
Lemma extractValue_text (c : node) :
  extractValue c = "" \/ isDollarText (extractValue c) = true.
Proof.
  assert (H0 : valueAfter0 c = "" \/ isDollarText (valueAfter0 c) = true).
  { unfold valueAfter0. destruct (_ && _); [|now left].
    apply valueFromCells_text. now left. }
  assert (H1 : valueAfter1 c = "" \/ isDollarText (valueAfter1 c) = true).
  { unfold valueAfter1. now apply valueFromElements_text. }
  unfold extractValue. destruct (negb _); [|exact H1].
  destruct (valueFromText _) as [v|] eqn:E; [|exact H1].
  right. exact (valueFromText_text _ _ E).
Qed.

Lemma orElse_empty (s : string) : orElse s "" = s.
Proof. now destruct s. Qed.

Lemma nonEmpty_ne (s : string) : nonEmpty s = true <-> s <> "".
Proof. destruct s; simpl; split; congruence. Qed.

(** What a record is made of. *)
Lemma extractPosition_fields (cand : Candidate) (pos : Position) :
  extractPosition cand = Some pos ->
  exists c : node,
    container cand = Some c
    /\ marketUrl pos = resolveUrl (link cand)
    /\ nonEmpty (marketUrl pos) = true
    /\ avgPrice pos = extractAvgPrice c
    /\ value pos = extractValue c
    /\ outcome pos = calcOutcome (avgPrice pos) (value pos).
Proof.
  unfold extractPosition. destruct (container cand) as [c|]; [|discriminate].
  destruct (nonEmpty (resolveUrl (link cand))) eqn:U; [|discriminate].
  simpl. intros [= <-]. exists c. simpl. rewrite !orElse_empty. auto 10.
Qed.

Lemma pageScript_elem (candidates : list Candidate) (pos : Position) :
  pos ∈ pageScript candidates ->
  exists cand : Candidate, cand ∈ candidates /\ extractPosition cand = Some pos.
Proof.
  intros H. unfold pageScript in H.
  destruct (dedup_records_sub (extractAll candidates)) as [S _].
  apply (elem_of_sublist _ _ _ H) in S.
  unfold extractAll in S. now apply list_elem_of_omap in S.
Qed.


End ExtractFacts.

Section CascadeFacts.
Import Extract Inputs.

Lemma pageScript_scenario : pageScript [candidateScenario] = [recordScenario].
Proof. vm_compute. reflexivity. Qed.


Lemma pageScript_nowAvg : pageScript [candidateNowAvg] = [recordNowAvg].
Proof. vm_compute. reflexivity. Qed.

(** The priced quantity as the script computes it: a price the element
    scan finds in an average context, else the one of the table cells,
    else the one of the labelled patterns over the whole text. *)
Lemma extractAvgPrice_order (c : Dom.node) :
  extractAvgPrice c =
    match avgFromElements (priceElements c) with
    | Some v => v
    | None =>
        match avgAfter0 c with
        | String a v => String a v
        | EmptyString =>
            match avgFromText (Dom.textContent c) with
            | Some v => v
            | None => ""
            end
        end
    end.
Proof.
  unfold extractAvgPrice, avgAfter3, avgAfter2.
  assert (T : forall t, avgFromText t = None -> earlyAvgPrice t = "").
  { intros t. unfold avgFromText, earlyAvgPrice. simpl.
    destruct (Pattern.matchAvg t); [discriminate|].
    destruct (Pattern.matchAverage t); [discriminate|].
    destruct (Pattern.matchAt t); [discriminate|reflexivity]. }
  assert (P : forall v, Pattern.isPriceText v = true -> nonEmpty v = true).
  { intros v. now destruct v. }
  destruct (avgFromElements (priceElements c)) as [v|] eqn:E.
  - pose proof (P v (avgFromElements_text _ _ E)) as Hv.
    rewrite Hv. cbn [negb]. now rewrite Hv.
  - destruct (avgAfter0 c) as [|a v]; [|reflexivity].
    cbn [nonEmpty negb]. destruct (avgFromText (Dom.textContent c)) as [v|] eqn:F.
    + pose proof (P v (avgFromText_text _ _ F)) as Hv. now rewrite Hv.
    + now rewrite (T _ F).
Qed.

End CascadeFacts.

(** With the price "100¢" and the value "$1000000000000000000000" both
    texts parse, the price is positive, and the outcome is "1e+21"; with
    the price 0.00...05¢ (322 zeros), a positive number of cents, the unit
    price is zero and the outcome is empty. *)
Lemma outcome_two_decimals_counterexample :
  (Extract.priceInCents (Inputs.cents "100") = JsNumber.ofZ 100
   /\ JsNumber.gtZero (Extract.priceInCents (Inputs.cents "100")) = true
   /\ JsNumber.isNaN (Extract.valueNum "$1000000000000000000000") = false
   /\ Extract.calcOutcome (Inputs.cents "100") "$1000000000000000000000" = "1e+21"
   /\ JsNumber.isFixed2
        (Extract.calcOutcome (Inputs.cents "100") "$1000000000000000000000") = false)
  /\ (JsNumber.gtZero (Extract.priceInCents (Inputs.cents (Inputs.tiny 322))) = true
      /\ JsNumber.isNaN (Extract.valueNum "$100") = false
      /\ Extract.calcOutcome (Inputs.cents (Inputs.tiny 322)) "$100" = "").
Proof. vm_compute. repeat split; reflexivity. Qed.

(** C1, as the code has it.  When the first number in the priced-quantity
    text is [p] cents, the first amount in the monetary-value text (commas
    removed) is [v], [v] is not [NaN], the unit price [p / 100] is strictly
    positive and the quotient [v / (p / 100)] is finite and below [10^21],
    the outcome is [toFixed(2)] of that quotient, a numeric string with
    exactly two decimal places: for the calculation on any two texts, and
    for the [avgPrice], [value] and [outcome] of every record the page
    script returns.  For "50¢" and "$100" it is "200.00". *)
Theorem outcome_is_value_over_unit_price :
  (forall avgPriceValue value g r h r' : string,
      Pattern.search Pattern.numberAt avgPriceValue = Some (g, r) ->
      Pattern.search Pattern.amountAt value = Some (h, r') ->
      let p := JsNumber.parseFloat g in
      let v := JsNumber.parseFloat (Pattern.removeCommas h) in
      let q := JsNumber.div v (JsNumber.div p (JsNumber.ofZ 100)) in
      JsNumber.gtZero (JsNumber.div p (JsNumber.ofZ 100)) = true ->
      JsNumber.isNaN v = false ->
      JsNumber.belowE21 q = true ->
      Extract.calcOutcome avgPriceValue value = JsNumber.toFixed2 q
      /\ JsNumber.isFixed2 (Extract.calcOutcome avgPriceValue value) = true)
  /\ (forall (candidates : list Extract.Candidate) (pos : Position)
             (g r h r' : string),
        pos ∈ Extract.pageScript candidates ->
        Pattern.search Pattern.numberAt (avgPrice pos) = Some (g, r) ->
        Pattern.search Pattern.amountAt (value pos) = Some (h, r') ->
        let p := JsNumber.parseFloat g in
        let v := JsNumber.parseFloat (Pattern.removeCommas h) in
        let q := JsNumber.div v (JsNumber.div p (JsNumber.ofZ 100)) in
        JsNumber.gtZero (JsNumber.div p (JsNumber.ofZ 100)) = true ->
        JsNumber.isNaN v = false ->
        JsNumber.belowE21 q = true ->
        outcome pos = JsNumber.toFixed2 q
        /\ JsNumber.isFixed2 (outcome pos) = true)
  /\ Extract.calcOutcome (Inputs.cents "50") "$100" = "200.00".
Proof.
  assert (F : forall a val g r h r' : string,
             Pattern.search Pattern.numberAt a = Some (g, r) ->
             Pattern.search Pattern.amountAt val = Some (h, r') ->
             let p := JsNumber.parseFloat g in
             let v := JsNumber.parseFloat (Pattern.removeCommas h) in
             let q := JsNumber.div v (JsNumber.div p (JsNumber.ofZ 100)) in
             JsNumber.gtZero (JsNumber.div p (JsNumber.ofZ 100)) = true ->
             JsNumber.isNaN v = false ->
             JsNumber.belowE21 q = true ->
             Extract.calcOutcome a val = JsNumber.toFixed2 q
             /\ JsNumber.isFixed2 (Extract.calcOutcome a val) = true).
  { intros a val g r h r' Hp Hv p v q Hpos Hnan Hq.
    destruct (calcOutcome_quotient a val g r h r' Hp Hv Hpos Hnan) as [Eq E].
    fold p v q in Eq. rewrite Eq in E.
    split; [exact E|].
    rewrite E. apply toFixed2_isFixed2; [|exact Hq].
    rewrite <- Eq. apply outcomeNum_sign. }
  split; [exact F|]. split; [|reflexivity].
  intros candidates pos g r h r' Hin Hp Hv p v q Hpos Hnan Hq.
  destruct (pageScript_elem _ _ Hin) as (cand & _ & Hpos').
  destruct (extractPosition_fields _ _ Hpos') as (c & _ & _ & _ & _ & _ & Ho).
  rewrite Ho. exact (F _ _ g r h r' Hp Hv Hpos Hnan Hq).
Qed.

Lemma outcome_is_value_over_unit_price_witness :
  Extract.calcOutcome (Inputs.cents "45" ++ " avg") "$9,000.50"
  = JsNumber.toFixed2
      (JsNumber.div (JsNumber.parseFloat (Pattern.removeCommas "9,000.50"))
         (JsNumber.div (JsNumber.parseFloat "45") (JsNumber.ofZ 100)))
  /\ JsNumber.isFixed2
       (Extract.calcOutcome (Inputs.cents "45" ++ " avg") "$9,000.50") = true.
Proof.
  apply (proj1 outcome_is_value_over_unit_price
           (Inputs.cents "45" ++ " avg") "$9,000.50"
           "45" (String Pattern.cent " avg") "9,000.50" "");
    reflexivity.
Defined.

(** C2, at the inputs where the code departs from it.  A value text of
    309 nines is read as [Infinity], which passes the [isNaN] guards: with
    the price "1¢" the outcome is the string "Infinity", and with a price of
    309 nines the quotient of two infinities makes it "NaN".  A container
    that shows "avg 1¢" and such a value gives a record with the outcome
    "Infinity". *)
Theorem outcome_emits_Infinity_and_NaN :
  Extract.calcOutcome (Inputs.cents "1") ("$" ++ Inputs.nines 309) = "Infinity"
  /\ Extract.calcOutcome (Inputs.cents (Inputs.nines 309)) ("$" ++ Inputs.nines 309)
     = "NaN"
  /\ outcome <$> Extract.pageScript
                   [Extract.mkCandidate Inputs.anchorX (Some Inputs.boxOverflow)]
     = ["Infinity"].
Proof. vm_compute. repeat split; reflexivity. Qed.

(** C5, at an input where the code departs from it.  In the table row
    with the cells "Will X happen?", "45¢" and "avg: 50¢" the scan of the
    table cells finds "50¢", the price of the cell that mentions the
    average; the scan of the elements, which the script runs whether or not
    a price was found, then replaces it by "45¢", the first price of the
    first element whose own text and parent text together hold an average
    pattern. *)
Theorem element_scan_replaces_cell_price :
  Extract.avgFromCells (Extract.cellsOf Inputs.rowNowAvg) = Some (Inputs.cents "50")
  /\ Extract.avgAfter0 Inputs.rowNowAvg = Inputs.cents "50"
  /\ Extract.avgFromElements (Extract.priceElements Inputs.rowNowAvg)
     = Some (Inputs.cents "45")
  /\ Extract.extractAvgPrice Inputs.rowNowAvg = Inputs.cents "45"
  /\ avgPrice <$> Extract.pageScript
                    [Extract.mkCandidate Inputs.anchorX (Some Inputs.rowNowAvg)]
     = [Inputs.cents "45"].
Proof. vm_compute. repeat split; reflexivity. Qed.





(** C7.  Whenever the page script returns no record, the response has
    status 200 (not the 500 of a failure), an empty [positions] array, a
    [count] of 0 and a message that is not empty; with no candidate anchor
    at all the page script returns no record. *)
Theorem no_records_is_empty_success :
  (forall candidates : list Extract.Candidate,
      Extract.pageScript candidates = [] ->
      Response.status (Extract.GET candidates) = 200%Z
      /\ Response.field "positions" (Response.payload (Extract.GET candidates))
         = Some (Response.JArray [])
      /\ Response.field "count" (Response.payload (Extract.GET candidates))
         = Some (Response.JNumber 0)
      /\ Response.field "message" (Response.payload (Extract.GET candidates))
         = Some (Response.JString Response.emptyMessage)
      /\ Response.emptyMessage <> ""
      /\ (forall msg : string, Extract.GET candidates <> Response.failed msg))
  /\ Extract.pageScript [] = [].
Proof.
  split; [|reflexivity].
  intros candidates H. unfold Extract.GET. rewrite H.
  split; [reflexivity|]. split; [reflexivity|]. split; [reflexivity|].
  split; [reflexivity|]. split; [discriminate|].
  intros msg E. apply (f_equal Response.status) in E. discriminate E.
Qed.

Lemma no_records_is_empty_success_witness :
  Response.status (Extract.GET []) = 200%Z
  /\ Response.field "positions" (Response.payload (Extract.GET []))
     = Some (Response.JArray [])
  /\ Response.field "count" (Response.payload (Extract.GET []))
     = Some (Response.JNumber 0).
Proof.
  destruct (proj1 no_records_is_empty_success [] eq_refl) as (H1 & H2 & H3 & _).
  split; [exact H1|]. split; [exact H2|exact H3].
Defined.

(** The records carry the field names [avgPrice] and [value], and a
    container without a dollar amount gives a record whose [value] is
    empty. *)
Lemma record_field_names_counterexample :
  ~ (forall (candidates : list Extract.Candidate) (pos : Position),
        pos ∈ Extract.pageScript candidates ->
        Response.keys (Response.positionJson pos)
        = ["marketName"; "marketUrl"; "outcome";
           "pricedQuantityText"; "monetaryValueText"])
  /\ ~ (forall (candidates : list Extract.Candidate) (pos : Position),
          pos ∈ Extract.pageScript candidates ->
          Pattern.isDollarText (value pos) = true).
Proof.
  split; intros H.
  - assert (Hin : Inputs.recordScenario
                  ∈ Extract.pageScript [Inputs.candidateScenario]).
    { rewrite pageScript_scenario. apply list_elem_of_here. }
    specialize (H _ _ Hin). discriminate H.
  - assert (Hin : Inputs.recordNowAvg ∈ Extract.pageScript [Inputs.candidateNowAvg]).
    { rewrite pageScript_nowAvg. apply list_elem_of_here. }
    specialize (H _ _ Hin). discriminate H.
Qed.

(** C8, as the code has it.  Every record of the response carries exactly
    the fields [marketName], [marketUrl], [outcome], [avgPrice] and [value],
    in that order; [avgPrice] is empty or one price, digits with an optional
    fraction, optional white space and the cent sign, as in "45¢"; [value] is
    empty or one dollar amount, a dollar sign, digits and commas and an
    optional fraction, as in "$5,423"; and the [positions] array of the
    response is made of these records. *)
Theorem record_fields_and_formats
  (candidates : list Extract.Candidate) (pos : Position) :
  pos ∈ Extract.pageScript candidates ->
  Response.keys (Response.positionJson pos)
  = ["marketName"; "marketUrl"; "outcome"; "avgPrice"; "value"]
  /\ (avgPrice pos = "" \/ Pattern.isPriceText (avgPrice pos) = true)
  /\ (value pos = "" \/ Pattern.isDollarText (value pos) = true)
  /\ Response.field "positions" (Response.payload (Extract.GET candidates))
     = Some (Response.JArray
               (Response.positionJson <$> Extract.pageScript candidates)).
Proof.
  intros Hin. split; [reflexivity|].
  destruct (pageScript_elem _ _ Hin) as (cand & Hcand & Hpos).
  destruct (extractPosition_fields _ _ Hpos) as (c & _ & _ & _ & Ha & Hv & _).
  split; [rewrite Ha; apply extractAvgPrice_text|].
  split; [rewrite Hv; apply extractValue_text|].
  unfold Extract.GET, Response.respond.
  now destruct (Extract.pageScript candidates).
Qed.

Lemma record_fields_and_formats_witness :
  Response.keys (Response.positionJson Inputs.recordScenario)
  = ["marketName"; "marketUrl"; "outcome"; "avgPrice"; "value"]
  /\ (avgPrice Inputs.recordScenario = ""
      \/ Pattern.isPriceText (avgPrice Inputs.recordScenario) = true)
  /\ (value Inputs.recordScenario = ""
      \/ Pattern.isDollarText (value Inputs.recordScenario) = true).
Proof.
  assert (Hin : Inputs.recordScenario ∈ Extract.pageScript [Inputs.candidateScenario]).
  { rewrite pageScript_scenario. apply list_elem_of_here. }
  destruct (record_fields_and_formats _ _ Hin) as (H1 & H2 & H3 & _).
  split; [exact H1|]. split; [exact H2|exact H3].
Defined.

(** * Further properties of the code *)

(** ** The key of a market *)

Section KeyFacts.
Import Dedup.

Lemma toLowerChar_marks (c : ascii) :
  Ascii.eqb (toLowerChar c) "?" = Ascii.eqb c "?"
  /\ Ascii.eqb (toLowerChar c) "#" = Ascii.eqb c "#"
  /\ toLowerChar (toLowerChar c) = toLowerChar c.
Proof.
  destruct c as [[] [] [] [] [] [] [] []]; vm_compute; repeat split; reflexivity.
Qed.

Lemma before_toLowerCase (c : ascii) (s : string) :
  (forall a : ascii, Ascii.eqb (toLowerChar a) c = Ascii.eqb a c) ->
  before c (toLowerCase s) = toLowerCase (before c s).
Proof.
  intros Hc. induction s as [|a s IH]; [reflexivity|].
  simpl. rewrite Hc. destruct (Ascii.eqb a c); [reflexivity|].
  simpl. now rewrite IH.
Qed.

Lemma toLowerCase_idem (s : string) : toLowerCase (toLowerCase s) = toLowerCase s.
Proof.
  induction s as [|a s IH]; [reflexivity|].
  simpl. now rewrite IH, (proj2 (proj2 (toLowerChar_marks a))).
Qed.

Lemma normalizeUrl_fragment (u f : string) :
  normalizeUrl (u ++ String "#" f) = normalizeUrl u.
Proof.
  unfold normalizeUrl. rewrite (before_app "?" u).
  destruct (contains "?" u) eqn:Hq; [reflexivity|].
  rewrite (before_absent "?" u Hq).
  change (before "?" (String "#" f)) with (String "#" (before "?" f)).
  now rewrite before_stop.
Qed.

Lemma normalizeUrl_case (u : string) : normalizeUrl (toLowerCase u) = normalizeUrl u.
Proof.
  unfold normalizeUrl.
  rewrite (before_toLowerCase "?") by (intros a; apply (toLowerChar_marks a)).
  rewrite (before_toLowerCase "#") by (intros a; apply (toLowerChar_marks a)).
  now rewrite toLowerCase_idem.
Qed.

End KeyFacts.

(** X1.  The key of a market URL does not depend on the fragment of the
    URL nor on the case of its letters: appending a fragment or lower-casing
    the URL leaves the key as it is, so that of two records whose URLs are
    equal up to letter case only the first comes out of the deduplication. *)
Theorem dedup_key_ignores_case_and_fragment :
  (forall u f : string,
      Dedup.normalizeUrl (u ++ String "#" f) = Dedup.normalizeUrl u)
  /\ (forall u : string, Dedup.normalizeUrl (toLowerCase u) = Dedup.normalizeUrl u)
  /\ (forall p1 p2 : Position,
        toLowerCase (marketUrl p1) = toLowerCase (marketUrl p2) ->
        Dedup.dedup [p1; p2] = [p1]).
Proof.
  split; [exact normalizeUrl_fragment|]. split; [exact normalizeUrl_case|].
  intros p1 p2 E. apply dedup_pair_same_key. unfold Dedup.dedupKey.
  now rewrite <- (normalizeUrl_case (marketUrl p1)), E, normalizeUrl_case.
Qed.

Lemma dedup_key_ignores_case_and_fragment_witness :
  Dedup.dedup
    [ mkPosition "A" "https://polymarket.com/Event/X" "" "" "";
      mkPosition "B" "https://POLYMARKET.com/event/x" "" "" "" ]
  = [ mkPosition "A" "https://polymarket.com/Event/X" "" "" "" ].
Proof.
  apply (proj2 (proj2 dedup_key_ignores_case_and_fragment)). reflexivity.
Defined.

(** ** Deduplication, in the route and in the page *)

Section MergeFacts.
Import Dedup Client.
Local Open Scope list_scope.

Lemma kept_fixed (key : Position -> string) (seen : gset string) (l : list Position) :
  NoDup (key <$> l) -> (forall p : Position, p ∈ l -> key p ∉ seen) ->
  kept key seen l = l.
Proof.
  revert seen. induction l as [|x l IH]; intros seen Hnd Hseen; [reflexivity|].
  simpl. rewrite fmap_cons in Hnd. apply NoDup_cons in Hnd as [Hx Hl].
  rewrite decide_False by (apply Hseen; apply list_elem_of_here).
  f_equal. apply IH; [exact Hl|].
  intros p Hp. rewrite not_elem_of_union, not_elem_of_singleton. split.
  - intros E. apply Hx. rewrite <- E. apply list_elem_of_fmap. eauto.
  - apply Hseen. now apply list_elem_of_further.
Qed.

Lemma kept_app (key : Position -> string) (seen : gset string) (l1 l2 : list Position) :
  kept key seen (l1 ++ l2)
  = kept key seen l1 ++ kept key (list_to_set (key <$> l1) ∪ seen) l2.
Proof.
  revert seen. induction l1 as [|x l1 IH]; intros seen; simpl.
  - f_equal. now rewrite (left_id_L ∅ (∪)).
  - destruct (decide (key x ∈ seen)) as [Hin|Hout].
    + rewrite IH. f_equal. f_equal.
      apply set_eq. intros k. rewrite !elem_of_union, elem_of_singleton.
      split; [tauto|]. intros [[->|H]|H]; tauto.
    + simpl. rewrite IH. f_equal. f_equal. f_equal.
      apply set_eq. intros k. rewrite !elem_of_union, elem_of_singleton. tauto.
Qed.

Lemma find_sameMarket (pos : Position) (acc : list Position) :
  is_Some (List.find (sameMarket pos) acc)
  <-> dedupKey pos ∈ (list_to_set (dedupKey <$> acc) : gset string).
Proof.
  induction acc as [|p acc IH]; simpl.
  - split; [intros [x Hx]; discriminate|]. intros H. now apply not_elem_of_empty in H.
  - rewrite elem_of_union, elem_of_singleton. unfold sameMarket at 1.
    destruct (String.eqb _ _) eqn:E.
    + apply String.eqb_eq in E. split; [|eauto]. intros _. left.
      unfold dedupKey. now rewrite E.
    + apply String.eqb_neq in E. rewrite IH. split; [tauto|].
      intros [H|H]; [|exact H]. unfold dedupKey in H. congruence.
Qed.

Lemma merge_is_run (l : list Position) (st : state) :
  seenUrls st = list_to_set (dedupKey <$> uniqueResults st) ->
  uniqueResults (fold_left (step dedupKey) l st)
  = fold_left mergeStep l (uniqueResults st).
Proof.
  revert st. induction l as [|pos l IH]; intros st Hst; [reflexivity|].
  simpl. unfold step at 2, mergeStep at 2.
  destruct (decide (dedupKey pos ∈ seenUrls st)) as [Hin|Hout].
  - rewrite Hst in Hin. apply find_sameMarket in Hin as [x Hx]. rewrite Hx.
    now apply IH.
  - assert (N : List.find (sameMarket pos) (uniqueResults st) = None).
    { destruct (List.find _ _) eqn:F; [|reflexivity].
      exfalso. apply Hout. rewrite Hst. apply find_sameMarket. eauto. }
    rewrite N. rewrite IH; [reflexivity|].
    simpl. rewrite fmap_app, list_to_set_app_L, Hst. simpl.
    apply set_eq. intros k.
    rewrite !elem_of_union, elem_of_singleton, elem_of_empty. tauto.
Qed.

Lemma kept_keys (key : Position -> string) (seen : gset string) (l : list Position) :
  list_to_set (key <$> kept key seen l) ∪ seen
  = (list_to_set (key <$> l) ∪ seen : gset string).
Proof.
  revert seen. induction l as [|x l IH]; intros seen; [reflexivity|].
  simpl. destruct (decide (key x ∈ seen)) as [Hin|Hout].
  - rewrite IH. apply set_eq. intros k.
    rewrite !elem_of_union, elem_of_singleton. split; [tauto|].
    intros [[->|H]|H]; tauto.
  - simpl. specialize (IH ({[key x]} ∪ seen)).
    apply set_eq. intros k. apply (proj1 (set_eq _ _)) with (x := k) in IH.
    rewrite !elem_of_union, !elem_of_singleton in *. tauto.
Qed.

Lemma uniquePositions_dedup (l : list Position) : uniquePositions l = dedup l.
Proof.
  unfold uniquePositions, dedup, dedupBy, run.
  now rewrite (merge_is_run l (init)).
Qed.

End MergeFacts.

(** X2.  The page merges the positions of the profiles with the same
    result as the deduplication of the route: both keep the first position
    of every market key, in order.  Deduplicating a second time changes
    nothing. *)
Theorem page_merge_is_route_dedup (positions : list Position) :
  Client.uniquePositions positions = Dedup.dedup positions
  /\ Dedup.dedup (Dedup.dedup positions) = Dedup.dedup positions
  /\ Client.uniquePositions (Dedup.dedup positions) = Dedup.dedup positions.
Proof.
  assert (I : Dedup.dedup (Dedup.dedup positions) = Dedup.dedup positions).
  { unfold Dedup.dedup. rewrite !dedupBy_kept.
    apply kept_fixed; [apply kept_NoDup|]. intros p _. apply not_elem_of_empty. }
  split; [apply uniquePositions_dedup|]. split; [exact I|].
  now rewrite uniquePositions_dedup.
Qed.

(** X3.  When the positions of two profiles are merged, those of the
    first profile come out as their own deduplication, in front, and of the
    second profile only positions of markets the first does not have are
    added, in their order and without repeating a market.  In particular
    what the route returned for the first profile is kept as it is. *)
Theorem page_merge_keeps_first_profile (first second : list Position) :
  exists added : list Position,
    Client.uniquePositions (first ++ second)%list
    = (Client.uniquePositions first ++ added)%list
    /\ added `sublist_of` second
    /\ (forall p : Position,
          p ∈ added -> Dedup.dedupKey p ∉ (Dedup.dedupKey <$> first))
    /\ Client.uniquePositions (Dedup.dedup first ++ second)%list
       = (Dedup.dedup first ++ added)%list.
Proof.
  exists (Dedup.kept Dedup.dedupKey
            (list_to_set (Dedup.dedupKey <$> first)) second).
  rewrite !uniquePositions_dedup. unfold Dedup.dedup. rewrite !dedupBy_kept.
  split.
  { rewrite kept_app. f_equal. f_equal. now rewrite (right_id_L ∅ (∪)). }
  split; [apply kept_sublist|]. split.
  { intros p Hp. apply kept_fresh in Hp. now rewrite elem_of_list_to_set in Hp. }
  rewrite kept_app. f_equal.
  - apply kept_fixed; [apply kept_NoDup|]. intros p _. apply not_elem_of_empty.
  - f_equal. rewrite (right_id_L ∅ (∪)).
    pose proof (kept_keys Dedup.dedupKey ∅ first) as K.
    now rewrite !(right_id_L ∅ (∪)) in K.
Qed.

(** ** The outcome and the two cascades *)

Section FieldFacts.
Import JsNumber Pattern Dom Extract.

Lemma priceText_nonEmpty (v : string) : isPriceText v = true -> nonEmpty v = true.
Proof. now destruct v. Qed.

Lemma avgFromText_early (t : string) : avgFromText t = None -> earlyAvgPrice t = "".
Proof.
  unfold avgFromText, earlyAvgPrice. simpl.
  destruct (matchAvg t); [discriminate|].
  destruct (matchAverage t); [discriminate|].
  destruct (matchAt t); [discriminate|reflexivity].
Qed.

Lemma avgAfter3_empty (c : node) :
  avgAfter3 c = "" -> avgFromText (textContent c) = None.
Proof.
  unfold avgAfter3. destruct (nonEmpty (avgAfter2 c)) eqn:N; cbn [negb].
  - intros E. rewrite E in N. discriminate.
  - destruct (avgFromText (textContent c)) as [v|] eqn:F; [|reflexivity].
    intros E. apply avgFromText_text, priceText_nonEmpty in F.
    rewrite E in F. discriminate.
Qed.

Lemma stripLabels_match (t m : string) : matchDollar t = Some m -> stripLabels m = m.
Proof. intros H. apply stripLabels_amount. now apply matchDollar_text in H. Qed.

Lemma resolveUrl_empty (a : Anchor) :
  resolveUrl a = "" <-> href a = "" /\ default "" (hrefAttribute a) = "".
Proof.
  unfold resolveUrl.
  destruct (href a) as [|x h]; cbn [orElse].
  - destruct (default "" (hrefAttribute a)) as [|y h']; cbn [orElse nonEmpty andb].
    + tauto.
    + split; [|intros [_ E]; discriminate].
      destruct (negb _); [|discriminate]. now destruct (startsWith "/" _).
  - cbn [nonEmpty andb]. split; [|intros [E _]; discriminate].
    destruct (negb _); [|discriminate]. now destruct (startsWith "/" _).
Qed.

End FieldFacts.

(** X4.  The outcome is empty exactly when the price text or the value text
    is empty, the unit price is not above zero, or the value is not a
    number; otherwise it is what [toFixed(2)] writes for the quotient. *)
Theorem outcome_empty_iff (avgPriceValue value : string) :
  (Extract.calcOutcome avgPriceValue value = "" <->
     avgPriceValue = "" \/ value = ""
     \/ JsNumber.gtZero (Extract.priceInDollars avgPriceValue) = false
     \/ JsNumber.isNaN (Extract.valueNum value) = true)
  /\ (Extract.calcOutcome avgPriceValue value <> "" ->
      Extract.calcOutcome avgPriceValue value
      = JsNumber.toFixed2 (Extract.outcomeNum avgPriceValue value)).
Proof.
  rewrite calcOutcome_cases.
  destruct avgPriceValue as [|a p]; [cbn [nonEmpty andb]; split; [tauto|congruence]|].
  destruct value as [|b v]; [cbn [nonEmpty andb]; split; [tauto|congruence]|].
  cbn [nonEmpty andb].
  destruct (JsNumber.gtZero _); cbn [andb]; [|split; [tauto|congruence]].
  destruct (JsNumber.isNaN _); cbn [negb]; [split; [tauto|congruence]|].
  split; [|reflexivity]. split.
  - intros E. pose proof (toFixed2_nonEmpty (Extract.outcomeNum (String a p) (String b v))) as N.
    rewrite E in N. discriminate.
  - intros [E | [E | [E | E]]]; discriminate.
Qed.

Lemma outcome_empty_iff_witness :
  Extract.calcOutcome (Inputs.cents "45") "$900"
  = JsNumber.toFixed2 (Extract.outcomeNum (Inputs.cents "45") "$900").
Proof.
  apply (proj2 (outcome_empty_iff (Inputs.cents "45") "$900")).
  vm_compute. discriminate.
Defined.

(** X5.  The price captured before the cascade (the first of the patterns
    "at", "avg", "average" over the container text) never reaches the
    record: when the first three steps of the cascade leave the price
    empty, that capture is empty too, so the last step of the cascade
    changes nothing. *)
Theorem early_avg_price_never_used (c : Dom.node) :
  Extract.extractAvgPrice c = Extract.avgAfter3 c
  /\ (Extract.avgAfter3 c = "" ->
      Extract.earlyAvgPrice (Dom.textContent c) = "").
Proof.
  assert (H : Extract.avgAfter3 c = "" ->
              Extract.earlyAvgPrice (Dom.textContent c) = "").
  { intros E. now apply avgFromText_early, avgAfter3_empty. }
  split; [|exact H]. unfold Extract.extractAvgPrice.
  destruct (Extract.avgAfter3 c) as [|a v] eqn:E; [|reflexivity].
  now rewrite (H eq_refl).
Qed.

Lemma early_avg_price_never_used_witness :
  Extract.earlyAvgPrice (Dom.textContent (Dom.Element "DIV" [Dom.Text "Will X happen?"])) = "".
Proof.
  apply (proj2 (early_avg_price_never_used (Dom.Element "DIV" [Dom.Text "Will X happen?"]))).
  reflexivity.
Defined.

(** X6.  Over the container text the first dollar amount is taken as it
    stands: the removal of the labels "value", "PnL", "profit" and "loss"
    from that match never changes it, and the labelled patterns are tried
    only for a text without a dollar amount. *)
Theorem value_text_takes_first_dollar_amount (t : string) :
  (forall m : string,
      Pattern.matchDollar t = Some m ->
      Extract.stripLabels m = m /\ Extract.valueFromText t = Some m)
  /\ (Pattern.matchDollar t = None ->
      Extract.valueFromText t
      = Extract.firstMatch
          [ Extract.labelled "value"; Extract.labelled "PnL";
            Extract.labelled "profit"; Extract.labelled "loss" ] t).
Proof.
  split.
  - intros m H. pose proof (stripLabels_match t m H) as S. split; [exact S|].
    unfold Extract.valueFromText. cbn [Extract.firstMatch]. rewrite H. simpl.
    now rewrite S.
  - intros H. unfold Extract.valueFromText. cbn [Extract.firstMatch].
    now rewrite H.
Qed.

Lemma value_text_takes_first_dollar_amount_witness :
  Extract.stripLabels "$5,423.10" = "$5,423.10"
  /\ Extract.valueFromText "Value: $5,423.10 profit $12" = Some "$5,423.10".
Proof.
  apply (proj1 (value_text_takes_first_dollar_amount "Value: $5,423.10 profit $12")).
  reflexivity.
Defined.

(** X7.  A link gives no record exactly when it has no container or
    neither its [href] property nor its [href] attribute holds a URL.  The
    market name of a record is never empty: it is the trimmed inner text of
    the link, else its trimmed text content, else "Unknown Market". *)
Theorem record_dropped_iff (cand : Extract.Candidate) :
  (Extract.extractPosition cand = None <->
     Extract.container cand = None
     \/ (Extract.href (Extract.link cand) = ""
         /\ default "" (Extract.hrefAttribute (Extract.link cand)) = ""))
  /\ (forall pos : Position,
        Extract.extractPosition cand = Some pos ->
        marketName pos <> ""
        /\ marketName pos
           = orElse (Pattern.trim (Extract.innerText (Extract.link cand)))
               (orElse (Pattern.trim (Extract.anchorText (Extract.link cand)))
                  "Unknown Market")).
Proof.
  unfold Extract.extractPosition. split.
  - destruct (Extract.container cand) as [c|]; [|tauto].
    rewrite <- resolveUrl_empty.
    destruct (Extract.resolveUrl (Extract.link cand)) as [|a u]; cbn [nonEmpty negb].
    + tauto.
    + split; [discriminate|]. intros [E|E]; discriminate.
  - intros pos. destruct (Extract.container cand) as [c|]; [|discriminate].
    destruct (negb _); [discriminate|]. intros [= <-]. cbn [marketName].
    unfold Extract.linkName.
    destruct (Pattern.trim (Extract.innerText _)); cbn [orElse];
      [|split; [discriminate|reflexivity]].
    destruct (Pattern.trim (Extract.anchorText _)); cbn [orElse];
      split; (discriminate || reflexivity).
Qed.

Lemma record_dropped_iff_witness :
  Extract.extractPosition
    (Extract.mkCandidate (Extract.mkAnchor "" None "X" "X") (Some Inputs.rowScenario))
  = None.
Proof.
  apply (proj1 (record_dropped_iff _)). right. split; reflexivity.
Defined.

(** ** Links and containers *)

Section LocatorFacts.
Import Pattern Dom Extract Locator.
Local Open Scope list_scope.

Lemma filter_sublist_impl {A : Type} (p q : A -> bool) (l : list A) :
  (forall x : A, p x = true -> q x = true) ->
  filter p l `sublist_of` filter q l.
Proof.
  intros I. induction l as [|x l IH]; [constructor|].
  rewrite !filter_cons.
  destruct (decide (p x)) as [Hp|Hp], (decide (q x)) as [Hq|Hq].
  - now constructor.
  - exfalso. apply Hq, Is_true_true, I. now apply Is_true_true.
  - now constructor.
  - exact IH.
Qed.

Lemma search_append {A : Type} (at_ : string -> option A) (p s : string) :
  is_Some (search at_ s) -> is_Some (search at_ (p ++ s)%string).
Proof.
  intros H. induction p as [|a p IH]; [exact H|].
  cbn [String.append search]. now destruct (at_ _).
Qed.

Lemma includes_append (needle p s : string) :
  includes needle s = true -> includes needle (p ++ s)%string = true.
Proof.
  unfold includes. rewrite !bool_decide_eq_true. apply search_append.
Qed.

Lemma isStyled_isEvent (l : Link) : isStyled l = true -> isEvent l = true.
Proof.
  unfold isStyled, isEvent. rewrite !andb_true_iff. intros [_ H]. split; [|exact H].
  now destruct (href (anchor l)).
Qed.

Lemma selectLinks_event (all : list Link) (l : Link) :
  l ∈ selectLinks all -> l ∈ all /\ isEvent l = true.
Proof.
  unfold selectLinks. destruct (_ <? 5)%nat; rewrite list_elem_of_filter;
    intros [H Hl]; apply Is_true_true in H; split; auto using isStyled_isEvent.
Qed.

Lemma selectLinks_sublist (all : list Link) : selectLinks all `sublist_of` all.
Proof. unfold selectLinks. destruct (_ <? 5)%nat; apply sublist_filter. Qed.

Lemma resolveUrl_includes (needle : string) (a : Anchor) :
  nonEmpty (href a) = true -> includes needle (href a) = true ->
  includes needle (resolveUrl a) = true.
Proof.
  unfold resolveUrl. destruct (href a) as [|x h] eqn:E; [discriminate|].
  intros _ H. cbn [orElse nonEmpty andb].
  destruct (negb _); [|exact H].
  destruct (startsWith "/" _).
  - now apply includes_append.
  - apply includes_append. now apply (includes_append needle "/").
Qed.

Lemma omap_length_le {A B : Type} (f : A -> option B) (l : list A) :
  (length (omap f l) <= length l)%nat.
Proof.
  induction l as [|x l IH]; simpl; [lia|].
  unfold omap in IH. destruct (f x); simpl; lia.
Qed.

Lemma closest_elem (sel : Ancestor -> bool) (chain : list Ancestor) (c : Ancestor) :
  closest sel chain = Some c -> c ∈ chain.
Proof. intros H. apply find_some in H as [H _]. now apply list_elem_of_In. Qed.

Lemma strategy1_some (link : nat) (chain : list Ancestor) (c : Ancestor) :
  strategy1 link chain = Some c -> c ∈ chain /\ onlyLink link c = true.
Proof.
  unfold strategy1. destruct (closest isTr chain) as [tr|] eqn:F; [|discriminate].
  destruct (onlyLink link tr) eqn:O; [|discriminate].
  intros [= <-]. eauto using closest_elem.
Qed.

Lemma strategy2_some (link : nat) (chain : list Ancestor) (c : Ancestor) :
  strategy2 link chain = Some c -> c ∈ chain /\ onlyLink link c = true.
Proof.
  unfold strategy2, orNull.
  destruct (closest (isDivWithClass "position") chain) as [d|] eqn:F1.
  { destruct (onlyLink link d) eqn:O; [|discriminate].
    intros [= <-]. eauto using closest_elem. }
  destruct (closest (isDivWithClass "row") chain) as [d|] eqn:F2.
  { destruct (onlyLink link d) eqn:O; [|discriminate].
    intros [= <-]. eauto using closest_elem. }
  destruct (closest isDivRow chain) as [d|] eqn:F3; [|discriminate].
  destruct (onlyLink link d) eqn:O; [|discriminate].
  intros [= <-]. eauto using closest_elem.
Qed.

Lemma climb_some (link : nat) (chain : list Ancestor) (levels : nat) (c : Ancestor) :
  climb link chain levels = Some c ->
  c ∈ take levels chain /\ onlyLink link c = true /\ (2 < childCount c)%nat.
Proof.
  revert chain. induction levels as [|n IH]; intros [|x chain]; simpl; try discriminate.
  destruct (onlyLink link x && (2 <? childCount x)%nat) eqn:T.
  - intros [= <-]. apply andb_true_iff in T as [O K]. apply Nat.ltb_lt in K.
    split; [apply list_elem_of_here|]. now split.
  - intros H. apply IH in H as (H1 & H2 & H3).
    split; [now apply list_elem_of_further|]. now split.
Qed.

Lemma strategy4_some (chain : list Ancestor) (c : Ancestor) :
  strategy4 chain = Some c -> c ∈ chain.
Proof.
  destruct chain as [|p [|g rest]]; simpl; [discriminate| |]; intros [= <-].
  - apply list_elem_of_here.
  - apply list_elem_of_further, list_elem_of_here.
Qed.

Lemma resolveContainer_cases (link : nat) (chain : list Ancestor) (c : Ancestor) :
  resolveContainer link chain = Some c ->
  strategy1 link chain = Some c \/ strategy2 link chain = Some c
  \/ strategy3 link chain = Some c \/ strategy4 chain = Some c.
Proof.
  unfold resolveContainer, orNull.
  destruct (strategy1 link chain); [auto|].
  destruct (strategy2 link chain); [auto|].
  destruct (strategy3 link chain); auto.
Qed.

Lemma resolveContainer_none (link : nat) (chain : list Ancestor) :
  resolveContainer link chain = None <-> chain = [].
Proof.
  split; [|intros ->; reflexivity].
  unfold resolveContainer, orNull.
  destruct (strategy1 link chain); [discriminate|].
  destruct (strategy2 link chain); [discriminate|].
  destruct (strategy3 link chain); [discriminate|].
  destruct chain as [|p [|g rest]]; [reflexivity|discriminate|discriminate].
Qed.

End LocatorFacts.

(** X8.  The links the script works on: the styled links (class names
    [flex-1] and [cursor-pointer]) are always among them, in the order of
    the document; every link worked on has "/event/" in its [href]; the
    other market links are worked on exactly when fewer than five links are
    styled. *)
Theorem selected_links (allMarketLinks : list Locator.Link) :
  filter Locator.isStyled allMarketLinks
    `sublist_of` Locator.selectLinks allMarketLinks
  /\ Locator.selectLinks allMarketLinks `sublist_of` allMarketLinks
  /\ (forall l : Locator.Link,
        l ∈ Locator.selectLinks allMarketLinks ->
        Pattern.includes "/event/" (Extract.href (Locator.anchor l)) = true)
  /\ (forall l : Locator.Link,
        l ∈ allMarketLinks -> Locator.isStyled l = false ->
        (l ∈ Locator.selectLinks allMarketLinks <->
         Locator.isEvent l = true
         /\ (length (filter Locator.isStyled allMarketLinks) < 5)%nat)).
Proof.
  unfold Locator.selectLinks.
  destruct (_ <? 5)%nat eqn:L;
    [apply Nat.ltb_lt in L | apply Nat.ltb_ge in L].
  - split; [apply filter_sublist_impl, isStyled_isEvent|].
    split; [apply sublist_filter|]. split.
    + intros l H. apply list_elem_of_filter in H as [H _].
      apply Is_true_true in H. unfold Locator.isEvent in H.
      now apply andb_true_iff in H.
    + intros l Hl _. rewrite list_elem_of_filter, Is_true_true. tauto.
  - split; [reflexivity|]. split; [apply sublist_filter|]. split.
    + intros l H. apply list_elem_of_filter in H as [H _].
      apply Is_true_true, isStyled_isEvent in H. unfold Locator.isEvent in H.
      now apply andb_true_iff in H.
    + intros l Hl S. rewrite list_elem_of_filter, Is_true_true. split.
      * intros [H _]. congruence.
      * intros [_ H]. lia.
Qed.

Lemma selected_links_witness :
  let plain := Locator.mkLink 0 "link" Inputs.anchorX [] in
  plain ∈ Locator.selectLinks [plain] <->
  Locator.isEvent plain = true
  /\ (length (filter Locator.isStyled [plain]) < 5)%nat.
Proof.
  intros plain.
  apply (proj2 (proj2 (proj2 (selected_links [plain])))).
  - apply list_elem_of_here.
  - reflexivity.
Defined.

(** X9.  The container of a link: there is none exactly when the link has
    no parent; otherwise it is one of the elements above the link, and it
    either holds this market link and no other or is the fallback (the
    grandparent, or the parent when there is no grandparent).  The nearest
    table row wins whenever it holds only this link, and the third strategy
    looks at no more than five levels and takes only an element with more
    than two children. *)
Theorem container_resolution (link : nat) (chain : list Locator.Ancestor) :
  (Locator.resolveContainer link chain = None <-> chain = [])
  /\ (forall c : Locator.Ancestor,
        Locator.resolveContainer link chain = Some c ->
        c ∈ chain
        /\ (Locator.onlyLink link c = true \/ Locator.strategy4 chain = Some c))
  /\ (forall tr : Locator.Ancestor,
        Locator.closest Locator.isTr chain = Some tr ->
        Locator.onlyLink link tr = true ->
        Locator.resolveContainer link chain = Some tr)
  /\ (forall c : Locator.Ancestor,
        Locator.strategy3 link chain = Some c ->
        c ∈ take 5 chain /\ (2 < Locator.childCount c)%nat).
Proof.
  split; [apply resolveContainer_none|]. split; [|split].
  - intros c H. apply resolveContainer_cases in H as [H | [H | [H | H]]].
    + apply strategy1_some in H as [H1 H2]. auto.
    + apply strategy2_some in H as [H1 H2]. auto.
    + apply climb_some in H as (H1 & H2 & _). split; [|auto].
      apply elem_of_take in H1 as (i & H1 & _). eauto using list_elem_of_lookup_2.
    + split; [now apply strategy4_some|auto].
  - intros tr F O. unfold Locator.resolveContainer, Locator.strategy1.
    now rewrite F, O.
  - intros c H. apply climb_some in H. tauto.
Qed.

Lemma container_resolution_witness :
  let row := Locator.mkAncestor Inputs.rowScenario "" None [7] in
  let cell := Locator.mkAncestor (Dom.Element "TD" []) "" None [7] in
  Locator.resolveContainer 7 [cell; row] = Some row.
Proof.
  intros row cell.
  apply (proj1 (proj2 (proj2 (container_resolution 7 [cell; row])))); reflexivity.
Defined.

(** X10.  From the links of the document to the records: the script
    returns no more records than the document has market links, and every
    record comes from a link of the document that has a parent and whose
    [href] holds "/event/"; the URL of the record is that [href], made
    absolute, and holds "/event/" too. *)
Theorem evaluate_records (allMarketLinks : list Locator.Link) :
  (length (Locator.evaluate allMarketLinks) <= length allMarketLinks)%nat
  /\ (forall pos : Position,
        pos ∈ Locator.evaluate allMarketLinks ->
        exists l : Locator.Link,
          l ∈ allMarketLinks
          /\ Locator.ancestors l <> []
          /\ marketUrl pos = Extract.resolveUrl (Locator.anchor l)
          /\ Pattern.includes "/event/" (Extract.href (Locator.anchor l)) = true
          /\ Pattern.includes "/event/" (marketUrl pos) = true).
Proof.
  split.
  - unfold Locator.evaluate, Extract.pageScript.
    destruct (dedup_records_sub
                (Extract.extractAll (Locator.candidate <$> Locator.selectLinks allMarketLinks)))
      as [S _].
    apply sublist_length in S. unfold Extract.extractAll in S.
    pose proof (omap_length_le Extract.extractPosition
                  (Locator.candidate <$> Locator.selectLinks allMarketLinks)) as O.
    rewrite length_fmap in O.
    pose proof (sublist_length _ _ (selectLinks_sublist allMarketLinks)) as F.
    unfold Extract.extractAll. lia.
  - intros pos H. apply pageScript_elem in H as (cand & Hc & E).
    apply list_elem_of_fmap in Hc as (l & -> & Hl).
    apply selectLinks_event in Hl as [Hl Ev].
    apply extractPosition_fields in E as (c & C & U & _).
    unfold Locator.isEvent in Ev. apply andb_true_iff in Ev as [N I].
    exists l. split; [exact Hl|]. split.
    { intros Z. simpl in C. rewrite (proj2 (resolveContainer_none _ _) Z) in C.
      discriminate. }
    split; [exact U|]. split; [exact I|].
    rewrite U. now apply resolveUrl_includes.
Qed.

Lemma evaluate_records_witness :
  exists l : Locator.Link,
    Pattern.includes "/event/" (Extract.href (Locator.anchor l)) = true
    /\ Pattern.includes "/event/" (marketUrl Inputs.recordScenario) = true.
Proof.
  destruct (proj2 (evaluate_records
              [Locator.mkLink 0 "link" Inputs.anchorX
                 [Locator.mkAncestor Inputs.rowScenario "" None [0]]])
              Inputs.recordScenario) as (l & _ & _ & _ & I & J).
  - vm_compute. apply list_elem_of_here.
  - exists l. split; [exact I|exact J].
Defined.

(** ** The handler *)

Section HandlerFacts.
Import Response Handler.
Local Open Scope list_scope.

Lemma waitForLinks_polls (w : World) (attempt remaining : nat) :
  exists k : nat,
    (k <= remaining)%nat
    /\ (forall j : nat, (j < k)%nat -> linkCount w (attempt + j) = Ok 0%nat)
    /\ ((k = remaining /\ waitForLinks w attempt remaining = (polls k, Ok false))
        \/ ((k < remaining)%nat
            /\ ((exists c : nat,
                   linkCount w (attempt + k) = Ok (S c)
                   /\ waitForLinks w attempt remaining
                      = (polls k ++ [CountLinks], Ok true))
                \/ (exists message : string,
                      linkCount w (attempt + k) = Throw message
                      /\ waitForLinks w attempt remaining
                         = (polls k ++ [CountLinks], Throw message))))).
Proof.
  revert attempt. induction remaining as [|n IH]; intros attempt.
  - exists 0%nat. split; [lia|]. split; [intros j Hj; lia|]. left. now split.
  - cbn [waitForLinks]. destruct (linkCount w attempt) as [[|c]|message] eqn:E.
    + destruct (IH (S attempt)) as (k & Hk & Hz & H).
      exists (S k). split; [lia|]. split.
      { intros [|j] Hj; [now rewrite Nat.add_0_r|].
        rewrite <- Nat.add_succ_comm. apply Hz. lia. }
      rewrite <- !Nat.add_succ_comm.
      destruct H as [[-> H] | [Hlt [(c & Hc & H) | (message & Hm & H)]]];
        [left; split; [reflexivity|]
        | right; split; [lia|]; left; exists c; split; [exact Hc|]
        | right; split; [lia|]; right; exists message; split; [exact Hm|]];
        unfold call, sleep; cbn [mbind M_bind Nat.ltb Nat.leb]; rewrite H;
        reflexivity.
    + exists 0%nat. split; [lia|]. split; [intros j Hj; lia|].
      right. split; [lia|]. left. exists c. rewrite Nat.add_0_r.
      split; [exact E|]. reflexivity.
    + exists 0%nat. split; [lia|]. split; [intros j Hj; lia|].
      right. split; [lia|]. right. exists message. rewrite Nat.add_0_r.
      split; [exact E|]. reflexivity.
Qed.

Lemma closes_cons (e : event) (t : list event) :
  closes (e :: t) = ((if isClose e then 1 else 0) + closes t)%nat.
Proof. unfold closes. rewrite filter_cons. now destruct e. Qed.

Lemma closes_app (t1 t2 : list event) :
  closes (t1 ++ t2) = (closes t1 + closes t2)%nat.
Proof. unfold closes. now rewrite filter_app, length_app. Qed.

Lemma slept_cons (e : event) (t : list event) :
  slept (e :: t) = (match e with Sleep ms => ms | _ => 0 end + slept t)%Z.
Proof. now destruct e. Qed.

Lemma slept_app (t1 t2 : list event) : slept (t1 ++ t2) = (slept t1 + slept t2)%Z.
Proof.
  induction t1 as [|e t1 IH]; [reflexivity|].
  rewrite <- app_comm_cons, !slept_cons, IH. lia.
Qed.

Lemma gotos_cons (e : event) (t : list event) :
  filter isGoto (e :: t)
  = if isGoto e then e :: filter isGoto t else filter isGoto t.
Proof. rewrite filter_cons. now destruct e. Qed.

Lemma polls_facts (k : nat) :
  closes (polls k) = 0%nat
  /\ slept (polls k) = (2000 * Z.of_nat k)%Z
  /\ filter isGoto (polls k) = []
  /\ Forall (fun e => e = CountLinks \/ e = Sleep 2000) (polls k).
Proof.
  induction k as [|k (HC & HS & HG & HF)]; [repeat split; constructor|].
  split; [exact HC|]. split; [|split; [exact HG|]].
  - change (slept (polls (S k))) with (2000 + slept (polls k))%Z. lia.
  - cbn [polls]. constructor; [now left|]. constructor; [now right|exact HF].
Qed.

(** What the wait loop leaves in the trace. *)
Lemma waitForLinks_trace (w : World) :
  head (fst (waitForLinks w 0 5)) = Some CountLinks
  /\ closes (fst (waitForLinks w 0 5)) = 0%nat
  /\ filter isGoto (fst (waitForLinks w 0 5)) = []
  /\ (0 <= slept (fst (waitForLinks w 0 5)) <= 10000)%Z
  /\ Forall (fun e => e = CountLinks \/ e = Sleep 2000) (fst (waitForLinks w 0 5)).
Proof.
  destruct (waitForLinks_polls w 0 5) as (k & Hk & _ & H).
  destruct (polls_facts k) as (HC & HS & HG & HF).
  destruct H as [[E H] | [Hlt [(c & _ & H) | (m & _ & H)]]];
    rewrite H; cbn [fst].
  - subst k. repeat split; try assumption; try reflexivity; rewrite HS; lia.
  - rewrite closes_app, slept_app, filter_app, HC, HS, HG, Forall_app.
    repeat split; try assumption; try reflexivity; try (cbn; lia).
    + now destruct k.
    + constructor; [now left|constructor].
  - rewrite closes_app, slept_app, filter_app, HC, HS, HG, Forall_app.
    repeat split; try assumption; try reflexivity; try (cbn; lia).
    + now destruct k.
    + constructor; [now left|constructor].
Qed.

Lemma polls_elem (k : nat) (e : event) :
  e ∈ polls k -> e = CountLinks \/ e = Sleep 2000.
Proof.
  intros H. destruct (polls_facts k) as (_ & _ & _ & F).
  rewrite Forall_forall in F. now apply F.
Qed.

Lemma head_elem {A : Type} (x : A) (l : list A) : head l = Some x -> x ∈ l.
Proof. destruct l as [|y l]; [discriminate|]. intros [= ->]. apply list_elem_of_here. Qed.

End HandlerFacts.

Ltac handler_simpl :=
  cbn [mbind mret Handler.M_bind Handler.M_ret Handler.catch Handler.isOk
         fst snd negb andb orb app nonEmpty] in *.

(** Runs the handler along the results the world gives, one call at a
    time; the wait loop is kept as one step. *)
Ltac run_handler :=
  unfold Handler.trace, Handler.GET, Handler.accepted, Handler.starts,
    Handler.loads, Handler.scrape, Handler.navigate, Handler.recover,
    Handler.call, Handler.sleep, Handler.throw in *;
  repeat
    (handler_simpl;
     try discriminate;
     match goal with
     | |- context [Handler.launch ?w] =>
         destruct (Handler.launch w) as [[]|?] eqn:?
     | |- context [Handler.newPage ?w] =>
         destruct (Handler.newPage w) as [[]|?] eqn:?
     | |- context [Handler.setViewport ?w] =>
         destruct (Handler.setViewport w) as [[]|?] eqn:?
     | |- context [Handler.setUserAgent ?w] =>
         destruct (Handler.setUserAgent w) as [[]|?] eqn:?
     | |- context [Handler.goto ?w Handler.DomContentLoaded] =>
         destruct (Handler.goto w Handler.DomContentLoaded) as [[]|?] eqn:?
     | |- context [Handler.goto ?w Handler.NetworkIdle] =>
         destruct (Handler.goto w Handler.NetworkIdle) as [[]|?] eqn:?
     | |- context [Handler.goto ?w Handler.Load] =>
         destruct (Handler.goto w Handler.Load) as [[]|?] eqn:?
     | |- context [Handler.title ?w] =>
         destruct (Handler.title w) as [?|?] eqn:?
     | |- context [Pattern.includes "polymarket.com" (Handler.url ?w)] =>
         destruct (Pattern.includes "polymarket.com" (Handler.url w)) eqn:?
     | |- context [Handler.waitForLinks ?w 0 5] =>
         let Hhead := fresh "Hhead" in
         let Hcloses := fresh "Hcloses" in
         let Hgotos := fresh "Hgotos" in
         let Hslept := fresh "Hslept" in
         let Hpolls := fresh "Hpolls" in
         destruct (waitForLinks_trace w)
           as (Hhead & Hcloses & Hgotos & Hslept & Hpolls);
         destruct (Handler.waitForLinks w 0 5) as [? [[]|?]];
         cbn [fst] in Hhead, Hcloses, Hgotos, Hslept, Hpolls
     | |- context [Handler.waitForSelector ?w] =>
         destruct (Handler.waitForSelector w) as [[]|?] eqn:?
     | |- context [Handler.scroll ?w] =>
         destruct (Handler.scroll w) as [[]|?] eqn:?
     | |- context [Handler.linkCountBefore ?w] =>
         destruct (Handler.linkCountBefore w) as [?|?] eqn:?
     | |- context [Handler.links ?w] =>
         destruct (Handler.links w) as [?|?] eqn:?
     | |- context [Handler.close ?w] =>
         destruct (Handler.close w) as [[]|?] eqn:?
     | |- context [Handler.closeAgain ?w] =>
         destruct (Handler.closeAgain w) as [[]|?] eqn:?
     end);
  handler_simpl.

Ltac count_gotos :=
  repeat (rewrite gotos_cons; cbn [Handler.isGoto]);
  rewrite ?filter_app;
  repeat match goal with
         | H : filter _ ?l = [] |- context [filter _ ?l] => rewrite H
         end;
  repeat (rewrite gotos_cons; cbn [Handler.isGoto]);
  rewrite ?filter_nil; cbn [app].

Ltac count_closes :=
  repeat (rewrite closes_cons || rewrite closes_app);
  repeat match goal with
         | H : Handler.closes ?l = 0%nat |- context [Handler.closes ?l] =>
             rewrite H
         end;
  cbn [Handler.isClose Nat.add]; change (Handler.closes []) with 0%nat.

Ltac count_slept :=
  repeat (rewrite slept_cons || rewrite slept_app);
  change (Handler.slept []) with 0%Z.
(** X11.  The handler always answers, with status 200, 400 or 500.  It
    answers 400 exactly when [profileUrl] is missing, empty or not a URL,
    and then without any call to the browser; every other request starts
    with the launch of the browser. *)
Theorem request_validation (profileUrl : option string) (w : Handler.World) :
  exists r : Response.response,
    snd (Handler.GET profileUrl w) = Handler.Ok r
    /\ (Response.status r = 200 \/ Response.status r = 400
        \/ Response.status r = 500)%Z
    /\ (Response.status r = 400%Z <-> Handler.accepted profileUrl w = false)
    /\ (Handler.accepted profileUrl w = false ->
        Handler.trace (Handler.GET profileUrl w) = [])
    /\ (Handler.accepted profileUrl w = true ->
        head (Handler.trace (Handler.GET profileUrl w)) = Some Handler.Launch).
Proof.
  destruct profileUrl as [[|a u]|];
    [eexists; repeat split; (reflexivity || auto || discriminate) | |
     eexists; repeat split; (reflexivity || auto || discriminate)].
  destruct (Handler.isUrl w (String a u)) eqn:U.
  2:{ unfold Handler.GET, Handler.accepted, Handler.trace.
      cbn [nonEmpty negb andb]. rewrite U. cbn [negb].
      eexists; repeat split; (reflexivity || auto || discriminate). }
  run_handler.
  all: rewrite ?U; cbn [negb andb].
  all: eexists; split; [reflexivity|];
       unfold Response.failed, Response.respond; cbn [Response.status];
       repeat split; auto; try discriminate; try lia;
       destruct (_ =? _)%nat; cbn [Response.status]; auto; discriminate.
Qed.

Lemma request_validation_witness :
  Handler.trace (Handler.GET (Some "polymarket") Worlds.calm) = []
  /\ head (Handler.trace (Handler.GET (Some Worlds.profile) Worlds.calm))
     = Some Handler.Launch.
Proof.
  destruct (request_validation (Some "polymarket") Worlds.calm)
    as (r1 & _ & _ & _ & H1 & _).
  destruct (request_validation (Some Worlds.profile) Worlds.calm)
    as (r2 & _ & _ & _ & _ & H2).
  split; [apply H1; reflexivity|apply H2; reflexivity].
Defined.

(** X12.  A browser that was launched is closed on every path: the last
    call of the handler is [browser.close()], which is called once, or
    twice when the first call itself throws (the answer is then 500 with
    the message of that call).  When the launch throws nothing else is
    called. *)
Theorem browser_closed (profileUrl : option string) (w : Handler.World) :
  Handler.accepted profileUrl w = true ->
  let t := Handler.trace (Handler.GET profileUrl w) in
  (Handler.isOk (Handler.launch w) = false -> t = [Handler.Launch])
  /\ (Handler.isOk (Handler.launch w) = true ->
      last t = Some Handler.Close
      /\ (1 <= Handler.closes t <= 2)%nat
      /\ (Handler.closes t = 2%nat ->
          exists message : string,
            Handler.close w = Handler.Throw message
            /\ snd (Handler.GET profileUrl w)
               = Handler.Ok (Response.failed message))).
Proof.
  destruct profileUrl as [u|]; [|discriminate].
  intros A t. subst t. unfold Handler.accepted in A.
  apply andb_true_iff in A as [N U].
  unfold Handler.GET. rewrite N, U. cbn [negb].
  run_handler.
  all: split; [intros H; try discriminate H; reflexivity
              | intros H; try discriminate H].
  all: split; [rewrite ?app_assoc; rewrite ?last_cons, ?last_app; reflexivity|].
  all: count_closes.
  all: split; [lia|]; intros C; try (exfalso; lia).
  all: eexists; split; reflexivity.
Qed.

Lemma browser_closed_witness :
  last (Handler.trace (Handler.GET (Some Worlds.profile) Worlds.offSite))
  = Some Handler.Close.
Proof.
  apply (proj2 (browser_closed (Some Worlds.profile) Worlds.offSite eq_refl)).
  reflexivity.
Defined.

(** X13.  The page is loaded with at most three attempts, all on the URL
    of the request: waiting for [domcontentloaded], then for
    [networkidle], then with the default; an attempt is made only after
    the one before it threw.  When all three throw the answer carries the
    message of the last one, and the browser is closed once. *)
Theorem navigation_attempts (u : string) (w : Handler.World) :
  Handler.accepted (Some u) w = true -> Handler.starts w = true ->
  let m := Handler.GET (Some u) w in
  filter Handler.isGoto (Handler.trace m)
  = (if Handler.isOk (Handler.goto w Handler.DomContentLoaded)
     then [Handler.Goto u Handler.DomContentLoaded]
     else if Handler.isOk (Handler.goto w Handler.NetworkIdle)
     then [Handler.Goto u Handler.DomContentLoaded;
           Handler.Goto u Handler.NetworkIdle]
     else [Handler.Goto u Handler.DomContentLoaded;
           Handler.Goto u Handler.NetworkIdle; Handler.Goto u Handler.Load])
  /\ (forall message : string,
        Handler.loads w = false ->
        Handler.goto w Handler.Load = Handler.Throw message ->
        snd m = Handler.Ok (Response.failed message)
        /\ Handler.closes (Handler.trace m) = 1%nat).
Proof.
  intros A B m. subst m. unfold Handler.accepted in A.
  apply andb_true_iff in A as [N U].
  unfold Handler.GET. rewrite N, U. cbn [negb].
  run_handler.
  all: split; [count_gotos; reflexivity|].
  all: intros msg L G; try discriminate L.
  all: injection G as <-; split; [reflexivity|count_closes; reflexivity].
Qed.

Lemma navigation_attempts_witness :
  snd (Handler.GET (Some Worlds.profile) Worlds.unreachable)
  = Handler.Ok (Response.failed "net::ERR_NAME_NOT_RESOLVED")
  /\ Handler.closes (Handler.trace (Handler.GET (Some Worlds.profile) Worlds.unreachable))
     = 1%nat.
Proof.
  apply (proj2 (navigation_attempts Worlds.profile Worlds.unreachable
                  eq_refl eq_refl)); reflexivity.
Defined.

(** X14.  The site is checked on the URL the browser ends up at, after
    the page of the request was loaded: when that URL does not hold
    "polymarket.com" the answer is 500 with "Invalid page: not a
    Polymarket URL", no script has run in the page and the browser is
    closed once; when it does, the wait for the links begins. *)
Theorem domain_check (u : string) (w : Handler.World) :
  Handler.accepted (Some u) w = true -> Handler.starts w = true ->
  Handler.loads w = true -> Handler.isOk (Handler.title w) = true ->
  let m := Handler.GET (Some u) w in
  (Pattern.includes "polymarket.com" (Handler.url w) = false ->
   snd m = Handler.Ok (Response.failed "Invalid page: not a Polymarket URL")
   /\ Handler.Goto u Handler.DomContentLoaded ∈ Handler.trace m
   /\ Forall (fun e => e <> Handler.CountLinks /\ e <> Handler.ScrollScript
                       /\ e <> Handler.ExtractScript) (Handler.trace m)
   /\ Handler.closes (Handler.trace m) = 1%nat)
  /\ (Pattern.includes "polymarket.com" (Handler.url w) = true ->
      Handler.CountLinks ∈ Handler.trace m).
Proof.
  intros A B L T m. subst m. unfold Handler.accepted in A.
  apply andb_true_iff in A as [N U].
  unfold Handler.GET. rewrite N, U. cbn [negb].
  run_handler.
  all: split; intros I; try discriminate I.
  all: try solve
         [ split; [reflexivity|];
           split; [repeat first [apply list_elem_of_here | apply list_elem_of_further]|];
           split; [repeat constructor; discriminate|count_closes; reflexivity] ].
  all: rewrite <- ?app_assoc;
       repeat apply list_elem_of_further;
       apply elem_of_app; left; now apply head_elem.
Qed.

Lemma domain_check_witness :
  snd (Handler.GET (Some Worlds.profile) Worlds.offSite)
  = Handler.Ok (Response.failed "Invalid page: not a Polymarket URL")
  /\ Handler.CountLinks
     ∈ Handler.trace (Handler.GET (Some Worlds.profile) Worlds.calm).
Proof.
  split.
  - apply (proj1 (domain_check Worlds.profile Worlds.offSite
                    eq_refl eq_refl eq_refl eq_refl)). reflexivity.
  - apply (proj2 (domain_check Worlds.profile Worlds.calm
                    eq_refl eq_refl eq_refl eq_refl)). reflexivity.
Defined.
(** X15.  The wait for the market links polls the page at most five
    times and pauses two seconds after every poll that finds none, the
    fifth included; it ends at the first poll that finds a link or throws,
    and gives up only after five polls without a link. *)
Theorem link_wait (w : Handler.World) :
  exists k : nat,
    (k <= 5)%nat
    /\ (forall j : nat, (j < k)%nat -> Handler.linkCount w j = Handler.Ok 0%nat)
    /\ Handler.slept (fst (Handler.waitForLinks w 0 5)) = (2000 * Z.of_nat k)%Z
    /\ ((k = 5%nat
         /\ Handler.waitForLinks w 0 5 = (Handler.polls 5, Handler.Ok false))
        \/ ((k < 5)%nat
            /\ ((exists c : nat,
                   Handler.linkCount w k = Handler.Ok (S c)
                   /\ Handler.waitForLinks w 0 5
                      = ((Handler.polls k ++ [Handler.CountLinks])%list,
                         Handler.Ok true))
                \/ (exists message : string,
                      Handler.linkCount w k = Handler.Throw message
                      /\ Handler.waitForLinks w 0 5
                         = ((Handler.polls k ++ [Handler.CountLinks])%list,
                            Handler.Throw message))))).
Proof.
  destruct (waitForLinks_polls w 0 5) as (k & Hk & Hz & H).
  destruct (polls_facts k) as (_ & HS & _ & _).
  exists k. split; [exact Hk|]. split; [exact Hz|]. split.
  - destruct H as [[E H] | [Hlt [(c & _ & H) | (m & _ & H)]]];
      rewrite H; cbn [fst]; rewrite ?slept_app, HS; cbn; lia.
  - destruct H as [[E H] | H]; [left; subst k; now split|right; exact H].
Qed.

Lemma link_wait_witness :
  exists k : nat,
    (forall j : nat, (j < k)%nat -> Handler.linkCount Worlds.slow j = Handler.Ok 0%nat)
    /\ Handler.slept (fst (Handler.waitForLinks Worlds.slow 0 5))
       = (2000 * Z.of_nat k)%Z.
Proof.
  destruct (link_wait Worlds.slow) as (k & _ & Hz & Hs & _).
  exists k. split; [exact Hz|exact Hs].
Defined.

(** X16.  When every call succeeds and the browser is on the site, the
    answer is the success response for the records the page script
    extracts from the links of the document; the browser is closed once,
    as the last call.  The fallback wait for a table is made exactly when
    five polls found no link, and what it throws does not change the
    answer. *)
Theorem successful_scrape (u : string) (w : Handler.World)
    (allMarketLinks : list Locator.Link) :
  Handler.accepted (Some u) w = true -> Handler.starts w = true ->
  Handler.loads w = true -> Handler.isOk (Handler.title w) = true ->
  Pattern.includes "polymarket.com" (Handler.url w) = true ->
  (forall attempt : nat,
      (attempt < 5)%nat -> Handler.isOk (Handler.linkCount w attempt) = true) ->
  Handler.isOk (Handler.scroll w) = true ->
  Handler.isOk (Handler.linkCountBefore w) = true ->
  Handler.links w = Handler.Ok allMarketLinks ->
  Handler.isOk (Handler.close w) = true ->
  let m := Handler.GET (Some u) w in
  snd m = Handler.Ok (Response.respond (Locator.evaluate allMarketLinks))
  /\ Handler.closes (Handler.trace m) = 1%nat
  /\ last (Handler.trace m) = Some Handler.Close
  /\ (Handler.WaitForSelector ∈ Handler.trace m <->
      forall attempt : nat,
        (attempt < 5)%nat -> Handler.linkCount w attempt = Handler.Ok 0%nat).
Proof.
  intros A B L T I P SC LC LK CL m. subst m. unfold Handler.accepted in A.
  apply andb_true_iff in A as [N U].
  unfold Handler.GET. rewrite N, U. cbn [negb]. unfold Handler.scrape.
  destruct (waitForLinks_polls w 0 5)
    as (k & Hk & Hz & [[-> H] | [Hlt [(c & Hc & H) | (msg & Hm & H)]]]);
    rewrite H; cbn [Nat.add] in *.
  3:{ specialize (P k Hlt). rewrite Hm in P. discriminate. }
  all: destruct (polls_facts 5) as (HC5 & _); try destruct (polls_facts k) as (HCk & _).
  all: run_handler.
  all: injection LK as ->.
  all: split; [reflexivity|].
  all: split; [count_closes; reflexivity|].
  all: split; [rewrite ?app_assoc; rewrite ?last_cons, ?last_app; reflexivity|].
  all: split; intros X.
  all: try exact Hz.
  all: try solve [cbn [Handler.polls app];
                  repeat first [apply list_elem_of_here | apply list_elem_of_further]].
  all: try (specialize (X k Hlt); congruence).
  all: exfalso;
       repeat (rewrite elem_of_cons in X || rewrite elem_of_app in X
               || rewrite elem_of_nil in X);
       repeat match goal with
              | H : _ \/ _ |- _ => destruct H as [H | H]
              end;
       try discriminate;
       try (match goal with
            | H : _ ∈ Handler.polls _ |- _ =>
                apply polls_elem in H as [H | H]; discriminate
            end);
       assumption.
Qed.

Lemma successful_scrape_witness :
  snd (Handler.GET (Some Worlds.profile) Worlds.slow)
  = Handler.Ok (Response.respond (Locator.evaluate [Worlds.linkX])).
Proof.
  apply (successful_scrape Worlds.profile Worlds.slow [Worlds.linkX]);
    reflexivity.
Defined.

(** X17.  Between its calls the handler sleeps at most twenty seconds
    (the pauses inside the page scripts left out), and at least five when
    it answers 200. *)
Theorem handler_sleeps (profileUrl : option string) (w : Handler.World) :
  (0 <= Handler.slept (Handler.trace (Handler.GET profileUrl w)) <= 20000)%Z
  /\ (forall r : Response.response,
        snd (Handler.GET profileUrl w) = Handler.Ok r ->
        Response.status r = 200%Z ->
        (5000 <= Handler.slept (Handler.trace (Handler.GET profileUrl w)))%Z).
Proof.
  destruct profileUrl as [[|a u]|];
    [split; [cbn; lia|intros r [= <-]; discriminate] | |
     split; [cbn; lia|intros r [= <-]; discriminate]].
  destruct (Handler.isUrl w (String a u)) eqn:U.
  2:{ unfold Handler.GET, Handler.trace. cbn [nonEmpty negb]. rewrite U.
      cbn [negb]. split; [cbn; lia|intros r [= <-]; discriminate]. }
  unfold Handler.GET, Handler.trace. cbn [nonEmpty negb]. rewrite U. cbn [negb].
  run_handler.
  all: count_slept.
  all: split; [lia|]; intros r [= <-]; try discriminate; intros _; lia.
Qed.

Lemma handler_sleeps_witness :
  (5000 <= Handler.slept
             (Handler.trace (Handler.GET (Some Worlds.profile) Worlds.calm)))%Z.
Proof.
  apply (proj2 (handler_sleeps (Some Worlds.profile) Worlds.calm)
           (Response.respond (Locator.evaluate [Worlds.linkX])));
    reflexivity.
Defined.

(** ** The numbers of the page *)

Section FloatFacts.
Import JsNumber Pattern Extract.

Lemma span_none (p : ascii -> bool) (s : string) :
  stops p s = true -> span p s = ("", s).
Proof.
  destruct s as [|c s]; [reflexivity|]. cbn [stops span].
  now destruct (p c).
Qed.

Lemma decimalChar_plain (c : ascii) :
  isDecimalChar c = true ->
  isSpace c = false /\ JsFloat.isExponentIndicator c = false
  /\ Ascii.eqb "I" c = false /\ Ascii.eqb c "-" = false
  /\ Ascii.eqb c "+" = false /\ Ascii.eqb c cent = false
  /\ Ascii.eqb c "," = false /\ Ascii.eqb c "$" = false.
Proof.
  destruct c as [[] [] [] [] [] [] [] []]; vm_compute; intros H;
    try discriminate H; repeat split.
Qed.

Lemma decimalChar_stop (c : ascii) :
  isDecimalChar c = true -> isDigit c = false -> c = "."%char.
Proof.
  unfold isDecimalChar. intros H N. rewrite N in H. now apply Ascii.eqb_eq in H.
Qed.

Lemma ofScientific_fraction (n : Z) (k : nat) :
  JsFloat.ofScientific n (0 - Z.of_nat k) = ofDecimal n k.
Proof.
  unfold JsFloat.ofScientific.
  replace (0 - Z.of_nat k <=? 0)%Z with true by (symmetry; apply Z.leb_le; lia).
  f_equal. lia.
Qed.

Lemma exponentAt_plain (s : string) :
  allb isDecimalChar s = true -> JsFloat.exponentAt s = 0%Z.
Proof.
  destruct s as [|c s]; [reflexivity|]. cbn [allb JsFloat.exponentAt].
  intros H. apply andb_true_iff in H as [H _].
  now rewrite (proj1 (proj2 (decimalChar_plain c H))).
Qed.

Lemma unsignedLiteral_plain (s : string) :
  allb isDecimalChar s = true ->
  JsFloat.unsignedLiteral s = JsNumber.parseFloat s.
Proof.
  intros H. unfold JsFloat.unsignedLiteral, JsNumber.parseFloat.
  assert (I : startsWith "Infinity" s = false).
  { destruct s as [|c s]; [reflexivity|]. cbn [allb] in H.
    apply andb_true_iff in H as [H _]. cbn [startsWith].
    now rewrite (proj1 (proj2 (proj2 (decimalChar_plain c H)))). }
  rewrite I. destruct (span isDigit s) as [int rest] eqn:E.
  apply span_spec in E as (-> & _ & St).
  rewrite allb_app in H. apply andb_true_iff in H as [_ H].
  destruct rest as [|c r].
  - cbn [JsFloat.exponentAt String.length Z.of_nat].
    destruct (int ++ "")%string; [reflexivity|].
    now rewrite (ofScientific_fraction _ 0).
  - cbn [allb] in H. apply andb_true_iff in H as [Hc Hr].
    cbn [stops] in St. apply negb_true_iff in St.
    rewrite (decimalChar_stop c Hc St).
    destruct (span isDigit r) as [frac rest'] eqn:F. cbn [fst].
    apply span_spec in F as (-> & _ & _).
    rewrite allb_app in Hr. apply andb_true_iff in Hr as [_ Hr].
    rewrite (exponentAt_plain _ Hr).
    destruct (int ++ frac)%string; [reflexivity|].
    now rewrite ofScientific_fraction.
Qed.

Lemma parseFloat_plain (s : string) :
  allb isDecimalChar s = true -> JsFloat.parseFloat s = JsNumber.parseFloat s.
Proof.
  intros H. rewrite <- (unsignedLiteral_plain s H). unfold JsFloat.parseFloat.
  destruct s as [|c s]; [reflexivity|].
  cbn [allb] in H. apply andb_true_iff in H as [Hc _].
  destruct (decimalChar_plain c Hc) as (Sp & _ & _ & Mi & Pl & _).
  rewrite span_none by (cbn [stops]; now rewrite Sp). cbn [snd].
  destruct c as [[] [] [] [] [] [] [] []]; try reflexivity; discriminate.
Qed.

End FloatFacts.

(** X18.  On the strings the route gives to [parseFloat], which hold
    digits and points only, the reading of the route agrees with the whole
    of [parseFloat]: no white space, sign, exponent or [Infinity] can come
    into play there.  So the price in cents and the value of a record are
    what the global [parseFloat] gives for the captured text. *)
Theorem parseFloat_of_route_strings :
  (forall s : string,
      JsNumber.allb Pattern.isDecimalChar s = true ->
      JsFloat.parseFloat s = JsNumber.parseFloat s)
  /\ (forall avgPriceValue g r : string,
        Pattern.search Pattern.numberAt avgPriceValue = Some (g, r) ->
        Extract.priceInCents avgPriceValue = JsFloat.parseFloat g)
  /\ (forall value : string,
        Extract.valueNum value = JsFloat.parseFloat (Extract.valueStr value)).
Proof.
  split; [exact parseFloat_plain|]. split.
  - intros a g r H. unfold Extract.priceInCents. rewrite H. symmetry.
    apply parseFloat_plain. now apply (proj1 (parseFloat_arguments a "" g r)).
  - intros v. unfold Extract.valueNum. symmetry. apply parseFloat_plain.
    apply (proj2 (parseFloat_arguments "" v "" "")).
Qed.

Lemma parseFloat_of_route_strings_witness :
  JsFloat.parseFloat "45.5" = JsNumber.parseFloat "45.5"
  /\ Extract.priceInCents (Inputs.cents "45.5") = JsFloat.parseFloat "45.5".
Proof.
  split.
  - apply (proj1 parseFloat_of_route_strings). reflexivity.
  - apply (proj1 (proj2 parseFloat_of_route_strings) _ _ (String Pattern.cent "")).
    reflexivity.
Defined.
Section PageFacts.
Import JsNumber Pattern Extract Page.

Lemma removeAll_app (class : ascii -> bool) (a b : string) :
  removeAll class (a ++ b) = removeAll class a ++ removeAll class b.
Proof.
  induction a as [|c a IH]; [reflexivity|]. cbn [String.append removeAll].
  destruct (class c); [exact IH|]. cbn [String.append]. now rewrite IH.
Qed.

Lemma removeAll_none (class : ascii -> bool) (s : string) :
  allb (fun c => negb (class c)) s = true -> removeAll class s = s.
Proof.
  induction s as [|c s IH]; [reflexivity|]. cbn [allb removeAll].
  intros H. apply andb_true_iff in H as [Hc Hs]. apply negb_true_iff in Hc.
  rewrite Hc. now rewrite IH.
Qed.

Lemma removeAll_all (class : ascii -> bool) (s : string) :
  allb class s = true -> removeAll class s = "".
Proof.
  induction s as [|c s IH]; [reflexivity|]. cbn [allb removeAll].
  intros H. apply andb_true_iff in H as [Hc Hs]. rewrite Hc. now apply IH.
Qed.

Lemma removeAll_commas (class : ascii -> bool) (s : string) :
  (forall c : ascii,
      isDigitOrComma c || Ascii.eqb c "." = true -> class c = Ascii.eqb c ",") ->
  allb (fun c => isDigitOrComma c || Ascii.eqb c ".") s = true ->
  removeAll class s = removeCommas s.
Proof.
  intros K. induction s as [|c s IH]; [reflexivity|]. cbn [allb removeAll removeCommas].
  intros H. apply andb_true_iff in H as [Hc Hs]. rewrite (K c Hc).
  now rewrite (IH Hs).
Qed.

Lemma noise_classes (c : ascii) :
  (isDecimalChar c = true ->
   isCentNoise c = false /\ isDollarNoise c = false /\ isSortNoise c = false)
  /\ (isSpace c = true -> isCentNoise c = true /\ isSortNoise c = true)
  /\ (isDigitOrComma c || Ascii.eqb c "." = true ->
      isDollarNoise c = Ascii.eqb c "," /\ isSortNoise c = Ascii.eqb c ","
      /\ Ascii.eqb cent c = false).
Proof.
  destruct c as [[] [] [] [] [] [] [] []]; vm_compute;
    repeat split; try reflexivity; discriminate.
Qed.

Lemma includes_absent (a : ascii) (s : string) :
  allb (fun c => negb (Ascii.eqb a c)) s = true ->
  includes (String a "") s = false.
Proof.
  intros H. unfold includes. apply bool_decide_eq_false. intros [x Hx].
  induction s as [|c s IH]; [discriminate Hx|].
  cbn [allb] in H. apply andb_true_iff in H as [Hc Hs].
  apply negb_true_iff in Hc. cbn [search startsWith] in Hx.
  rewrite Hc in Hx. cbn [andb] in Hx. now apply IH.
Qed.

(** A price text is a number, white space and the cent sign. *)
Lemma priceText_parts (s : string) :
  isPriceText s = true ->
  exists num ws rest : string,
    s = num ++ ws ++ String cent ""
    /\ allb isDecimalChar num = true /\ allb isSpace ws = true
    /\ search numberAt s = Some (num, rest).
Proof.
  unfold isPriceText. destruct (priceAt s) as [[whole num]|] eqn:P; [|discriminate].
  intros E. apply String.eqb_eq in E. subst whole.
  destruct (priceAt_shape _ _ _ P) as (rest & ws & N & W & S).
  exists num, ws, rest. split; [exact S|]. split; [|split; [exact W|]].
  - apply (decimalAt_chars isDigit isDecimalChar s num rest); [| |exact N].
    + intros c Hc. unfold isDecimalChar. now rewrite Hc.
    + auto.
  - destruct s as [|c s]; [discriminate P|]. cbn [search].
    now rewrite N.
Qed.

(** A dollar text is the dollar sign and digits, commas and a point. *)
Lemma dollarText_parts (v : string) :
  isDollarText v = true ->
  exists amount rest : string,
    v = String "$" amount
    /\ allb (fun c => isDigitOrComma c || Ascii.eqb c ".") amount = true
    /\ search amountAt v = Some (amount, rest).
Proof.
  unfold isDollarText.
  destruct (dollarAt v) as [whole|] eqn:D; [|discriminate].
  intros E. apply String.eqb_eq in E. subst whole.
  unfold dollarAt in D. destruct v as [|c v']; [discriminate D|].
  destruct (Ascii.eqb_spec c "$") as [->|N].
  2:{ exfalso. destruct c as [[] [] [] [] [] [] [] []]; try discriminate D.
      now apply N. }
  destruct (amountAt v') as [[amount rest]|] eqn:A; [|discriminate D].
  injection D as D. subst v'. exists amount, rest. split; [reflexivity|]. split.
  - apply (decimalAt_chars isDigitOrComma
             (fun c => isDigitOrComma c || Ascii.eqb c ".") amount amount rest);
      [| |exact A].
    + intros c Hc. now rewrite Hc.
    + intros c Hc. unfold isDecimalChar in Hc. unfold isDigitOrComma.
      apply orb_true_iff in Hc as [Hc|Hc]; rewrite Hc;
        [reflexivity|apply orb_true_r].
  - cbn [search]. change (amountAt (String "$" amount)) with (@None (string * string)).
    destruct amount as [|a amount]; [discriminate A|]. cbn [search]. now rewrite A.
Qed.

Lemma parseNumericValue_price (s : string) :
  isPriceText s = true ->
  parseNumericValue s = JsFloat.orZero (priceInDollars s)
  /\ sortKey s = JsFloat.orZero (priceInCents s).
Proof.
  intros H. destruct (priceText_parts s H) as (num & ws & rest & -> & Hn & Hw & Hs).
  assert (C1 : removeAll isCentNoise (num ++ ws ++ String cent "") = num).
  { rewrite !removeAll_app, removeAll_none, removeAll_all.
    - cbn. apply append_empty.
    - apply (allb_impl isSpace); [|exact Hw]. intros c Hc. now apply noise_classes.
    - apply (allb_impl isDecimalChar); [|exact Hn]. intros c Hc.
      apply negb_true_iff. now apply noise_classes. }
  assert (C2 : removeAll isSortNoise (num ++ ws ++ String cent "") = num).
  { rewrite !removeAll_app, removeAll_none, removeAll_all.
    - cbn. apply append_empty.
    - apply (allb_impl isSpace); [|exact Hw]. intros c Hc. now apply noise_classes.
    - apply (allb_impl isDecimalChar); [|exact Hn]. intros c Hc.
      apply negb_true_iff. now apply noise_classes. }
  unfold parseNumericValue, sortKey, priceInDollars, priceInCents.
  rewrite Hs, C1, C2, (parseFloat_plain num Hn).
  assert (I : includes (String cent "") (num ++ ws ++ String cent "") = true).
  { rewrite <- append_assoc. now apply includes_append. }
  rewrite I. destruct (num ++ ws ++ String cent "") eqn:E; [|now split].
  destruct num; destruct ws; discriminate E.
Qed.

Lemma parseNumericValue_dollar (v : string) :
  isDollarText v = true ->
  parseNumericValue v = JsFloat.orZero (valueNum v)
  /\ sortKey v = JsFloat.orZero (valueNum v).
Proof.
  intros H. destruct (dollarText_parts v H) as (amount & rest & -> & Ha & Hs).
  assert (P : allb isDecimalChar (removeCommas amount) = true).
  { apply removeCommas_chars.
    apply (allb_impl (fun c => isDigitOrComma c || Ascii.eqb c ".")); [|exact Ha].
    intros c Hc. unfold isDigitOrComma, isDecimalChar in *.
    destruct (isDigit c), (Ascii.eqb c ","), (Ascii.eqb c "."); auto. }
  unfold parseNumericValue, sortKey, valueNum, valueStr. rewrite Hs.
  cbn [nonEmpty negb removeAll].
  change (isDollarNoise "$") with true. change (isSortNoise "$") with true.
  cbv iota.
  rewrite (removeAll_commas isDollarNoise amount), (removeAll_commas isSortNoise amount);
    try exact Ha; try (intros c Hc; now apply noise_classes).
  rewrite (parseFloat_plain _ P).
  rewrite includes_absent; [now split|].
  cbn [allb]. apply andb_true_iff. split; [reflexivity|].
  apply (allb_impl (fun c => isDigitOrComma c || Ascii.eqb c ".")); [|exact Ha].
  intros c Hc. apply negb_true_iff. now apply noise_classes.
Qed.

End PageFacts.

(** X19.  The page reads the numbers of a record as the route does.  For
    a price text as the route writes it ("45¢") the range filter compares
    the unit price in dollars of the route and the sort compares its price
    in cents; for a value text ("$5,423") both compare the value of the
    route.  In the page a number that is zero or not a number counts as
    zero. *)
Theorem page_reads_route_numbers :
  (forall s : string,
      Pattern.isPriceText s = true ->
      Page.parseNumericValue s = JsFloat.orZero (Extract.priceInDollars s)
      /\ Page.sortKey s = JsFloat.orZero (Extract.priceInCents s))
  /\ (forall v : string,
        Pattern.isDollarText v = true ->
        Page.parseNumericValue v = JsFloat.orZero (Extract.valueNum v)
        /\ Page.sortKey v = JsFloat.orZero (Extract.valueNum v)).
Proof. split; [exact parseNumericValue_price|exact parseNumericValue_dollar]. Qed.

Lemma page_reads_route_numbers_witness :
  Page.parseNumericValue (Inputs.cents "45")
  = JsFloat.orZero (Extract.priceInDollars (Inputs.cents "45"))
  /\ Page.sortKey "$5,423" = JsFloat.orZero (Extract.valueNum "$5,423").
Proof.
  split.
  - apply (proj1 page_reads_route_numbers). reflexivity.
  - apply (proj2 page_reads_route_numbers). reflexivity.
Defined.
(** ** The filters, the sort state and the countdown of the page *)

Section TableFacts.
Import JsNumber Pattern Page.
Local Open Scope list_scope.

Lemma leq_NaN (x y : number) :
  isNaN x = true \/ isNaN y = true -> JsFloat.leq x y = false.
Proof. intros [H|H]; destruct x, y; try discriminate H; reflexivity. Qed.

Lemma inRange_NaN (minText maxText : string) (x : number) :
  (nonEmpty minText = true /\ isNaN (JsFloat.parseFloat minText) = true)
  \/ (nonEmpty maxText = true /\ isNaN (JsFloat.parseFloat maxText) = true) ->
  inRange minText maxText x = false.
Proof.
  unfold inRange, bound. intros [[N H]|[N H]]; rewrite N.
  - rewrite leq_NaN by auto. reflexivity.
  - rewrite (leq_NaN x) by auto. apply andb_false_r.
Qed.

Lemma filter_none {A : Type} (p : A -> bool) (l : list A) :
  (forall x : A, p x = false) -> filter p l = [].
Proof.
  intros H. induction l as [|x l IH]; [reflexivity|].
  rewrite filter_cons, IH. destruct (decide (p x)) as [I|I]; [|reflexivity].
  apply Is_true_true in I. rewrite H in I. discriminate.
Qed.

Lemma toLowerCase_nonEmpty (s : string) :
  nonEmpty (toLowerCase s) = nonEmpty s.
Proof. now destruct s. Qed.

Lemma startsWith_refl (s : string) : startsWith s s = true.
Proof.
  induction s as [|c s IH]; [reflexivity|]. cbn [startsWith].
  now rewrite Ascii.eqb_refl.
Qed.

Lemma includes_refl (s : string) : includes s s = true.
Proof.
  unfold includes. apply bool_decide_eq_true.
  destruct s as [|c s]; cbn [search]; rewrite startsWith_refl; eauto.
Qed.

Lemma next_mod (n T : Z) :
  (0 <= n)%Z -> (1 <= T)%Z ->
  ((n + 1) mod T
   = if (n mod T + 1 =? T) then 0 else n mod T + 1)%Z.
Proof.
  intros Hn HT. pose proof (Z.mod_pos_bound n T ltac:(lia)) as B.
  pose proof (Z.div_mod n T ltac:(lia)) as D.
  destruct (Z.eqb_spec (n mod T + 1) T) as [E|E].
  - symmetry. apply (Z.mod_unique_pos _ _ (n / T + 1)); lia.
  - symmetry. apply (Z.mod_unique_pos _ _ (n / T)); lia.
Qed.

Lemma countdown_value (interval : Z) (n : nat) :
  (1 <= interval)%Z ->
  countdown interval n = (interval - Z.of_nat n mod interval)%Z.
Proof.
  intros HT. induction n as [|n IH].
  - cbn [countdown]. rewrite Z.mod_0_l by lia. lia.
  - cbn [countdown]. rewrite IH. unfold tick.
    rewrite Nat2Z.inj_succ, <- Z.add_1_r, next_mod by lia.
    pose proof (Z.mod_pos_bound (Z.of_nat n) interval ltac:(lia)) as B.
    destruct (Z.leb_spec (interval - Z.of_nat n mod interval) 1) as [L|L];
      destruct (Z.eqb_spec (Z.of_nat n mod interval + 1) interval) as [E|E];
      cbn [snd]; lia.
Qed.

Lemma two_digits (r : Z) :
  (0 <= r < 60)%Z ->
  exists a b : ascii,
    padStart2 (toString r) = String a (String b "")
    /\ isDigit a = true /\ isDigit b = true
    /\ digitsValue 0 (String a (String b "")) = r.
Proof.
  intros H. assert (E : exists k : nat, (k < 60)%nat /\ r = Z.of_nat k).
  { exists (Z.to_nat r). lia. }
  destruct E as (k & Hk & ->).
  do 60 (destruct k as [|k];
         [eexists; eexists; repeat split; vm_compute; reflexivity|]).
  lia.
Qed.

Lemma validUrls_elem (url : string) (profileUrls : list string) :
  url ∈ validUrls profileUrls <-> url ∈ profileUrls /\ trim url <> "".
Proof.
  unfold validUrls. rewrite list_elem_of_filter, Is_true_true.
  destruct url as [|c url].
  - cbn. split; [intros [H _]; discriminate H|intros [_ H]; now destruct H].
  - cbn [nonEmpty andb]. rewrite nonEmpty_ne. tauto.
Qed.

End TableFacts.

(** X20.  A range filter only takes positions away.  A bound that is
    typed but is not a number takes all of them away, whatever their
    value; and a position whose text is empty counts as zero: it stays
    exactly when zero is in the range. *)
Theorem range_filter (field : Position -> string) (minText maxText : string)
    (filtered : list Position) :
  Page.rangeFilter field minText maxText filtered `sublist_of` filtered
  /\ ((nonEmpty minText = true
       /\ JsNumber.isNaN (JsFloat.parseFloat minText) = true)
      \/ (nonEmpty maxText = true
          /\ JsNumber.isNaN (JsFloat.parseFloat maxText) = true) ->
      Page.rangeFilter field minText maxText filtered = [])
  /\ (forall pos : Position,
        pos ∈ filtered -> field pos = "" ->
        (pos ∈ Page.rangeFilter field minText maxText filtered <->
         Page.inRange minText maxText JsNumber.zero = true)).
Proof.
  unfold Page.rangeFilter. split; [|split].
  - destruct (_ || _); [apply sublist_filter|reflexivity].
  - intros H. assert (N : nonEmpty minText || nonEmpty maxText = true).
    { destruct H as [[N _]|[N _]]; rewrite N; [reflexivity|apply orb_true_r]. }
    rewrite N. apply filter_none. intros pos. now apply inRange_NaN.
  - intros pos Hp E. destruct (nonEmpty minText || nonEmpty maxText) eqn:N.
    + rewrite list_elem_of_filter, Is_true_true, E. cbn. tauto.
    + apply orb_false_iff in N as [N1 N2].
      destruct minText; [|discriminate]. destruct maxText; [|discriminate].
      split; [reflexivity|now intros _].
Qed.

Lemma range_filter_witness :
  Page.rangeFilter value "abc" "" [Inputs.recordScenario] = [].
Proof.
  apply (proj1 (proj2 (range_filter value "abc" "" [Inputs.recordScenario]))).
  left. split; reflexivity.
Defined.

(** X21.  A column filter only takes positions away, does not depend on
    the case of the letters typed, and keeps every position whose text in
    that column is the text typed. *)
Theorem column_filter (field : Position -> string) (text : string)
    (filtered : list Position) :
  Page.columnFilter field text filtered `sublist_of` filtered
  /\ Page.columnFilter field (toLowerCase text) filtered
     = Page.columnFilter field text filtered
  /\ (forall pos : Position,
        pos ∈ filtered -> field pos = text ->
        pos ∈ Page.columnFilter field text filtered).
Proof.
  unfold Page.columnFilter. split; [|split].
  - destruct (nonEmpty text); [apply sublist_filter|reflexivity].
  - now rewrite toLowerCase_nonEmpty, toLowerCase_idem.
  - intros pos Hp E. destruct (nonEmpty text); [|exact Hp].
    rewrite list_elem_of_filter, Is_true_true, E. split; [|exact Hp].
    apply includes_refl.
Qed.

Lemma column_filter_witness :
  Inputs.recordScenario
  ∈ Page.columnFilter marketName "Will X happen?" [Inputs.recordScenario].
Proof.
  apply (proj2 (proj2 (column_filter marketName "Will X happen?"
                         [Inputs.recordScenario]))).
  - apply list_elem_of_here.
  - reflexivity.
Defined.



(** X23.  The countdown: with an interval of [T] seconds, [T] at least 1,
    the value shown after [n] seconds is [T - n mod T]; it stays between 1
    and [T], so it never shows zero, and it starts again (with the fetch
    of the first version of the page) at the seconds that are multiples of
    [T] and at no other. *)
Theorem countdown_cycle (interval : Z) (n : nat) :
  (1 <= interval)%Z ->
  Page.countdown interval n = (interval - Z.of_nat n mod interval)%Z
  /\ (1 <= Page.countdown interval n <= interval)%Z
  /\ (fst (Page.tick interval (Page.countdown interval n)) = true <->
      (Z.of_nat (S n) mod interval = 0)%Z).
Proof.
  intros HT. pose proof (countdown_value interval n HT) as V.
  pose proof (Z.mod_pos_bound (Z.of_nat n) interval ltac:(lia)) as B.
  split; [exact V|]. split; [lia|].
  unfold Page.tick. rewrite Nat2Z.inj_succ, <- Z.add_1_r, next_mod by lia.
  destruct (Z.leb_spec (Page.countdown interval n) 1) as [L|L];
    destruct (Z.eqb_spec (Z.of_nat n mod interval + 1) interval) as [E|E];
    cbn [fst]; split; intros H; try reflexivity; try discriminate H; lia.
Qed.

Lemma countdown_cycle_witness :
  Page.countdown 30 45 = (30 - Z.of_nat 45 mod 30)%Z
  /\ (1 <= Page.countdown 30 45 <= 30)%Z.
Proof.
  destruct (countdown_cycle 30 45 ltac:(lia)) as (H1 & H2 & _).
  split; [exact H1|exact H2].
Defined.

(** X24.  The countdown is written as the minutes, a colon and exactly
    two digits of seconds, which read back as the seconds left over. *)
Theorem formatCountdown_shape (seconds : Z) :
  (0 <= seconds)%Z ->
  exists a b : ascii,
    Page.formatCountdown seconds
    = JsNumber.decimal (seconds / 60) ++ ":" ++ String a (String b "")
    /\ JsNumber.isDigit a = true /\ JsNumber.isDigit b = true
    /\ JsNumber.digitsValue 0 (String a (String b "")) = (seconds mod 60)%Z.
Proof.
  intros H. unfold Page.formatCountdown.
  rewrite Z.rem_mod_nonneg by lia.
  destruct (two_digits (seconds mod 60)) as (a & b & E & Ha & Hb & V).
  { apply Z.mod_pos_bound. lia. }
  exists a, b. rewrite E. split; [|now split].
  unfold Page.toString.
  replace (seconds / 60 <? 0)%Z with false; [reflexivity|].
  symmetry. apply Z.ltb_ge. apply Z.div_pos; lia.
Qed.

Lemma formatCountdown_shape_witness :
  exists a b : ascii,
    Page.formatCountdown 125
    = JsNumber.decimal (125 / 60) ++ ":" ++ String a (String b "")
    /\ JsNumber.isDigit a = true /\ JsNumber.isDigit b = true
    /\ JsNumber.digitsValue 0 (String a (String b "")) = (125 mod 60)%Z.
Proof. apply (formatCountdown_shape 125). lia. Defined.

Section UrlsFacts.
Import Pattern Page.
Local Open Scope list_scope.

(** The [i]-th element of a filtered list is the element of the list that
    satisfies the test and has [i] such elements before it. *)
Lemma filter_lookup {A : Type} (p : A -> bool) (l : list A) (i : nat) (x : A) :
  filter p l !! i = Some x <->
  exists j : nat,
    l !! j = Some x /\ p x = true /\ length (filter p (take j l)) = i.
Proof.
  revert i. induction l as [|a l IH]; intros i.
  - split; [discriminate|]. intros (j & H & _). destruct j; discriminate H.
  - rewrite filter_cons. destruct (decide (p a)) as [Pa|Pa].
    + destruct i as [|i].
      * split.
        -- intros [= ->]. exists 0%nat. repeat split. now apply Is_true_true.
        -- intros ([|j] & H & _ & L); [now injection H as ->|].
           cbn [take] in L. rewrite filter_cons_True in L by exact Pa.
           discriminate L.
      * cbn [lookup list_lookup]. rewrite IH. split.
        -- intros (j & H & Px & L). exists (S j). split; [exact H|].
           split; [exact Px|]. cbn [take]. rewrite filter_cons_True by exact Pa.
           cbn [length]. now rewrite L.
        -- intros ([|j] & H & Px & L); [discriminate L|].
           cbn [take] in L. rewrite filter_cons_True in L by exact Pa.
           injection L as L. now exists j.
    + rewrite IH. split.
      * intros (j & H & Px & L). exists (S j). split; [exact H|].
        split; [exact Px|]. cbn [take]. now rewrite filter_cons_False by exact Pa.
      * intros ([|j] & H & Px & L).
        -- injection H as ->. exfalso. apply Pa. now apply Is_true_true.
        -- cbn [take] in L. rewrite filter_cons_False in L by exact Pa.
           now exists j.
Qed.

Lemma validUrls_filter (profileUrls : list string) :
  validUrls profileUrls = filter (fun url => nonEmpty (trim url)) profileUrls.
Proof.
  unfold validUrls. induction profileUrls as [|u l IH]; [reflexivity|].
  rewrite !filter_cons, IH. now destruct u.
Qed.

End UrlsFacts.

(** X25.  At most three profiles are fetched, and they are the first
    three URLs of the form that are not blank, in their order: the URL
    fetched at place [i] is the URL of the form that is not blank and has
    [i] URLs that are not blank before it, for [i] below three.  None is
    fetched exactly when every URL of the form is blank. *)
Theorem urls_to_process (profileUrls : list string) :
  (length (Page.urlsToProcess profileUrls) <= 3)%nat
  /\ Page.urlsToProcess profileUrls `sublist_of` profileUrls
  /\ (forall url : string,
        url ∈ Page.urlsToProcess profileUrls -> Pattern.trim url <> "")
  /\ (Page.urlsToProcess profileUrls = [] <->
      forall url : string, url ∈ profileUrls -> Pattern.trim url = "")
  /\ (forall (i : nat) (url : string),
        Page.urlsToProcess profileUrls !! i = Some url <->
        (i < 3)%nat
        /\ exists j : nat,
             profileUrls !! j = Some url
             /\ Pattern.trim url <> ""
             /\ length (filter (fun u => nonEmpty (Pattern.trim u))
                          (take j profileUrls)) = i).
Proof.
  split; [unfold Page.urlsToProcess; rewrite length_take; lia|].
  split; [|split; [|split]].
  - unfold Page.urlsToProcess.
    etransitivity; [apply sublist_take|apply sublist_filter].
  - unfold Page.urlsToProcess. intros url H. apply elem_of_take in H as (i & H & _).
    apply list_elem_of_lookup_2, validUrls_elem in H. tauto.
  - unfold Page.urlsToProcess. split.
    + intros E url Hu. destruct (Pattern.trim url) eqn:T; [reflexivity|].
      exfalso. assert (F : url ∈ Page.validUrls profileUrls).
      { apply validUrls_elem. split; [exact Hu|]. rewrite T. discriminate. }
      destruct (Page.validUrls profileUrls) as [|x l];
        [now apply elem_of_nil in F|discriminate E].
    + intros H. destruct (Page.validUrls profileUrls) as [|x l] eqn:Q;
        [reflexivity|]. exfalso.
      assert (F : x ∈ Page.validUrls profileUrls)
        by (rewrite Q; apply list_elem_of_here).
      apply validUrls_elem in F as [F1 F2]. now apply F2, H.
  - intros i url. unfold Page.urlsToProcess.
    rewrite lookup_take_Some, validUrls_filter, filter_lookup.
    split.
    + intros [(j & H & P & L) I]. split; [exact I|]. exists j.
      split; [exact H|]. split; [now apply nonEmpty_ne|exact L].
    + intros [I (j & H & P & L)]. split; [|exact I]. exists j.
      split; [exact H|]. split; [now apply nonEmpty_ne|exact L].
Qed.

Lemma urls_to_process_witness :
  Pattern.trim "https://polymarket.com/@a?tab=positions" <> ""
  /\ Page.urlsToProcess
       [""; "https://polymarket.com/@a?tab=positions"; "  "; "b"; "c"; "d"] !! 2%nat
     = Some "c".
Proof.
  split.
  - apply (proj1 (proj2 (proj2 (urls_to_process
             ["https://polymarket.com/@a?tab=positions"; "  "; ""]))) _).
    vm_compute. apply list_elem_of_here.
  - apply (proj2 (proj2 (proj2 (proj2 (urls_to_process
             [""; "https://polymarket.com/@a?tab=positions"; "  "; "b"; "c"; "d"]))))).
    split; [lia|]. exists 4%nat. repeat split. discriminate.
Defined.

(** ** The page and the route together *)

Section FetchFacts.
Import Response Handler Page.
Local Open Scope list_scope.

Lemma decode_encode (p : Position) : decodePosition (positionJson p) = p.
Proof. now destruct p. Qed.

Lemma decode_encode_all (ps : list Position) :
  map decodePosition (map positionJson ps) = ps.
Proof.
  induction ps as [|p ps IH]; [reflexivity|].
  cbn [map]. now rewrite decode_encode, IH.
Qed.

Lemma fetch_respond (profileUrl : string) (before : view) (ps : list Position) :
  nonEmpty profileUrl = true ->
  fetchPositions profileUrl (Answered (respond ps)) before
  = mkView ps (match ps with [] => Some emptyMessage | _ => None end).
Proof.
  intros N. unfold fetchPositions. rewrite N. cbn [negb].
  destruct ps as [|p ps]; [reflexivity|].
  unfold respond. cbn [length Nat.eqb ok status payload negb field].
  cbn. now rewrite decode_encode, decode_encode_all.
Qed.

Lemma fetch_failed (profileUrl : string) (before : view) (message : string) :
  nonEmpty profileUrl = true ->
  fetchPositions profileUrl (Answered (failed message)) before
  = mkView [] (Some (orElse message "Unknown error occurred")).
Proof.
  intros N. unfold fetchPositions. rewrite N. cbn [negb].
  now destruct message.
Qed.

Lemma fetch_badRequest (profileUrl : string) (before : view) (message : string) :
  nonEmpty profileUrl = true -> nonEmpty message = true ->
  fetchPositions profileUrl (Answered (badRequest message)) before
  = mkView [] (Some message).
Proof.
  intros N M. unfold fetchPositions. rewrite N. cbn [negb].
  now destruct message.
Qed.

End FetchFacts.

Lemma GET_answers (profileUrl : option string) (w : Handler.World) :
  exists r : Response.response,
    snd (Handler.GET profileUrl w) = Handler.Ok r
    /\ ((exists ps : list Position, r = Response.respond ps)
        \/ (exists message : string, r = Response.failed message)
        \/ (exists message : string,
              nonEmpty message = true /\ r = Handler.badRequest message)).
Proof.
  assert (B : forall message : string,
             nonEmpty message = true ->
             exists r : Response.response,
               Handler.Ok (Handler.badRequest message) = Handler.Ok r
               /\ ((exists ps : list Position, r = Response.respond ps)
                   \/ (exists m : string, r = Response.failed m)
                   \/ (exists m : string,
                         nonEmpty m = true /\ r = Handler.badRequest m))).
  { intros message M. exists (Handler.badRequest message).
    split; [reflexivity|]. right. right. now exists message. }
  destruct profileUrl as [[|a u]|]; [now apply B| |now apply B].
  unfold Handler.GET. cbn [nonEmpty negb].
  destruct (Handler.isUrl w (String a u)) eqn:U; cbn [negb]; [|now apply B].
  run_handler.
  all: eexists; split; [reflexivity|]; eauto.
Qed.

(** X26.  What the page shows for an answer of the route.  The records of
    a success answer come back as they were sent, with no error; for the
    empty success answer the page shows the message of the route; for a
    failure it shows the message the route took from the error.  So for
    every answer of the handler the page ends either with records and no
    error, or with no record and an error message that is not empty. *)
Theorem page_shows_route_answer (profileUrl : string) (before : Page.view) :
  nonEmpty profileUrl = true ->
  (forall ps : list Position,
      ps <> [] ->
      Page.fetchPositions profileUrl (Page.Answered (Response.respond ps)) before
      = Page.mkView ps None)
  /\ Page.fetchPositions profileUrl (Page.Answered (Response.respond [])) before
     = Page.mkView [] (Some Response.emptyMessage)
  /\ (forall message : string,
        Page.fetchPositions profileUrl
          (Page.Answered (Response.failed message)) before
        = Page.mkView [] (Some (orElse message "Unknown error occurred")))
  /\ (forall (w : Handler.World) (r : Response.response),
        snd (Handler.GET (Some profileUrl) w) = Handler.Ok r ->
        let v := Page.fetchPositions profileUrl (Page.Answered r) before in
        (Page.error v = None <-> Page.positions v <> [])
        /\ (forall message : string, Page.error v = Some message -> message <> "")).
Proof.
  intros N. split; [|split; [|split]].
  - intros ps H. rewrite fetch_respond by exact N. now destruct ps.
  - now rewrite fetch_respond.
  - intros message. now apply fetch_failed.
  - intros w r E v. subst v.
    destruct (GET_answers (Some profileUrl) w)
      as (r' & E' & [(ps & ->) | [(message & ->) | (message & M & ->)]]);
      rewrite E in E'; injection E' as ->.
    + rewrite fetch_respond by exact N. destruct ps as [|p ps]; cbn.
      * split; [split; [discriminate|congruence]|]. intros m [= <-]. discriminate.
      * split; [split; [discriminate|reflexivity]|]. discriminate.
    + rewrite fetch_failed by exact N. cbn.
      split; [split; [discriminate|congruence]|]. intros m [= <-].
      now destruct message.
    + rewrite fetch_badRequest by assumption. cbn.
      split; [split; [discriminate|congruence]|]. intros m [= <-].
      now destruct message.
Qed.

Lemma page_shows_route_answer_witness :
  Page.fetchPositions Worlds.profile
    (Page.Answered (Response.respond [Inputs.recordScenario])) (Page.mkView [] None)
  = Page.mkView [Inputs.recordScenario] None.
Proof.
  apply (proj1 (page_shows_route_answer Worlds.profile (Page.mkView [] None) eq_refl)).
  discriminate.
Defined.

(** ** The two scans for the value *)

Section ValueScanFacts.
Import Pattern Dom Extract.
Local Open Scope list_scope.

Lemma matchDollar_nonEmpty (t m : string) :
  matchDollar t = Some m -> nonEmpty m = true.
Proof.
  intros H. apply matchDollar_text in H as [H _]. now destruct m.
Qed.

(** The cell holds a dollar amount in a value context. *)
Lemma valueFromCells_spec (cells : list node) (value : string) :
  valueFromCells cells value
  = match List.find
            (fun cell =>
               match matchDollar (textContent cell) with
               | Some _ => mentionsValue (toLowerCase (textContent cell))
               | None => false
               end) cells with
    | Some cell => default "" (matchDollar (textContent cell))
    | None =>
        if nonEmpty value then value
        else default "" (head (omap (fun cell => matchDollar (textContent cell)) cells))
    end.
Proof.
  revert value. induction cells as [|cell rest IH]; intros value.
  - cbn. now destruct value.
  - cbn [valueFromCells List.find]. unfold omap. cbn [list_omap].
    destruct (matchDollar (textContent cell)) as [m|] eqn:D.
    + destruct (mentionsValue (toLowerCase (textContent cell)));
        [now rewrite D|].
      destruct (nonEmpty value) eqn:N; cbn [negb]; rewrite IH.
      * destruct (List.find _ rest); [reflexivity|]. now rewrite N.
      * destruct (List.find _ rest); [reflexivity|].
        now rewrite (matchDollar_nonEmpty _ _ D).
    + rewrite IH. reflexivity.
Qed.

Lemma valueFromElements_cells (els : list (node * node)) (value : string) :
  valueFromElements els value = valueFromCells (map fst els) value.
Proof.
  revert value. induction els as [|[el parent] rest IH]; intros value; [reflexivity|].
  cbn [valueFromElements valueFromCells map fst].
  destruct (matchDollar (textContent el)) as [m|] eqn:D; [|apply IH].
  assert (T : orElse (textContent el) (textContent parent) = textContent el).
  { destruct (textContent el); [discriminate D|reflexivity]. }
  rewrite T, !IH. reflexivity.
Qed.

End ValueScanFacts.

(** X27.  The scan of the table cells for the value: the first cell that
    holds a dollar amount in a value context (value, PnL, profit, loss)
    gives the value; when no cell does, the first dollar amount of the
    cells is the value, and it is empty when no cell holds one. *)
Theorem value_cells_preference (cells : list Dom.node) :
  Extract.valueFromCells cells ""
  = match List.find
            (fun cell =>
               match Pattern.matchDollar (Dom.textContent cell) with
               | Some _ =>
                   Extract.mentionsValue (toLowerCase (Dom.textContent cell))
               | None => false
               end) cells with
    | Some cell => default "" (Pattern.matchDollar (Dom.textContent cell))
    | None =>
        default ""
          (head (omap (fun cell => Pattern.matchDollar (Dom.textContent cell)) cells))
    end.
Proof. now rewrite valueFromCells_spec. Qed.

(** X28.  The scan of the elements for the value never looks at the
    parent of an element: the text of the parent would be the context only
    for an element without text, which holds no dollar amount.  The scan
    is the scan of the cells, run on the elements. *)
Theorem value_elements_ignore_parent (els : list (Dom.node * Dom.node))
    (value : string) :
  Extract.valueFromElements els value
  = Extract.valueFromCells (map fst els) value
  /\ (forall c : Dom.node,
        Extract.valueAfter1 c
        = Extract.valueFromCells (map fst (Extract.valueElements c))
            (Extract.valueAfter0 c)).
Proof.
  split; [apply valueFromElements_cells|].
  intros c. apply valueFromElements_cells.
Qed.
